(** * Release clean-up tooling of the kubedoop Helm chart repository

    A shallow embedding of the two Go implementations of the release
    clean-up tool:

    - package [main]  (chart.go, git.go, index.go, main.go), embedded in
      [Module Main];
    - package [internal] of chart-releaser (git.go, github.go, the index
      manager, release_manager.go), embedded in [Module Internal].

    Pure code is embedded as functions.  Code that shells out to git, calls
    the hosting API, touches the file system or logs is embedded in a trace
    monad: every external call is recorded as an [Event] and answered by a
    [World], whose answers may depend on everything that happened before. *)

From Stdlib Require Import Ascii String.
From stdpp Require Import base option list strings pretty gmap sets.

Open Scope string_scope.
Open Scope list_scope.
Open Scope nat_scope.

(** ** Go values shared by both packages *)

(** A Go [error] is represented by its message. *)
Definition error := string.

(** A Go result pair [(v, err)]: either a value or a non-nil error. *)
Inductive result (A : Type) : Type :=
| Ok (a : A)
| Err (e : error).
Arguments Ok {A} a.
Arguments Err {A} e.

Definition is_err {A} (r : result A) : bool :=
  match r with Ok _ => false | Err _ => true end.

(** [ChartMetadata], [ChartInfo]: chart.go and release_manager.go declare the
    same two structs. *)
Record ChartMetadata := { mdName : string; mdVersion : string }.

Record ChartInfo := { Path : string; Name : string; Version : string }.

(** [ChartVersion] of index.go.  The index manager of chart-releaser uses
    helm's [repo.ChartVersion]; of that struct the code only ever reads the
    [Version] field, so the same record stands for it. *)
Record ChartVersion := { cvName : string; cvVersion : string; cvURLs : list string }.

Record IndexFile := {
  APIVersion : string;
  Entries : gmap string (list ChartVersion);
  Generated : string
}.

Definition setEntries (indexFile : IndexFile) (entries : gmap string (list ChartVersion)) : IndexFile :=
  {| APIVersion := APIVersion indexFile; Entries := entries; Generated := Generated indexFile |}.

#[global] Instance ChartVersion_eq_dec : EqDecision ChartVersion.
Proof. solve_decision. Defined.

#[global] Instance ChartInfo_eq_dec : EqDecision ChartInfo.
Proof. solve_decision. Defined.

(** The inner loop shared by both index cleaners:
    [for _, version := range chartVersions { if version.Version != chartVersion { append } }]. *)
Fixpoint filterVersions (chartVersion : string) (chartVersions : list ChartVersion) : list ChartVersion :=
  match chartVersions with
  | [] => []
  | version :: rest =>
      if decide (cvVersion version ≠ chartVersion)
      then version :: filterVersions chartVersion rest
      else filterVersions chartVersion rest
  end.

(** What a whole chart list removes from the version list of chart [n]: one
    [filterVersions] pass per listed chart of that name. *)
Definition purge (n : string) (charts : list ChartInfo) (l : list ChartVersion) : list ChartVersion :=
  foldl (λ acc chart, if decide (Name chart = n) then filterVersions (Version chart) acc else acc) l charts.

Definition chartNames (charts : list ChartInfo) : list string := Name <$> charts.

(** ** Go's [strings] and [path/filepath] (Unix separator)

    Library code, written out from the documented behaviour of the Go
    standard library so that concrete paths can be evaluated. *)

Definition Separator : ascii := "/"%char.

(** [strings.Split(s, sep)] for a one-byte separator; [strings_Split "" sep = [""]]. *)
Fixpoint strings_Split (s : string) (sep : ascii) : list string :=
  match s with
  | EmptyString => [""]
  | String c rest =>
      if Ascii.eqb c sep then "" :: strings_Split rest sep
      else match strings_Split rest sep with
           | [] => [String c ""]
           | x :: xs => String c x :: xs
           end
  end.

(** [strings.Join(elems, sep)] *)
Fixpoint strings_Join (elems : list string) (sep : string) : string :=
  match elems with
  | [] => ""
  | [e] => e
  | e :: rest => e +:+ sep +:+ strings_Join rest sep
  end.

(** [strings.Contains(s, substr)] *)
Fixpoint strings_Contains (s substr : string) : bool :=
  if String.prefix substr s then true
  else match s with
       | EmptyString => false
       | String _ rest => strings_Contains rest substr
       end.

(** [asciiSpace]: the white space of ASCII. *)
Definition isSpace (c : ascii) : bool :=
  let n := nat_of_ascii c in
  (n =? 32) || ((9 <=? n) && (n <=? 13)).

(** [unicode.IsSpace] beyond ASCII, read off the UTF-8 encoding of the rune.
    U+0085 and U+00A0 take two bytes; U+1680, U+2000 to U+200A, U+2028,
    U+2029, U+202F, U+205F and U+3000 take three. *)
Definition isSpace2 (c1 c2 : ascii) : bool :=
  let n1 := nat_of_ascii c1 in
  let n2 := nat_of_ascii c2 in
  (n1 =? 194) && ((n2 =? 133) || (n2 =? 160)).

Definition isSpace3 (c1 c2 c3 : ascii) : bool :=
  let n1 := nat_of_ascii c1 in
  let n2 := nat_of_ascii c2 in
  let n3 := nat_of_ascii c3 in
  ((n1 =? 225) && (n2 =? 154) && (n3 =? 128))
  || ((n1 =? 226) && (n2 =? 128)
      && (((128 <=? n3) && (n3 <=? 138)) || (n3 =? 168) || (n3 =? 169) || (n3 =? 175)))
  || ((n1 =? 226) && (n2 =? 129) && (n3 =? 159))
  || ((n1 =? 227) && (n2 =? 128) && (n3 =? 128)).

(** [strings.TrimLeftFunc(s, unicode.IsSpace)] on the bytes of the string:
    white space runes are dropped from the front; a byte sequence that is
    not the encoding of a white space rune stops the trimming. *)
Fixpoint trimLeft (s : list ascii) : list ascii :=
  match s with
  | [] => []
  | c1 :: r1 =>
      if isSpace c1 then trimLeft r1
      else match r1 with
           | c2 :: r2 =>
               if isSpace2 c1 c2 then trimLeft r2
               else match r2 with
                    | c3 :: r3 => if isSpace3 c1 c2 c3 then trimLeft r3 else s
                    | [] => s
                    end
           | [] => s
           end
  end.

(** [strings.TrimRightFunc(s, unicode.IsSpace)], on the reversed bytes: the
    last rune is decoded from the end of the string. *)
Fixpoint trimRightRev (s : list ascii) : list ascii :=
  match s with
  | [] => []
  | c1 :: r1 =>
      if isSpace c1 then trimRightRev r1
      else match r1 with
           | c2 :: r2 =>
               if isSpace2 c2 c1 then trimRightRev r2
               else match r2 with
                    | c3 :: r3 => if isSpace3 c3 c2 c1 then trimRightRev r3 else s
                    | [] => s
                    end
           | [] => s
           end
  end.

(** [strings.TrimSpace]: leading and trailing white space, as Unicode
    defines it, is removed. *)
Definition strings_TrimSpace (s : string) : string :=
  string_of_list_ascii (rev (trimRightRev (rev (trimLeft (list_ascii_of_string s))))).

(** The element loop of [filepath.Clean]: empty and [.] elements are
    dropped, [..] removes the element before it when there is one to
    remove, is kept in a relative path and dropped in a rooted one. [out]
    holds the elements written so far, last one first. *)
Fixpoint cleanElems (rooted : bool) (elems : list string) (out : list string) : list string :=
  match elems with
  | [] => rev out
  | e :: rest =>
      if decide (e = "") then cleanElems rooted rest out
      else if decide (e = ".") then cleanElems rooted rest out
      else if decide (e = "..") then
        match out with
        | top :: out' =>
            if decide (top = "..")
            then cleanElems rooted rest (if rooted then out else ".." :: out)
            else cleanElems rooted rest out'
        | [] => cleanElems rooted rest (if rooted then [] else [".."])
        end
      else cleanElems rooted rest (e :: out)
  end.

(** [filepath.Clean] *)
Definition filepath_Clean (path : string) : string :=
  match path with
  | EmptyString => "."
  | String c _ =>
      let rooted := Ascii.eqb c Separator in
      let body := strings_Join (cleanElems rooted (strings_Split path Separator) []) "/" in
      if rooted then "/" +:+ body
      else if decide (body = "") then "." else body
  end.

(** [filepath.Join]: leading empty elements are ignored, the rest is joined
    with the separator and cleaned. *)
Fixpoint filepath_Join (elem : list string) : string :=
  match elem with
  | [] => ""
  | e :: rest => if decide (e = "") then filepath_Join rest else filepath_Clean (strings_Join elem "/")
  end.

(** [fmt] verbs used by the log lines: [%d] and [%v] of a string slice. *)
Definition fmt_d (n : nat) : string := pretty n.
Definition fmt_v (l : list string) : string := "[" +:+ strings_Join l " " +:+ "]".

(** ** Go's [regexp]

    The regular-expression engine is a library; the code is embedded over
    any engine with this interface. *)
Record RegexpEngine := {
  Regexp : Type;
  Compile : string → result Regexp;
  MatchString : Regexp → string → bool
}.

(** A model of the engine for a fragment of the RE2 syntax on ASCII text:
    literals, escaped punctuation, [.], [^], [$], [*], [+], [?], [|] and
    groups, with Go's leftmost unanchored [MatchString].  A pattern outside
    the fragment (classes, counted or lazy repetition, flags, [\d] and the
    like) is answered with [Err]; nothing is claimed about such patterns. *)
Module RE2Fragment.

Inductive re : Type :=
| Fail
| Eps
| Lit (c : ascii)
| AnyNotNL
| AnyChar
| Bol
| Eol
| Seq (r s : re)
| Alt (r s : re)
| Star (r : re).

(** Does [r] match the empty string at a position that is at the beginning
    ([bol]) and/or the end ([eol]) of the text? *)
Fixpoint nullable (bol eol : bool) (r : re) : bool :=
  match r with
  | Fail | Lit _ | AnyNotNL | AnyChar => false
  | Eps | Star _ => true
  | Bol => bol
  | Eol => eol
  | Seq r s => nullable bol eol r && nullable bol eol s
  | Alt r s => nullable bol eol r || nullable bol eol s
  end.

(** Brzozowski derivative by the character [c] read at a position that is
    ([bol]) or is not the beginning of the text. *)
Fixpoint deriv (bol : bool) (c : ascii) (r : re) : re :=
  match r with
  | Fail | Eps | Bol | Eol => Fail
  | Lit c' => if Ascii.eqb c c' then Eps else Fail
  | AnyNotNL => if Ascii.eqb c "010"%char then Fail else Eps
  | AnyChar => Eps
  | Seq r s =>
      Alt (Seq (deriv bol c r) s) (if nullable bol false r then deriv bol c s else Fail)
  | Alt r s => Alt (deriv bol c r) (deriv bol c s)
  | Star r => Seq (deriv bol c r) (Star r)
  end.

Fixpoint run (bol : bool) (s : list ascii) (r : re) : bool :=
  match s with
  | [] => nullable bol true r
  | c :: rest => run false rest (deriv bol c r)
  end.

(** [MatchString] reports whether the text contains any match. *)
Definition matchString (r : re) (s : string) : bool :=
  run true (list_ascii_of_string s) (Seq (Star AnyChar) (Seq r (Star AnyChar))).

Definition concat (items : list re) : re := foldl (λ acc r, Seq r acc) Eps items.

Definition finish (alts : list re) (cur : list re) : re :=
  foldr Alt (concat cur) alts.

Definition isalnum (c : ascii) : bool :=
  let n := nat_of_ascii c in
  ((48 <=? n) && (n <=? 57)) || ((65 <=? n) && (n <=? 90)) || ((97 <=? n) && (n <=? 122)).

(** The parser keeps, like the library's, a stack of open groups; [alts]
    are the finished alternatives of the current group, [cur] the items of
    the alternative being read (last one first) and [rep] tells whether
    the last item already carries a repetition operator. *)
Fixpoint parse (s : list ascii) (stack : list (list re * list re))
         (alts cur : list re) (rep : bool) : result re :=
  match s with
  | [] =>
      match stack with
      | [] => Ok (finish alts cur)
      | _ :: _ => Err "missing closing )"
      end
  | c :: rest =>
      if Ascii.eqb c "("%char then
        match rest with
        | "?"%char :: _ => Err "outside the modelled fragment"
        | _ => parse rest ((alts, cur) :: stack) [] [] false
        end
      else if Ascii.eqb c ")"%char then
        match stack with
        | [] => Err "unexpected )"
        | (alts0, cur0) :: stack' => parse rest stack' alts0 (finish alts cur :: cur0) false
        end
      else if Ascii.eqb c "|"%char then parse rest stack (alts ++ [concat cur]) [] false
      else if Ascii.eqb c "*"%char || Ascii.eqb c "+"%char || Ascii.eqb c "?"%char then
        match cur with
        | [] => Err "missing argument to repetition operator"
        | x :: xs =>
            if rep then Err "outside the modelled fragment"
            else
              let x' := if Ascii.eqb c "*"%char then Star x
                        else if Ascii.eqb c "+"%char then Seq x (Star x)
                        else Alt x Eps in
              parse rest stack alts (x' :: xs) true
        end
      else if Ascii.eqb c "\"%char then
        match rest with
        | [] => Err "trailing backslash at end of expression"
        | e :: rest' =>
            if (nat_of_ascii e <? 128) && negb (isalnum e)
            then parse rest' stack alts (Lit e :: cur) false
            else Err "outside the modelled fragment"
        end
      else if Ascii.eqb c "["%char || Ascii.eqb c "{"%char || (128 <=? nat_of_ascii c)
      then Err "outside the modelled fragment"
      else
        let atom := if Ascii.eqb c "."%char then AnyNotNL
                    else if Ascii.eqb c "^"%char then Bol
                    else if Ascii.eqb c "$"%char then Eol
                    else Lit c in
        parse rest stack alts (atom :: cur) false
  end.

Definition compile (pattern : string) : result re :=
  match parse (list_ascii_of_string pattern) [] [] [] false with
  | Ok r => Ok r
  | Err e => Err ("error parsing regexp: " +:+ e)
  end.

Definition engine : RegexpEngine :=
  {| Regexp := re; Compile := compile; MatchString := matchString |}.

End RE2Fragment.

(** [VersionMatchesPattern] of chart.go and [versionMatchesPattern] of
    release_manager.go: the same function, receiver unused. *)
Definition VersionMatchesPattern (R : RegexpEngine) (version pattern : string) : result bool :=
  match Compile R pattern with
  | Err e => Err ("invalid regex pattern '" +:+ pattern +:+ "': " +:+ e)
  | Ok regex => Ok (MatchString R regex version)
  end.

(** First loop of [GetChangedCharts] / [getChangedCharts]: the map of
    candidate chart directories. *)
Definition addChartDir (ChartsDir : string) (chartDirs : gmap string bool) (filePath : string)
  : gmap string bool :=
  match strings_Split (filepath_Clean filePath) Separator with
  | p0 :: p1 :: _ =>
      if decide (p0 = ChartsDir)
      then <[filepath_Join [ChartsDir; p1] := true]> chartDirs
      else chartDirs
  | _ => chartDirs
  end.

Definition chartDirsOf (ChartsDir : string) (changedFiles : list string) : gmap string bool :=
  foldl (addChartDir ChartsDir) ∅ changedFiles.

(** ** The outside world

    Everything the tool does outside its own memory is an [Event]: a git
    invocation, a call of the hosting API, a file-system access, terminal
    I/O, a log line. *)

Record Release := { relID : Z; relName : string; relTagName : string }.

Inductive StatResult : Type :=
| StatOk
| StatNotExist
| StatErr (e : error).

Inductive Event : Type :=
| EvGit (dir : string) (args : list string)
| EvStat (name : string)
| EvReadFile (name : string)
| EvWriteFile (name : string) (data : string)
| EvNow
| EvListReleases (page : Z)
| EvGetReleaseByTag (tag : string)
| EvNewChartReleaseManager (repository : string)
| EvCheckAuthentication
| EvGetAllReleases
| EvDeleteRelease (id : Z) (name : string)
| EvDeleteTag (tag : string)
| EvDeleteReleaseByTag (tag : string)
| EvPrint (s : string)
| EvScanln
| EvLog (msg : string) (keysAndValues : list string).

Definition History := list Event.

(** The answers of the world.  Each one may depend on the whole history of
    the run, so that no assumption is made on how git, the API or the file
    system evolve.  The fields [w_newChartReleaseManager] to
    [w_deleteReleaseByTag] stand for the release manager of package main,
    whose source file is not part of the repository snapshot; [w_rangeKeys]
    is the order in which a [for ... range] visits the keys of a map. *)
Record World := {
  w_git : History → string → list string → result string;
  w_stat : History → string → StatResult;
  w_readFile : History → string → result string;
  w_writeFile : History → string → string → result unit;
  w_now : History → string;
  w_listReleases : History → Z → result (list Release * Z);
  w_getReleaseByTag : History → string → result Release;
  w_newChartReleaseManager : History → string → result unit;
  w_checkAuthentication : History → bool;
  w_getAllReleases : History → result (list Release);
  w_deleteRelease : History → Z → string → result unit;
  w_deleteTag : History → string → result unit;
  w_deleteReleaseByTag : History → string → result unit;
  w_scanln : History → string;
  w_rangeKeys : History → gmap string bool → list string
}.

(** Go visits every key of a map once, in an unspecified order. *)
Definition WorldOK (W : World) : Prop :=
  ∀ h (m : gmap string bool), w_rangeKeys W h m ≡ₚ (map_to_list m).*1.

(** The YAML library, as pure functions. *)
Record Yaml := {
  UnmarshalChart : string → result ChartMetadata;
  UnmarshalIndex : string → result IndexFile;
  MarshalIndex : IndexFile → result string
}.

(** A computation reads the history so far and returns a value together
    with the events it performed. *)
Definition M (A : Type) : Type := History → A * list Event.

#[global] Instance M_ret : MRet M := λ A a _, (a, []).

#[global] Instance M_bind : MBind M := λ A B k m h,
  let '(a, t1) := m h in
  let '(b, t2) := k a (h ++ t1) in
  (b, t1 ++ t2).

(** Perform [e]; the world answers from the history before it. *)
Definition call {A} (e : Event) (answer : History → A) : M A :=
  λ h, (answer h, [e]).

(** Ask the world something that leaves no trace. *)
Definition ask {A} (answer : History → A) : M A :=
  λ h, (answer h, []).

Fixpoint forEach {A} (f : A → M unit) (l : list A) : M unit :=
  match l with
  | [] => mret tt
  | x :: rest => f x ;; forEach f rest
  end.

(** Events that delete or publish something: release and tag deletions,
    file writes, and the git commands that record or publish a change. *)
Definition destructive (e : Event) : bool :=
  match e with
  | EvDeleteRelease _ _ | EvDeleteTag _ | EvDeleteReleaseByTag _ | EvWriteFile _ _ => true
  | EvGit _ (cmd :: _) =>
      bool_decide (cmd = "add") || bool_decide (cmd = "commit") || bool_decide (cmd = "push")
  | _ => false
  end.

Definition writesFile (name : string) (e : Event) : bool :=
  match e with
  | EvWriteFile n _ => bool_decide (n = name)
  | _ => false
  end.

Definition isCommit (e : Event) : bool :=
  match e with
  | EvGit _ (cmd :: _) => bool_decide (cmd = "commit")
  | _ => false
  end.

(** ** The version-removal loops *)

Module Main.

(** Body of the loop of [CleanMultipleChartIndexes] (index.go).  The state
    is the index document and [removedCharts]; the third component is what
    the iteration logs. *)
Definition removeChartVersion (chart : ChartInfo) (st : IndexFile * list string)
  : IndexFile * list string * list string :=
  let '(indexFile, removedCharts) := st in
  let chartName := Name chart in
  let chartVersion := Version chart in
  match Entries indexFile !! chartName with
  | Some chartVersions =>
      let filteredVersions := filterVersions chartVersion chartVersions in
      if decide (length filteredVersions ≠ length chartVersions) then
        let indexFile1 := setEntries indexFile (<[chartName := filteredVersions]> (Entries indexFile)) in
        let removedCharts1 := removedCharts ++ [(chartName +:+ " v" +:+ chartVersion)] in
        match Entries indexFile1 !! chartName with
        | Some [] | None =>
            (setEntries indexFile1 (delete chartName (Entries indexFile1)), removedCharts1,
             [("Removed all versions of " +:+ chartName +:+ ", deleted chart entry")])
        | Some (_ :: _) => (indexFile1, removedCharts1, [])
        end
      else
        (indexFile, removedCharts,
         [("Chart " +:+ chartName +:+ " version " +:+ chartVersion +:+ " not found in index.yaml")])
  | None =>
      (indexFile, removedCharts, [("Chart " +:+ chartName +:+ " not found in index.yaml")])
  end.

(** [for _, chart := range charts { ... }] *)
Fixpoint removeLoop (charts : list ChartInfo) (st : IndexFile * list string) (logs : list string)
  : IndexFile * list string * list string :=
  match charts with
  | [] => (st, logs)
  | chart :: rest =>
      let '(st1, out) := removeChartVersion chart st in
      removeLoop rest st1 (logs ++ out)
  end.

(** The document transformation alone. *)
Definition removeVersions (charts : list ChartInfo) (indexFile : IndexFile) : IndexFile :=
  (removeLoop charts (indexFile, []) []).1.1.

Section WithWorld.

Context (W : World) (Y : Yaml) (R : RegexpEngine).

(** [log.Printf] and [log.Println] *)
Definition log (line : string) : M unit := call (EvLog line []) (λ _, tt).

(** *** chart.go *)

Record ChartManager := { ChartsDir : string }.

Definition NewChartManager (chartsDir : string) : ChartManager := {| ChartsDir := chartsDir |}.

Definition IsHelmChart (cm : ChartManager) (chartPath : string) : M bool :=
  let chartFile := filepath_Join [chartPath; "Chart.yaml"] in
  st ← call (EvStat chartFile) (λ h, w_stat W h chartFile);
  mret (match st with StatOk => true | _ => false end).

Definition GetChartInfo (cm : ChartManager) (chartPath : string) : M (result ChartInfo) :=
  let chartFile := filepath_Join [chartPath; "Chart.yaml"] in
  data ← call (EvReadFile chartFile) (λ h, w_readFile W h chartFile);
  match data with
  | Err e => mret (Err ("failed to read chart file " +:+ chartFile +:+ ": " +:+ e))
  | Ok data =>
      match UnmarshalChart Y data with
      | Err e => mret (Err ("failed to parse chart file " +:+ chartFile +:+ ": " +:+ e))
      | Ok metadata =>
          mret (Ok {| Path := chartPath; Name := mdName metadata; Version := mdVersion metadata |})
      end
  end.

(** Second loop of [GetChangedCharts], over the chart directories in the
    order [dirs] in which the map is visited. *)
Fixpoint scanCharts (cm : ChartManager) (versionPattern : string) (dirs : list string)
         (changedCharts : list ChartInfo) : M (result (list ChartInfo)) :=
  match dirs with
  | [] => mret (Ok changedCharts)
  | chartDir :: rest =>
      isChart ← IsHelmChart cm chartDir;
      if negb isChart then
        log (chartDir +:+ " is not a Helm chart. Skipping.") ;;
        scanCharts cm versionPattern rest changedCharts
      else
        info ← GetChartInfo cm chartDir;
        match info with
        | Err e =>
            log ("Error getting chart info for " +:+ chartDir +:+ ": " +:+ e) ;;
            scanCharts cm versionPattern rest changedCharts
        | Ok chartInfo =>
            match VersionMatchesPattern R (Version chartInfo) versionPattern with
            | Err e => mret (Err ("error checking version pattern: " +:+ e))
            | Ok false =>
                mret (Err ("chart version " +:+ Version chartInfo
                           +:+ " does not match supported pattern for deletion: "
                           +:+ versionPattern))
            | Ok true =>
                log ("Found Helm chart: " +:+ chartDir +:+ " with version "
                     +:+ Version chartInfo) ;;
                scanCharts cm versionPattern rest (changedCharts ++ [chartInfo])
            end
        end
  end.

Definition GetChangedCharts (cm : ChartManager) (changedFiles : list string)
           (versionPattern : string) : M (result (list ChartInfo)) :=
  let chartDirs := chartDirsOf (ChartsDir cm) changedFiles in
  dirs ← ask (λ h, w_rangeKeys W h chartDirs);
  scanCharts cm versionPattern dirs [].

(** *** git.go *)

Record Git := { RepoPath : string }.

Definition NewGit (repoPath : string) : Git := {| RepoPath := repoPath |}.

Definition runGitCommand (g : Git) (args : list string) : M (result string) :=
  out ← call (EvGit (RepoPath g) args) (λ h, w_git W h (RepoPath g) args);
  mret (match out with
        | Err e => Err ("git command failed: " +:+ e)
        | Ok output => Ok (strings_TrimSpace output)
        end).

Definition GetCurrentBranch (g : Git) : M (result string) :=
  runGitCommand g ["rev-parse"; "--abbrev-ref"; "HEAD"].

Definition FetchTags (g : Git) : M (result unit) :=
  r ← runGitCommand g ["fetch"; "--tags"];
  match r with
  | Err e => log ("Failed to fetch tags from remote: " +:+ e) ;; mret (Err e)
  | Ok _ => mret (Ok tt)
  end.

Definition GetLatestTag (g : Git) (baseBranch : string) : M (result string) :=
  FetchTags g ;;
  cb ← GetCurrentBranch g;
  match cb with
  | Err e => mret (Err ("failed to get current branch: " +:+ e))
  | Ok currentBranch =>
      lt ← runGitCommand g ["describe"; "--tags"; "--abbrev=0"; "HEAD~"];
      match lt with
      | Ok latestTag => mret (Ok latestTag)
      | Err _ =>
          if decide (currentBranch = baseBranch)
          then runGitCommand g ["rev-list"; "--max-parents=0"; "--first-parent"; "HEAD"]
          else runGitCommand g ["merge-base"; "HEAD"; baseBranch]
      end
  end.

Definition GetChangedFiles (g : Git) (sinceCommit pathFilter : string) : M (result (list string)) :=
  let args := ["diff"; "--find-renames"; "--name-only"; sinceCommit] in
  let args := if decide (pathFilter ≠ "") then args ++ ["--"; pathFilter] else args in
  r ← runGitCommand g args;
  match r with
  | Err e => mret (Err ("failed to get changed files: " +:+ e))
  | Ok output =>
      if decide (output = "") then mret (Ok [])
      else mret (Ok (strings_Split output "010"%char))
  end.

Definition gitError (r : result string) : result unit :=
  match r with Err e => Err e | Ok _ => Ok tt end.

Definition CheckoutBranch (g : Git) (branch : string) : M (result unit) :=
  r ← runGitCommand g ["checkout"; branch];
  mret (gitError r).

Definition BranchExists (g : Git) (branch : string) : M bool :=
  r ← runGitCommand g ["ls-remote"; "--heads"; "origin"; branch];
  mret (match r with Err _ => false | Ok output => strings_Contains output branch end).

Definition FetchBranch (g : Git) (branch : string) : M (result unit) :=
  r ← runGitCommand g ["fetch"; "origin"; branch];
  mret (gitError r).

Definition PullBranch (g : Git) (branch : string) : M (result unit) :=
  r ← runGitCommand g ["pull"; "origin"; branch];
  mret (gitError r).

Definition HasChanges (g : Git) (filePath : string) : M bool :=
  r ← runGitCommand g ["diff"; "--quiet"; filePath];
  mret (is_err r).

Definition CommitAndPush (g : Git) (filePath message branch : string) : M (result unit) :=
  a ← runGitCommand g ["add"; filePath];
  match a with
  | Err e => mret (Err ("failed to add file: " +:+ e))
  | Ok _ =>
      c ← runGitCommand g ["commit"; "-m"; message];
      match c with
      | Err e => mret (Err ("failed to commit: " +:+ e))
      | Ok _ =>
          p ← runGitCommand g ["push"; "origin"; branch];
          match p with
          | Err e => mret (Err ("failed to push: " +:+ e))
          | Ok _ => mret (Ok tt)
          end
      end
  end.

(** *** index.go *)

Record ChartIndexManager := {
  GitOps : Git;
  PagesBranch : string;
  OriginalBranch : string
}.

Definition NewChartIndexManager (git : Git) (pagesBranch : string) : ChartIndexManager :=
  {| GitOps := git; PagesBranch := pagesBranch; OriginalBranch := "" |}.

Definition RestoreOriginalBranch (cim : ChartIndexManager) : M (result unit) :=
  if decide (OriginalBranch cim ≠ "")
  then CheckoutBranch (GitOps cim) (OriginalBranch cim)
  else mret (Ok tt).

(** [PreparePagesBranch] stores the current branch in the manager; the
    updated manager is returned next to the error. *)
Definition PreparePagesBranch (cim : ChartIndexManager) : M (ChartIndexManager * result unit) :=
  cb ← GetCurrentBranch (GitOps cim);
  match cb with
  | Err e => mret (cim, Err ("failed to get current branch: " +:+ e))
  | Ok currentBranch =>
      let cim := {| GitOps := GitOps cim; PagesBranch := PagesBranch cim;
                    OriginalBranch := currentBranch |} in
      ex ← BranchExists (GitOps cim) (PagesBranch cim);
      if negb ex then
        log (PagesBranch cim +:+ " branch does not exist. Skipping index cleanup.") ;;
        mret (cim, Err "pages branch does not exist")
      else
        f ← FetchBranch (GitOps cim) (PagesBranch cim);
        match f with
        | Err e => mret (cim, Err ("failed to fetch " +:+ PagesBranch cim +:+ " branch: " +:+ e))
        | Ok _ =>
            c ← CheckoutBranch (GitOps cim) (PagesBranch cim);
            match c with
            | Err e =>
                mret (cim, Err ("failed to checkout " +:+ PagesBranch cim +:+ " branch: " +:+ e))
            | Ok _ =>
                p ← PullBranch (GitOps cim) (PagesBranch cim);
                match p with
                | Err e => log ("Failed to pull latest changes from " +:+ PagesBranch cim
                                +:+ ": " +:+ e)
                | Ok _ => mret tt
                end ;;
                st ← call (EvStat "index.yaml") (λ h, w_stat W h "index.yaml");
                match st with
                | StatNotExist =>
                    log ("index.yaml not found in " +:+ PagesBranch cim
                         +:+ " branch. Skipping index cleanup.") ;;
                    RestoreOriginalBranch cim ;;
                    mret (cim, Err "index.yaml not found")
                | _ => mret (cim, Ok tt)
                end
            end
        end
  end.

Definition loadIndexFile (cim : ChartIndexManager) : M (result IndexFile) :=
  data ← call (EvReadFile "index.yaml") (λ h, w_readFile W h "index.yaml");
  match data with
  | Err e => mret (Err ("failed to read index.yaml: " +:+ e))
  | Ok data =>
      match UnmarshalIndex Y data with
      | Err e => mret (Err ("failed to parse index.yaml: " +:+ e))
      | Ok indexFile => mret (Ok indexFile)
      end
  end.

Definition writeIndexFile (cim : ChartIndexManager) (indexFile : IndexFile) : M (result unit) :=
  match MarshalIndex Y indexFile with
  | Err e => mret (Err ("failed to marshal index.yaml: " +:+ e))
  | Ok data =>
      w ← call (EvWriteFile "index.yaml" data) (λ h, w_writeFile W h "index.yaml" data);
      match w with
      | Err e => mret (Err ("failed to write index.yaml: " +:+ e))
      | Ok _ => mret (Ok tt)
      end
  end.

(** The tail shared by both cleaners of index.go: commit and push when git
    sees a change. *)
Definition commitIfChanged (cim : ChartIndexManager) (commitMsg : string) : M (result unit) :=
  changed ← HasChanges (GitOps cim) "index.yaml";
  if (changed : bool) then
    c ← CommitAndPush (GitOps cim) "index.yaml" commitMsg (PagesBranch cim);
    match c with
    | Err e => mret (Err ("failed to push index.yaml changes: " +:+ e))
    | Ok _ =>
        log ("Successfully pushed index.yaml changes to " +:+ PagesBranch cim +:+ " branch") ;;
        mret (Ok tt)
    end
  else
    log "No changes to commit in index.yaml" ;; mret (Ok tt).

Definition chartLabel (chart : ChartInfo) : string := Name chart +:+ " v" +:+ Version chart.

Definition CleanMultipleChartIndexes (cim : ChartIndexManager) (charts : list ChartInfo)
  : M (result unit) :=
  if decide (length charts = 0) then
    log "No charts provided for index cleanup" ;; mret (Ok tt)
  else
    log ("Cleaning up chart indexes for: " +:+ fmt_v (chartLabel <$> charts)) ;;
    '(cim, prepared) ← PreparePagesBranch cim;
    match prepared with
    | Err e => mret (Err e)
    | Ok _ =>
        res ← (loaded ← loadIndexFile cim;
               match loaded with
               | Err e => mret (Err ("failed to load index.yaml: " +:+ e))
               | Ok indexFile =>
                   let '(indexFile, removedCharts, lines) := removeLoop charts (indexFile, []) [] in
                   forEach log lines ;;
                   if decide (0 < length removedCharts) then
                     w ← writeIndexFile cim indexFile;
                     match w with
                     | Err e => mret (Err ("failed to write index.yaml: " +:+ e))
                     | Ok _ =>
                         log ("Removed from index.yaml: " +:+ fmt_v removedCharts) ;;
                         commitIfChanged cim
                           (match removedCharts with
                            | [one] => "Remove " +:+ one +:+ " from index"
                            | _ => "Remove " +:+ fmt_d (length removedCharts)
                                   +:+ " chart versions from index"
                            end)
                     end
                   else
                     log "No chart versions were removed from index.yaml" ;; mret (Ok tt)
               end);
        RestoreOriginalBranch cim ;;
        mret res
    end.

Definition CleanAllChartIndex (cim : ChartIndexManager) : M (result unit) :=
  log ("Cleaning up all chart index entries from " +:+ PagesBranch cim +:+ " branch...") ;;
  '(cim, prepared) ← PreparePagesBranch cim;
  match prepared with
  | Err e => mret (Err e)
  | Ok _ =>
      res ← (loaded ← loadIndexFile cim;
             match loaded with
             | Err e => mret (Err ("failed to load index.yaml: " +:+ e))
             | Ok indexFile =>
                 let indexFile := setEntries indexFile ∅ in
                 w ← writeIndexFile cim indexFile;
                 match w with
                 | Err e => mret (Err ("failed to write index.yaml: " +:+ e))
                 | Ok _ =>
                     log "Cleared all entries from index.yaml" ;;
                     commitIfChanged cim "Clear all chart entries from index"
                 end
             end);
      RestoreOriginalBranch cim ;;
      mret res
  end.

(** *** main.go *)

(** The command-line flags, global variables in the source. *)
Record Flags := {
  repository : string;
  chartDir : string;
  baseBranch : string;
  pagesBranch : string;
  versionPattern : string;
  force : bool;
  withTags : bool;
  cleanIndex : bool
}.

Definition confirmAction (prompt : string) : M bool :=
  call (EvPrint prompt) (λ _, tt) ;;
  response ← call EvScanln (λ h, w_scanln W h);
  mret (bool_decide (response = "y") || bool_decide (response = "Y")).

(** Body of the deletion loop of [deleteAllReleases]. *)
Definition deleteOneRelease (fl : Flags) (release : Release) : M unit :=
  d ← call (EvDeleteRelease (relID release) (relName release))
           (λ h, w_deleteRelease W h (relID release) (relName release));
  match d with
  | Err e => log ("Failed to delete release " +:+ relName release +:+ ": " +:+ e)
  | Ok _ => mret tt
  end ;;
  if withTags fl && bool_decide (relTagName release ≠ "") then
    t ← call (EvDeleteTag (relTagName release)) (λ h, w_deleteTag W h (relTagName release));
    match t with
    | Err e => log ("Failed to delete tag " +:+ relTagName release +:+ ": " +:+ e)
    | Ok _ => mret tt
    end
  else mret tt.

Definition deleteAllReleases (fl : Flags) : M (result unit) :=
  mgr ← call (EvNewChartReleaseManager (repository fl))
             (λ h, w_newChartReleaseManager W h (repository fl));
  match mgr with
  | Err e => mret (Err ("failed to create release manager: " +:+ e))
  | Ok _ =>
      auth ← call EvCheckAuthentication (λ h, w_checkAuthentication W h);
      if negb auth then
        mret (Err "not authenticated with GitHub. Please login using 'gh auth login' or set GH_TOKEN environment variable")
      else
        rels ← call EvGetAllReleases (λ h, w_getAllReleases W h);
        match rels with
        | Err e => mret (Err ("failed to get releases: " +:+ e))
        | Ok releases =>
            if decide (length releases = 0) then
              log ("No releases found in repository " +:+ repository fl) ;; mret (Ok tt)
            else
              (if withTags fl then log "Associated tags will also be deleted." else mret tt) ;;
              (if cleanIndex fl
               then log ("Chart index entries will also be cleaned up from "
                         +:+ pagesBranch fl +:+ " branch.")
               else mret tt) ;;
              confirmed ← (if negb (force fl)
                           then confirmAction "Are you sure you want to proceed? [y/N] "
                           else mret true);
              if negb confirmed then
                log "Operation cancelled." ;; mret (Ok tt)
              else
                forEach (deleteOneRelease fl) releases ;;
                (if cleanIndex fl then
                   c ← CleanAllChartIndex (NewChartIndexManager (NewGit ".") (pagesBranch fl));
                   match c with
                   | Err e => log ("Failed to clean chart index: " +:+ e)
                   | Ok _ => mret tt
                   end
                 else mret tt) ;;
                mret (Ok tt)
        end
  end.

(** Body of the deletion loop of [deleteSpecificReleases]. *)
Definition deleteChartRelease (chart : ChartInfo) : M unit :=
  let releaseName := Name chart +:+ "-" +:+ Version chart in
  log ("Deleting release and tags for " +:+ releaseName +:+ "...") ;;
  d ← call (EvDeleteReleaseByTag releaseName) (λ h, w_deleteReleaseByTag W h releaseName);
  match d with
  | Err e => log ("Failed to delete release by tag " +:+ releaseName +:+ ": " +:+ e)
  | Ok _ => mret tt
  end ;;
  t ← call (EvDeleteTag releaseName) (λ h, w_deleteTag W h releaseName);
  match t with
  | Err e => log ("Failed to delete tag " +:+ releaseName +:+ ": " +:+ e)
  | Ok _ => mret tt
  end ;;
  log ("Deleted release for " +:+ Name chart).

Definition deleteSpecificReleases (fl : Flags) : M (result unit) :=
  mgr ← call (EvNewChartReleaseManager (repository fl))
             (λ h, w_newChartReleaseManager W h (repository fl));
  match mgr with
  | Err e => mret (Err ("failed to create release manager: " +:+ e))
  | Ok _ =>
      auth ← call EvCheckAuthentication (λ h, w_checkAuthentication W h);
      if negb auth then
        mret (Err "not authenticated with GitHub. Please login using 'gh auth login' or set GH_TOKEN environment variable")
      else
        let git := NewGit "." in
        let chartManager := NewChartManager (chartDir fl) in
        let indexManager := NewChartIndexManager git (pagesBranch fl) in
        lt ← GetLatestTag git (baseBranch fl);
        match lt with
        | Err e => mret (Err ("failed to get latest tag: " +:+ e))
        | Ok latestTag =>
            log ("Discovering changes since " +:+ latestTag +:+ "...") ;;
            cf ← GetChangedFiles git latestTag (chartDir fl);
            match cf with
            | Err e => mret (Err ("failed to get changed files: " +:+ e))
            | Ok changedFiles =>
                cc ← GetChangedCharts chartManager changedFiles (versionPattern fl);
                match cc with
                | Err e => mret (Err ("failed to get changed charts: " +:+ e))
                | Ok changedCharts =>
                    if decide (length changedCharts = 0) then
                      log "No changes detected." ;; mret (Ok tt)
                    else
                      log ("The following charts have changed, and their releases will be deleted: "
                           +:+ fmt_v (Name <$> changedCharts)) ;;
                      forEach deleteChartRelease changedCharts ;;
                      (if decide (0 < length changedCharts) then
                         c ← CleanMultipleChartIndexes indexManager changedCharts;
                         match c with
                         | Err e => log ("Failed to clean chart indexes: " +:+ e)
                         | Ok _ => mret tt
                         end
                       else mret tt) ;;
                      mret (Ok tt)
                end
            end
        end
  end.

End WithWorld.

End Main.

Module Internal.

(** Body of the loop of [CleanEntriesVersions]; the second component is
    what the iteration logs (message, keys and values). *)
Definition removeChartVersion (chart : ChartInfo) (indexFile : IndexFile)
  : IndexFile * list (string * list string) :=
  match Entries indexFile !! Name chart with
  | None => (indexFile, [("No entries found for chart %s", [Name chart])])
  | Some existVersions =>
      let filteredVersions := filterVersions (Version chart) existVersions in
      if decide (length filteredVersions = 0)
      then (setEntries indexFile (delete (Name chart) (Entries indexFile)), [])
      else (setEntries indexFile (<[Name chart := filteredVersions]> (Entries indexFile)), [])
  end.

Fixpoint removeLoop (charts : list ChartInfo) (indexFile : IndexFile)
         (logs : list (string * list string)) : IndexFile * list (string * list string) :=
  match charts with
  | [] => (indexFile, logs)
  | chart :: rest =>
      let '(indexFile1, out) := removeChartVersion chart indexFile in
      removeLoop rest indexFile1 (logs ++ out)
  end.

Definition removeVersions (charts : list ChartInfo) (indexFile : IndexFile) : IndexFile :=
  (removeLoop charts indexFile []).1.

Definition indexYaml : string := "index.yaml".

Section WithWorld.

Context (W : World) (Y : Yaml) (R : RegexpEngine).

(** [logr]: [Info(msg, keysAndValues...)] and [Error(err, msg, keysAndValues...)];
    the message is not a format string. *)
Definition logInfo (msg : string) (keysAndValues : list string) : M unit :=
  call (EvLog msg keysAndValues) (λ _, tt).

Definition logError (err : error) (msg : string) (keysAndValues : list string) : M unit :=
  call (EvLog msg (err :: keysAndValues)) (λ _, tt).

(** The standard [log.Printf], which github.go also uses. *)
Definition log (line : string) : M unit := call (EvLog line []) (λ _, tt).

(** *** git.go *)

Definition runGitCommand (args : list string) : M (result string) :=
  logInfo "Running git command" ["args"; fmt_v args] ;;
  out ← call (EvGit "" args) (λ h, w_git W h "" args);
  match out with
  | Err e =>
      mret (Err ("git command failed. args: " +:+ fmt_v args +:+ ", error: " +:+ e))
  | Ok output =>
      let result := strings_TrimSpace output in
      logInfo "Git command output" ["args"; fmt_v args; "output"; result] ;;
      mret (Ok result)
  end.

Definition GetCurrentBranch : M (result string) :=
  runGitCommand ["rev-parse"; "--abbrev-ref"; "HEAD"].

Definition fetchTags : M (result unit) :=
  logInfo "Fetching tags from remote" [] ;;
  r ← runGitCommand ["fetch"; "--tags"];
  match r with
  | Err e => logError e "Failed to fetch tags from remote" [] ;; mret (Err e)
  | Ok _ => mret (Ok tt)
  end.

Definition getLatestTag (baseBranch : string) : M (result string) :=
  fetchTags ;;
  cb ← GetCurrentBranch;
  match cb with
  | Err e => mret (Err ("failed to get current branch: " +:+ e))
  | Ok currentBranch =>
      logInfo "Getting latest tag" ["currentBranch"; currentBranch; "baseBranch"; baseBranch] ;;
      lt ← runGitCommand ["describe"; "--tags"; "--abbrev=0"; "HEAD~"];
      match lt with
      | Ok latestTag => logInfo "Found latest tag" ["tag"; latestTag] ;; mret (Ok latestTag)
      | Err _ =>
          logInfo "No tags found, using commit-based comparison" [] ;;
          if decide (currentBranch = baseBranch) then
            logInfo "On base branch, using first commit" [] ;;
            runGitCommand ["rev-list"; "--max-parents=0"; "--first-parent"; "HEAD"]
          else
            logInfo "On feature branch, using merge base with base branch" [] ;;
            runGitCommand ["merge-base"; "HEAD"; baseBranch]
      end
  end.

Definition GetChangedFiles (baseBranch pathFilter : string) : M (result (list string)) :=
  since ← getLatestTag baseBranch;
  match since with
  | Err e => mret (Err ("failed to get latest tag: " +:+ e))
  | Ok sinceCommit =>
      if decide (sinceCommit = "") then
        mret (Err ("no commits found since base branch " +:+ baseBranch))
      else
        logInfo "Getting changed files" ["sinceCommit"; sinceCommit; "pathFilter"; pathFilter] ;;
        let args := ["diff"; "--find-renames"; "--name-only"; sinceCommit] in
        let args := if decide (pathFilter ≠ "") then args ++ ["--"; pathFilter] else args in
        r ← runGitCommand args;
        match r with
        | Err e => mret (Err ("failed to get changed files: " +:+ e))
        | Ok output =>
            if decide (output = "") then
              logInfo "No changed files found" [] ;; mret (Ok [])
            else
              let files := strings_Split output "010"%char in
              logInfo "Found changed files" ["count"; fmt_d (length files); "files"; fmt_v files] ;;
              mret (Ok files)
        end
  end.

Definition gitError (r : result string) : result unit :=
  match r with Err e => Err e | Ok _ => Ok tt end.

Definition CheckoutBranch (branch : string) : M (result unit) :=
  r ← runGitCommand ["checkout"; branch];
  mret (gitError r).

Definition BranchExists (branch : string) : M bool :=
  r ← runGitCommand ["ls-remote"; "--heads"; "origin"; branch];
  mret (match r with Err _ => false | Ok output => strings_Contains output branch end).

Definition FetchBranch (branch : string) : M (result unit) :=
  r ← runGitCommand ["fetch"; "origin"; branch];
  mret (gitError r).

Definition PullBranch (branch : string) : M (result unit) :=
  r ← runGitCommand ["pull"; "origin"; branch];
  mret (gitError r).

Definition HasChanges (filePath : string) : M bool :=
  r ← runGitCommand ["diff"; "--quiet"; filePath];
  mret (is_err r).

(** The push is commented out in the source. *)
Definition CommitAndPush (filePath message branch : string) : M (result unit) :=
  a ← runGitCommand ["add"; filePath];
  match a with
  | Err e => mret (Err ("failed to add file: " +:+ e))
  | Ok _ =>
      c ← runGitCommand ["commit"; "-m"; message];
      match c with
      | Err e => mret (Err ("failed to commit: " +:+ e))
      | Ok _ => mret (Ok tt)
      end
  end.

(** *** github.go *)

Record GHClient := { owner : string; repo : string }.

(** The pagination loop [for { ... }] of [GetAllReleases]; [None] when
    [fuel] pages were read and the API still announces a next page. *)
Fixpoint listAllReleases (gh : GHClient) (fuel : nat) (page : Z) (allReleases : list Release)
  : M (option (result (list Release))) :=
  match fuel with
  | O => mret None
  | S fuel =>
      r ← call (EvListReleases page) (λ h, w_listReleases W h page);
      match r with
      | Err e =>
          logError e "Failed to list releases" [] ;;
          mret (Some (Err ("failed to list releases: " +:+ e)))
      | Ok (releases, NextPage) =>
          let allReleases := allReleases ++ releases in
          if decide (NextPage = 0%Z) then
            logInfo "Found releases" ["count"; fmt_d (length allReleases)] ;;
            mret (Some (Ok allReleases))
          else listAllReleases gh fuel NextPage allReleases
      end
  end.

Definition GetAllReleases (gh : GHClient) (fuel : nat) : M (option (result (list Release))) :=
  logInfo "Getting all releases" ["owner"; owner gh; "repo"; repo gh] ;;
  listAllReleases gh fuel 0%Z [].

(** [DeleteRelease]: the API call is commented out in the source; the
    function logs and returns nil. *)
Definition DeleteRelease (gh : GHClient) (releaseID : Z) : M (result unit) :=
  logInfo "Deleting release" ["releaseID"; pretty releaseID] ;;
  logInfo "Successfully deleted release" ["releaseID"; pretty releaseID] ;;
  mret (Ok tt).

Definition isNotFoundError (err : error) : bool := strings_Contains err "404".

Definition DeleteReleaseByTag (gh : GHClient) (tag : string) : M (result unit) :=
  logInfo "Deleting release by tag" ["tag"; tag] ;;
  r ← call (EvGetReleaseByTag tag) (λ h, w_getReleaseByTag W h tag);
  match r with
  | Err e =>
      if isNotFoundError e then
        logInfo "Release not found, skipping deletion" ["tag"; tag] ;; mret (Ok tt)
      else mret (Err ("failed to get release by tag " +:+ tag +:+ ": " +:+ e))
  | Ok release => DeleteRelease gh (relID release)
  end.

(** [DeleteTag]: the API call is commented out as well. *)
Definition DeleteTag (gh : GHClient) (tag : string) : M (result unit) :=
  logInfo "Deleting tag" ["tag"; tag] ;;
  log ("Successfully deleted tag: " +:+ tag) ;;
  mret (Ok tt).

(** The loop of [DeleteAllReleases], over the deletion it calls for each
    release; [errors] collects the messages of the failed ones. *)
Fixpoint deleteEach (delete : Z → M (result unit)) (releases : list Release)
         (errors : list string) : M (list string) :=
  match releases with
  | [] => mret errors
  | release :: rest =>
      d ← delete (relID release);
      match d with
      | Err e =>
          log ("Failed to delete release " +:+ relTagName release +:+ ": " +:+ e) ;;
          deleteEach delete rest (errors ++ [e])
      | Ok _ => deleteEach delete rest errors
      end
  end.

(** What [DeleteAllReleases] does once the releases are listed. *)
Definition deleteListed (delete : Z → M (result unit)) (releases : list Release)
  : M (result unit) :=
  if decide (length releases = 0) then
    log "No releases found to delete" ;; mret (Ok tt)
  else
    errors ← deleteEach delete releases [];
    if decide (0 < length errors) then
      mret (Err ("failed to delete some releases: " +:+ strings_Join errors "; "))
    else
      log ("Successfully deleted " +:+ fmt_d (length releases) +:+ " releases") ;;
      mret (Ok tt).

Definition DeleteAllReleases (gh : GHClient) (fuel : nat) : M (option (result unit)) :=
  log ("Deleting all releases for " +:+ owner gh +:+ "/" +:+ repo gh) ;;
  listed ← GetAllReleases gh fuel;
  match listed with
  | None => mret None
  | Some (Err e) => mret (Some (Err ("failed to get releases: " +:+ e)))
  | Some (Ok releases) =>
      r ← deleteListed (DeleteRelease gh) releases;
      mret (Some r)
  end.

Definition DeleteReleaseAndTag (gh : GHClient) (tag : string) : M (result unit) :=
  log ("Deleting release and tag: " +:+ tag) ;;
  d ← DeleteReleaseByTag gh tag;
  match d with
  | Err e => mret (Err ("failed to delete release: " +:+ e))
  | Ok _ =>
      t ← DeleteTag gh tag;
      match t with
      | Err e => mret (Err ("failed to delete tag: " +:+ e))
      | Ok _ =>
          log ("Successfully deleted release and tag: " +:+ tag) ;;
          mret (Ok tt)
      end
  end.

(** *** The index manager *)

Record IndexManager := { PagesBranch : string; OriginalBranch : string }.

Definition NewIndexManager (pagesBranch : string) : IndexManager :=
  {| PagesBranch := pagesBranch; OriginalBranch := "" |}.

Definition restoreOriginalBranch (i : IndexManager) : M (result unit) :=
  if decide (OriginalBranch i ≠ "")
  then CheckoutBranch (OriginalBranch i)
  else mret (Ok tt).

Definition preparePagesBranch (i : IndexManager) : M (IndexManager * result unit) :=
  cb ← GetCurrentBranch;
  match cb with
  | Err e => mret (i, Err ("failed to get current branch: " +:+ e))
  | Ok currentBranch =>
      let i := {| PagesBranch := PagesBranch i; OriginalBranch := currentBranch |} in
      ex ← BranchExists (PagesBranch i);
      if negb ex then
        logInfo "%s branch does not exist. Skipping index cleanup." [PagesBranch i] ;;
        mret (i, Err "pages branch does not exist")
      else
        f ← FetchBranch (PagesBranch i);
        match f with
        | Err e => mret (i, Err ("failed to fetch " +:+ PagesBranch i +:+ " branch: " +:+ e))
        | Ok _ =>
            c ← CheckoutBranch (PagesBranch i);
            match c with
            | Err e =>
                mret (i, Err ("failed to checkout " +:+ PagesBranch i +:+ " branch: " +:+ e))
            | Ok _ =>
                p ← PullBranch (PagesBranch i);
                match p with
                | Err e => logInfo "Failed to pull latest changes from %s: %v" [PagesBranch i; e]
                | Ok _ => mret tt
                end ;;
                st ← call (EvStat indexYaml) (λ h, w_stat W h indexYaml);
                match st with
                | StatNotExist =>
                    logInfo "index.yaml not found in %s branch. Skipping index cleanup."
                            [PagesBranch i] ;;
                    restoreOriginalBranch i ;;
                    mret (i, Err "index.yaml not found")
                | _ => mret (i, Ok tt)
                end
            end
        end
  end.

Definition commitIndexChanges (i : IndexManager) (message : string) : M (result unit) :=
  changed ← HasChanges indexYaml;
  if negb changed then
    logInfo "No changes detected in %s, skipping commit" [indexYaml] ;; mret (Ok tt)
  else
    c ← CommitAndPush indexYaml message (PagesBranch i);
    match c with
    | Err e => mret (Err ("failed to commit and push changes: " +:+ e))
    | Ok _ =>
        logInfo "Successfully committed and pushed changes to %s branch" [PagesBranch i] ;;
        mret (Ok tt)
    end.

(** [loadIndexFile]: a missing file gives helm's fresh [repo.NewIndexFile()],
    otherwise [repo.LoadIndexFile] reads and parses the file. *)
Definition loadIndexFile (i : IndexManager) : M (result IndexFile) :=
  st ← call (EvStat indexYaml) (λ h, w_stat W h indexYaml);
  match st with
  | StatNotExist =>
      generated ← call EvNow (λ h, w_now W h);
      mret (Ok {| APIVersion := "v1"; Entries := ∅; Generated := generated |})
  | StatErr e => mret (Err ("failed to stat index.yaml: " +:+ e))
  | StatOk =>
      data ← call (EvReadFile indexYaml) (λ h, w_readFile W h indexYaml);
      match data with
      | Err e => mret (Err ("failed to load index.yaml: " +:+ e))
      | Ok data =>
          match UnmarshalIndex Y data with
          | Err e => mret (Err ("failed to load index.yaml: " +:+ e))
          | Ok indexFile => mret (Ok indexFile)
          end
      end
  end.

(** [writeIndexFile]: helm's [IndexFile.WriteFile] marshals and writes. *)
Definition writeIndexFile (i : IndexManager) (indexFile : IndexFile) : M (result unit) :=
  match MarshalIndex Y indexFile with
  | Err e => mret (Err ("failed to write index.yaml: " +:+ e))
  | Ok data =>
      w ← call (EvWriteFile indexYaml data) (λ h, w_writeFile W h indexYaml data);
      match w with
      | Err e => mret (Err ("failed to write index.yaml: " +:+ e))
      | Ok _ => logInfo "Successfully wrote index.yaml" [] ;; mret (Ok tt)
      end
  end.

Definition CleanAllEntries (i : IndexManager) : M (result unit) :=
  '(i, prepared) ← preparePagesBranch i;
  match prepared with
  | Err e => mret (Err ("failed to prepare pages branch: " +:+ e))
  | Ok _ =>
      res ← (loaded ← loadIndexFile i;
             match loaded with
             | Err e => mret (Err ("failed to load index file: " +:+ e))
             | Ok indexFile =>
                 let indexFile := setEntries indexFile ∅ in
                 w ← writeIndexFile i indexFile;
                 match w with
                 | Err e => mret (Err ("failed to write index file: " +:+ e))
                 | Ok _ =>
                     logInfo "All chart entries removed from index.yaml" [] ;;
                     c ← commitIndexChanges i "Cleaned all chart entries from index.yaml";
                     match c with
                     | Err e => mret (Err ("failed to commit changes: " +:+ e))
                     | Ok _ => mret (Ok tt)
                     end
                 end
             end);
      restoreOriginalBranch i ;;
      mret res
  end.

Definition CleanEntriesVersions (i : IndexManager) (charts : list ChartInfo) : M (result unit) :=
  '(i, prepared) ← preparePagesBranch i;
  match prepared with
  | Err e => mret (Err ("failed to prepare pages branch: " +:+ e))
  | Ok _ =>
      res ← (loaded ← loadIndexFile i;
             match loaded with
             | Err e => mret (Err ("failed to load index file: " +:+ e))
             | Ok indexFile =>
                 let '(indexFile, lines) := removeLoop charts indexFile [] in
                 forEach (λ line, logInfo line.1 line.2) lines ;;
                 w ← writeIndexFile i indexFile;
                 match w with
                 | Err e => mret (Err ("failed to write index file: " +:+ e))
                 | Ok _ =>
                     logInfo "Removed specified chart versions from index.yaml" [] ;;
                     c ← commitIndexChanges i "Removed specified chart versions from index.yaml";
                     match c with
                     | Err e => mret (Err ("failed to commit changes: " +:+ e))
                     | Ok _ => mret (Ok tt)
                     end
                 end
             end);
      restoreOriginalBranch i ;;
      mret res
  end.

(** *** release_manager.go *)

Record ReleaseManager := {
  index : IndexManager;
  ghc : GHClient;
  baseBranch : string;
  chartDir : string;
  versionPattern : string
}.

Definition isHelmChart (m : ReleaseManager) (chartPath : string) : M bool :=
  let chartFile := filepath_Join [chartPath; "Chart.yaml"] in
  st ← call (EvStat chartFile) (λ h, w_stat W h chartFile);
  mret (match st with StatOk => true | _ => false end).

Definition getChartInfo (m : ReleaseManager) (chartPath : string) : M (result ChartInfo) :=
  let chartFile := filepath_Join [chartPath; "Chart.yaml"] in
  data ← call (EvReadFile chartFile) (λ h, w_readFile W h chartFile);
  match data with
  | Err e => mret (Err ("failed to read chart file " +:+ chartFile +:+ ": " +:+ e))
  | Ok data =>
      match UnmarshalChart Y data with
      | Err e => mret (Err ("failed to parse chart file " +:+ chartFile +:+ ": " +:+ e))
      | Ok metadata =>
          mret (Ok {| Path := chartPath; Name := mdName metadata; Version := mdVersion metadata |})
      end
  end.

(** Second loop of [getChangedCharts]. *)
Fixpoint scanCharts (m : ReleaseManager) (versionPattern : string) (dirs : list string)
         (changedCharts : list ChartInfo) : M (result (list ChartInfo)) :=
  match dirs with
  | [] => mret (Ok changedCharts)
  | chartDir :: rest =>
      isChart ← isHelmChart m chartDir;
      if negb isChart then
        logInfo "%s is not a Helm chart. Skipping." [chartDir] ;;
        scanCharts m versionPattern rest changedCharts
      else
        info ← getChartInfo m chartDir;
        match info with
        | Err e =>
            logInfo "Error getting chart info for %s: %v" [chartDir; e] ;;
            scanCharts m versionPattern rest changedCharts
        | Ok chartInfo =>
            match VersionMatchesPattern R (Version chartInfo) versionPattern with
            | Err e => mret (Err ("error checking version pattern: " +:+ e))
            | Ok false =>
                mret (Err ("chart version " +:+ Version chartInfo
                           +:+ " does not match supported pattern for deletion: "
                           +:+ versionPattern))
            | Ok true =>
                logInfo "Found Helm chart: %s with version %s" [chartDir; Version chartInfo] ;;
                scanCharts m versionPattern rest (changedCharts ++ [chartInfo])
            end
        end
  end.

Definition getChangedCharts (m : ReleaseManager) (changedFiles : list string)
           (versionPattern : string) : M (result (list ChartInfo)) :=
  let chartDirs := chartDirsOf (chartDir m) changedFiles in
  dirs ← ask (λ h, w_rangeKeys W h chartDirs);
  scanCharts m versionPattern dirs [].

Definition ReleaseManager_DeleteAllReleases (m : ReleaseManager) (fuel : nat)
  : M (option (result unit)) :=
  logInfo "Deleting all releases..." [] ;;
  d ← DeleteAllReleases (ghc m) fuel;
  match d with
  | None => mret None
  | Some (Err e) => mret (Some (Err ("failed to delete all releases: " +:+ e)))
  | Some (Ok _) =>
      logInfo "Successfully deleted all releases" [] ;;
      c ← CleanAllEntries (index m);
      match c with
      | Err e => mret (Some (Err ("failed to clean chart index entries: " +:+ e)))
      | Ok _ =>
          logInfo "Successfully cleaned chart index entries" [] ;;
          mret (Some (Ok tt))
      end
  end.

(** Body of the deletion loop of [DeleteChangedCharts]. *)
Definition deleteChartRelease (m : ReleaseManager) (chart : ChartInfo) : M unit :=
  let releaseName := Name chart +:+ "-" +:+ Version chart in
  logInfo "Deleting release: %s" [releaseName] ;;
  d ← DeleteReleaseAndTag (ghc m) releaseName;
  match d with
  | Err e => logInfo "Failed to delete release %s: %v" [releaseName; e]
  | Ok _ => mret tt
  end.

Definition DeleteChangedCharts (m : ReleaseManager) : M (result unit) :=
  cf ← GetChangedFiles (baseBranch m) (chartDir m);
  match cf with
  | Err e => mret (Err ("failed to get changed files: " +:+ e))
  | Ok changedFiles =>
      if decide (length changedFiles = 0) then
        logInfo "No changed files found since the base branch" [] ;; mret (Ok tt)
      else
        logInfo "Found %d changed files" [fmt_d (length changedFiles)] ;;
        cc ← getChangedCharts m changedFiles (versionPattern m);
        match cc with
        | Err e => mret (Err ("failed to get changed charts: " +:+ e))
        | Ok changedCharts =>
            if decide (length changedCharts = 0) then
              logInfo "No charts found matching the version pattern" [] ;; mret (Ok tt)
            else
              logInfo "Found %d charts to delete" [fmt_d (length changedCharts)] ;;
              logInfo "Deleting releases for changed charts..." [] ;;
              forEach (deleteChartRelease m) changedCharts ;;
              logInfo "Successfully deleted all specified chart releases" [] ;;
              c ← CleanEntriesVersions (index m) changedCharts;
              match c with
              | Err e => mret (Err ("failed to clean chart index entries: " +:+ e))
              | Ok _ =>
                  logInfo "Successfully cleaned chart index entries" [] ;;
                  mret (Ok tt)
              end
        end
  end.

End WithWorld.

End Internal.

(** ** Reference descriptions of the removal loops *)

(** The binding of chart [n] after [CleanMultipleChartIndexes] ran over
    [charts], from its binding [o] before. *)
Definition keptMain (n : string) (charts : list ChartInfo) (o : option (list ChartVersion))
  : option (list ChartVersion) :=
  match o with
  | None => None
  | Some l =>
      let l' := purge n charts l in
      if decide (l' = l) then Some l else if decide (l' = []) then None else Some l'
  end.

(** The same for [CleanEntriesVersions]. *)
Definition keptInternal (n : string) (charts : list ChartInfo) (o : option (list ChartVersion))
  : option (list ChartVersion) :=
  match o with
  | None => None
  | Some l =>
      if decide (n ∈ chartNames charts)
      then (let l' := purge n charts l in if decide (l' = []) then None else Some l')
      else Some l
  end.

(** The data-model invariant of the index: no chart name is bound to an
    empty version list. *)
Definition no_empty_lists (f : IndexFile) : Prop :=
  ∀ k, Entries f !! k ≠ Some [].

(** ** Specifications of computations *)

(** Run from history [h], [m] returns a value and performs events related
    by [Q]. *)
Definition spec {A} (m : M A) (h : History) (Q : A → list Event → Prop) : Prop :=
  Q (m h).1 (m h).2.

(** ** Sample worlds, for evaluating the code on concrete runs *)

(** A world that does not change: git answers by its arguments alone,
    [files] gives the content of the files that exist, every API deletion
    answers [deletion], the user types [typed], and a map is visited in the
    order of [map_to_list]. *)
Definition sampleWorld (gitAnswer : list string → result string)
           (files : string → option string) (releases : list Release)
           (deletion : result unit) (typed : string) : World :=
  {| w_git := λ _ _ args, gitAnswer args;
     w_stat := λ _ name, match files name with Some _ => StatOk | None => StatNotExist end;
     w_readFile := λ _ name,
       match files name with Some data => Ok data | None => Err "no such file or directory" end;
     w_writeFile := λ _ _ _, Ok tt;
     w_now := λ _, "2025-01-01T00:00:00Z";
     w_listReleases := λ _ _, Ok (releases, 0%Z);
     w_getReleaseByTag := λ _ _, Err "404 Not Found";
     w_newChartReleaseManager := λ _ _, Ok tt;
     w_checkAuthentication := λ _, true;
     w_getAllReleases := λ _, Ok releases;
     w_deleteRelease := λ _ _ _, deletion;
     w_deleteTag := λ _ _, deletion;
     w_deleteReleaseByTag := λ _ _, deletion;
     w_scanln := λ _, typed;
     w_rangeKeys := λ _ m, (map_to_list m).*1 |}.

(** A YAML library for the samples: a chart manifest is written
    [name version], every index file parses to [D]. *)
Definition sampleYaml (D : IndexFile) : Yaml :=
  {| UnmarshalChart := λ data,
       match strings_Split data " "%char with
       | [n; v] => Ok {| mdName := n; mdVersion := v |}
       | _ => Err "yaml: unmarshal errors"
       end;
     UnmarshalIndex := λ _, Ok D;
     MarshalIndex := λ _, Ok "apiVersion: v1" |}.

(** git on a feature branch without tags. *)
Definition gitFeatureBranch (args : list string) : result string :=
  match args with
  | "rev-parse" :: _ => Ok "feature
"
  | "describe" :: _ => Err "exit status 128"
  | "merge-base" :: _ => Ok "4f2a9c0
"
  | "ls-remote" :: _ => Ok "8d3e5b1 refs/heads/gh-pages
"
  | "rev-list" :: _ => Ok "0a1b2c3
"
  | "diff" :: "--quiet" :: _ => Ok ""
  | "diff" :: _ => Ok "charts/foo/Chart.yaml
charts/foo/values.yaml
"
  | _ => Ok ""
  end.

(** ** Notions used by the statements about the chart scan *)

Definition chartFileOf (chartDir : string) : string := filepath_Join [chartDir; "Chart.yaml"].

(** The chart directory [d] holds a readable manifest whose version the
    pattern does not accept, throughout the run. *)
Definition mismatching (W : World) (Y : Yaml) (R : RegexpEngine) (pattern d : string) : Prop :=
  ∀ h, w_stat W h (chartFileOf d) = StatOk ∧
       ∃ data md, w_readFile W h (chartFileOf d) = Ok data ∧
                  UnmarshalChart Y data = Ok md ∧
                  VersionMatchesPattern R (mdVersion md) pattern ≠ Ok true.

(** An event that deletes or publishes nothing. *)
Definition quiet (e : Event) : Prop := destructive e = false.

(** In chart-releaser the API calls of [DeleteRelease] and [DeleteTag] are
    commented out: what is left of a deletion is the look-up of the release
    and the log lines that announce it. *)
Definition announcesDeletion (e : Event) : bool :=
  match e with
  | EvGetReleaseByTag _ => true
  | EvLog msg _ =>
      bool_decide (msg = "Deleting release") || bool_decide (msg = "Deleting tag")
      || bool_decide (msg = "Deleting release by tag") || bool_decide (msg = "Deleting release: %s")
      || String.prefix "Deleting release and tag: " msg
  | _ => false
  end.

Definition quietInternal (e : Event) : Prop :=
  destructive e = false ∧ announcesDeletion e = false.

(** The file list [GetChangedFiles] makes of the output of [git diff]. *)
Definition filesOfDiff (out : string) : list string :=
  let output := strings_TrimSpace out in
  if decide (output = "") then [] else strings_Split output "010"%char.

(** The checkout of the negative scenario: chart [foo] at version [1.0.0]. *)
Definition releaseFiles (name : string) : option string :=
  if decide (name = "charts/foo/Chart.yaml") then Some "foo 1.0.0"
  else if decide (name = "index.yaml") then Some "entries: {}"
  else None.

Definition sampleFlags : Main.Flags :=
  {| Main.repository := "zncdatadev/kubedoop-helm-charts";
     Main.chartDir := "charts";
     Main.baseBranch := "main";
     Main.pagesBranch := "gh-pages";
     Main.versionPattern := "^0\.0\.0-dev$";
     Main.force := true;
     Main.withTags := true;
     Main.cleanIndex := true |}.

(** A checkout in which the manifest of [foo] is there but is not YAML. *)
Definition brokenFiles (name : string) : option string :=
  if decide (name = "charts/foo/Chart.yaml") then Some "%%%" else None.

(** ** Notions used by the statements about the delete-all workflows *)

Definition isDeletionCall (e : Event) : bool :=
  match e with
  | EvDeleteRelease _ _ | EvDeleteTag _ => true
  | _ => false
  end.

(** The deletion calls [deleteAllReleases] owes to one release. *)
Definition deletionCallsOf (fl : Main.Flags) (release : Release) : list Event :=
  EvDeleteRelease (relID release) (relName release)
  :: (if Main.withTags fl && bool_decide (relTagName release ≠ "")
      then [EvDeleteTag (relTagName release)] else []).

(** A world in which every deletion fails. *)
Definition failingWorld : World :=
  sampleWorld gitFeatureBranch releaseFiles
    [{| relID := 1; relName := "foo-0.0.0-dev"; relTagName := "foo-0.0.0-dev" |};
     {| relID := 2; relName := "bar-0.0.0-dev"; relTagName := "bar-0.0.0-dev" |}]
    (Err "403 Forbidden") "y".

Definition deleteAllFlags : Main.Flags :=
  {| Main.repository := "zncdatadev/kubedoop-helm-charts";
     Main.chartDir := "charts";
     Main.baseBranch := "main";
     Main.pagesBranch := "gh-pages";
     Main.versionPattern := "^0\.0\.0-dev$";
     Main.force := false;
     Main.withTags := true;
     Main.cleanIndex := false |}.

(** ** Notions used by the statements about the index write-back *)

(** Every named chart is absent from the index or its named version is. *)
Definition nothingToRemove (charts : list ChartInfo) (D : IndexFile) : Prop :=
  ∀ c, c ∈ charts →
       match Entries D !! Name c with
       | None => True
       | Some l => ∀ e, e ∈ l → cvVersion e ≠ Version c
       end.

(** The event neither writes [index.yaml] nor commits. *)
Definition leavesIndexAlone (e : Event) : Prop :=
  writesFile "index.yaml" e = false ∧ isCommit e = false.

Definition noCommit (e : Event) : Prop := isCommit e = false.

Definition chart_baz : ChartInfo :=
  {| Path := "charts/baz"; Name := "baz"; Version := "0.0.0-dev" |}.

(** A small index: two versions of [foo], one of [bar]. *)
Definition foo_1 : ChartVersion := {| cvName := "foo"; cvVersion := "0.0.0-dev"; cvURLs := [] |}.
Definition foo_2 : ChartVersion := {| cvName := "foo"; cvVersion := "1.2.0"; cvURLs := [] |}.
Definition bar_1 : ChartVersion := {| cvName := "bar"; cvVersion := "0.3.0"; cvURLs := [] |}.
Definition chart_foo : ChartInfo := {| Path := "charts/foo"; Name := "foo"; Version := "0.0.0-dev" |}.

Definition sample_index : IndexFile :=
  {| APIVersion := "v1";
     Entries := {[ "foo" := [foo_1; foo_2]; "bar" := [bar_1] ]};
     Generated := "2025-01-01T00:00:00Z" |}.

Definition only_dev_index : IndexFile :=
  {| APIVersion := "v1";
     Entries := {[ "foo" := [foo_1]; "bar" := [bar_1] ]};
     Generated := "2025-01-01T00:00:00Z" |}.


(** git after a rewrite of [index.yaml] that changed its bytes:
    [git diff --quiet] exits with status 1. *)
Definition gitReformatted (args : list string) : result string :=
  match args with
  | "diff" :: "--quiet" :: _ => Err "exit status 1"
  | _ => gitFeatureBranch args
  end.

(** ** Notions used by further statements *)

(** The arguments of the git invocations of a run, in order. *)
Definition gitCalls (t : list Event) : list (list string) :=
  omap (λ e, match e with EvGit _ args => Some args | _ => None end) t.

(** The branches a run checks out, in order. *)
Definition checkouts (t : list Event) : list string :=
  omap (λ e, match e with
             | EvGit _ [cmd; branch] => if decide (cmd = "checkout") then Some branch else None
             | _ => None
             end) t.
Definition newline : ascii := "010"%char.



(** A checkout in which chart [foo] is at the development version. *)
Definition devFiles (name : string) : option string :=
  if decide (name = "charts/foo/Chart.yaml") then Some "foo 0.0.0-dev"
  else if decide (name = "index.yaml") then Some "entries: {}"
  else None.

(** [P] holds of the events that neither change nor publish anything nor
    touch a branch: log lines, file look-ups and reads, the clock. *)
Definition quietEvents (P : Event → Prop) : Prop :=
  (∀ m kv, P (EvLog m kv)) ∧ (∀ n, P (EvStat n)) ∧ (∀ n, P (EvReadFile n)) ∧ P EvNow.

(** The git commands with which the pages branch is prepared. *)
Definition branchCommands : list string :=
  ["rev-parse"; "ls-remote"; "fetch"; "checkout"; "pull"].

(** Every write of the run is a write of [index.yaml] with a content that
    satisfies [Φ]. *)
Definition writesOnly (Φ : string → Prop) (e : Event) : Prop :=
  ∀ n data, e = EvWriteFile n data → n = "index.yaml" ∧ Φ data.

(** [data] is the serialisation of [f D] for a document [D] that the run
    read from [index.yaml]. *)
Definition serialises (W : World) (Y : Yaml) (f : IndexFile → IndexFile) (data : string) : Prop :=
  ∃ h raw D, w_readFile W h "index.yaml" = Ok raw ∧ UnmarshalIndex Y raw = Ok D ∧
             MarshalIndex Y (f D) = Ok data.

(** In chart-releaser a missing [index.yaml] stands for helm's fresh index
    file. *)
Definition serialisesOrFresh (W : World) (Y : Yaml) (f : IndexFile → IndexFile) (data : string)
  : Prop :=
  serialises W Y f data ∨
  ∃ h, MarshalIndex Y (f {| APIVersion := "v1"; Entries := ∅; Generated := w_now W h |}) = Ok data.

(** The commit messages of [CleanMultipleChartIndexes]. *)
Definition removalMessage (charts : list ChartInfo) (msg : string) : Prop :=
  (∃ c, c ∈ charts ∧ msg = "Remove " +:+ Main.chartLabel c +:+ " from index") ∨
  (∃ k, 2 ≤ k ≤ length charts ∧ msg = "Remove " +:+ fmt_d k +:+ " chart versions from index").

Definition commitsOnly (Φ : string → Prop) (e : Event) : Prop :=
  ∀ dir args, e = EvGit dir ("commit" :: args) → ∃ msg, args = ["-m"; msg] ∧ Φ msg.

(** What [RestoreOriginalBranch] checks out. *)
Definition restored (orig : string) : list string :=
  if decide (orig ≠ "") then [orig] else [].

(** Requests that change something on the remote: deleting a release or a
    tag through the API, and pushing. *)
Definition remoteChange (e : Event) : bool :=
  match e with
  | EvDeleteRelease _ _ | EvDeleteTag _ | EvDeleteReleaseByTag _ => true
  | EvGit _ (cmd :: _) => bool_decide (cmd = "push")
  | _ => false
  end.

Definition localOnly (e : Event) : Prop := remoteChange e = false.


(** ** chart-releaser: the log sink (internal/logger.go) *)

Module Logger.

Definition LogLevelDebug : string := "DEBUG".
Definition LogLevelInfo : string := "INFO".
Definition LogLevelWarn : string := "WARN".
Definition LogLevelError : string := "ERROR".

(** The [switch] of [InitLogger]. *)
Definition verbosityOf (level : string) : Z :=
  if decide (level = LogLevelDebug) then 4
  else if decide (level = LogLevelInfo) then 2
  else if decide (level = LogLevelWarn) then 1
  else if decide (level = LogLevelError) then 0
  else 2.

Section WithValue.

(** The values logged ([interface{}] in the source) and their rendering
    by [%v]. *)
Context {V : Type} (render : V → string).

Record LogSink := { name : string; verbosity : Z; values : gmap string V }.

Definition NewLogSink (verbosity : Z) : LogSink :=
  {| name := ""; verbosity := verbosity; values := ∅ |}.

Definition Enabled (l : LogSink) (level : Z) : bool := bool_decide (level ≤ verbosity l)%Z.

(** [for i := 0; i < len(keysAndValues); i += 2 { if i+1 < len(keysAndValues) { ... } }]:
    the pairs the loop visits; a last key without a value is skipped. *)
Fixpoint pairsOf (keysAndValues : list V) : list (string * V) :=
  match keysAndValues with
  | k :: v :: rest => (render k, v) :: pairsOf rest
  | _ => []
  end.

Definition WithValues (l : LogSink) (keysAndValues : list V) : LogSink :=
  {| name := name l;
     verbosity := verbosity l;
     values := foldl (λ m kv, <[kv.1 := kv.2]> m) (values l) (pairsOf keysAndValues) |}.

Definition WithName (l : LogSink) (n : string) : LogSink :=
  {| name := if decide (name l ≠ "") then name l +:+ "." +:+ n else n;
     verbosity := verbosity l;
     values := values l |}.

(** [formatMessage]; [timestamp] is the formatted [time.Now()] and [keys]
    the order in which [range l.values] visits the keys of the map. *)
Definition formatMessage (l : LogSink) (timestamp : string) (keys : list string)
           (level msg : string) (keysAndValues : list V) : string :=
  let parts := [timestamp +:+ " " +:+ level] in
  let parts := if decide (name l ≠ "") then parts ++ [name l] else parts in
  let parts := parts ++ [msg] in
  let parts := parts ++ omap (λ k, (λ v, k +:+ "=" +:+ render v) <$> values l !! k) keys in
  let parts := parts ++ ((λ kv, kv.1 +:+ "=" +:+ render kv.2) <$> pairsOf keysAndValues) in
  strings_Join parts " ".

(** [Info]: the line written to standard error, if any. *)
Definition Info (l : LogSink) (timestamp : string) (keys : list string)
           (level : Z) (msg : string) (keysAndValues : list V) : option string :=
  if negb (Enabled l level) then None
  else
    let levelStr := if decide (0 < level)%Z then "V" +:+ pretty level else "INFO" in
    Some (formatMessage l timestamp keys levelStr msg keysAndValues).

(** [Error]: [errorKey] and [err] stand for the pair ["error", err] that is
    put in front. *)
Definition Error (l : LogSink) (timestamp : string) (keys : list string)
           (errorKey err : V) (msg : string) (keysAndValues : list V) : string :=
  let kvs := [errorKey; err] ++ keysAndValues in
  formatMessage l timestamp keys "ERROR" msg kvs.

(** The sink of the global [Logger] after [InitLogger]. *)
Definition InitLogger (level : string) : LogSink :=
  WithName (NewLogSink (verbosityOf level)) "chart-release-manager".

End WithValue.

End Logger.

(** ** chart-releaser: the command (cmd/main.go) *)

Module Cmd.

(** The flags of the [cleanup] command, global variables in the source. *)
Record Flags := {
  owner : string;
  repository : string;
  chartDir : string;
  baseBranch : string;
  pagesBranch : string;
  versionPattern : string;
  cleanAllIndex : bool
}.

Definition fmt_bool (b : bool) : string := if b then "true" else "false".

Section WithWorld.

Context (W : World) (Y : Yaml) (R : RegexpEngine).

(** [NewGHClient] of internal/github.go: it builds the client and never
    fails. *)
Definition NewGHClient (owner repo token : string) : M (result Internal.GHClient) :=
  Internal.logInfo "Creating GitHub client"
    ["owner"; owner; "repo"; repo; "hasToken"; fmt_bool (bool_decide (token ≠ ""))] ;;
  mret (Ok {| Internal.owner := owner; Internal.repo := repo |}).

(** [cleanupChartIndex]; [ghToken] is [os.Getenv("GITHUB_TOKEN")]. *)
Definition cleanupChartIndex (fl : Flags) (ghToken : string) : M (result unit) :=
  if decide (owner fl = "" ∨ repository fl = "") then
    mret (Err "repository owner and name must be specified")
  else
    Internal.logInfo "Starting cleanup process"
      ["owner"; owner fl; "repository"; repository fl; "chartDir"; chartDir fl;
       "pagesBranch"; pagesBranch fl; "baseBranch"; baseBranch fl;
       "versionPattern"; versionPattern fl; "cleanAllIndex"; fmt_bool (cleanAllIndex fl)] ;;
    if decide (ghToken = "") then
      mret (Err "GITHUB_TOKEN environment variable is not set")
    else
      c ← NewGHClient (owner fl) (repository fl) ghToken;
      match c with
      | Err e => mret (Err ("failed to create GitHub client: " +:+ e))
      | Ok ghc =>
          let index := Internal.NewIndexManager (pagesBranch fl) in
          let releaseManager :=
            {| Internal.index := index; Internal.ghc := ghc;
               Internal.baseBranch := baseBranch fl; Internal.chartDir := chartDir fl;
               Internal.versionPattern := versionPattern fl |} in
          if cleanAllIndex fl then
            Internal.logInfo "Cleaning all chart index entries..." [] ;;
            r ← Internal.CleanAllEntries W Y index;
            match r with
            | Err e => mret (Err ("failed to clean all chart index entries: " +:+ e))
            | Ok _ =>
                Internal.logInfo "Successfully cleaned all chart index entries" [] ;;
                mret (Ok tt)
            end
          else
            Internal.logInfo "Deleting changed chart releases..." [] ;;
            r ← Internal.DeleteChangedCharts W Y R releaseManager;
            match r with
            | Err e => mret (Err ("failed to delete changed chart releases: " +:+ e))
            | Ok _ =>
                Internal.logInfo "Successfully deleted changed chart releases" [] ;;
                mret (Ok tt)
            end
      end.

End WithWorld.

End Cmd.

(** Requests about releases and tags to the GitHub API. *)
Definition touchesReleases (e : Event) : bool :=
  match e with
  | EvListReleases _ | EvGetReleaseByTag _ | EvNewChartReleaseManager _
  | EvCheckAuthentication | EvGetAllReleases
  | EvDeleteRelease _ _ | EvDeleteTag _ | EvDeleteReleaseByTag _ => true
  | _ => false
  end.

Definition isLog (e : Event) : bool :=
  match e with EvLog _ _ => true | _ => false end.

(** The sinks obtained from [l0] by [WithName] and [WithValues]. *)
Inductive derivedFrom {V} (render : V → string) (l0 : Logger.LogSink)
  : Logger.LogSink (V := V) → Prop :=
| derived_refl : derivedFrom render l0 l0
| derived_name l n : derivedFrom render l0 l → derivedFrom render l0 (Logger.WithName l n)
| derived_values l kvs :
    derivedFrom render l0 l → derivedFrom render l0 (Logger.WithValues render l kvs).

(** git in a checkout whose current branch cannot be determined, with a tag
    on the parent of [HEAD]. *)
Definition gitNoBranch (args : list string) : result string :=
  match args with
  | "rev-parse" :: _ => Err "exit status 128"
  | "describe" :: _ => Ok "v1.2.0
"
  | _ => gitFeatureBranch args
  end.

(** A checkout with a broken manifest for chart [foo] beside a chart [bar]
    at a development version. *)
Definition mixedFiles (name : string) : option string :=
  if decide (name = "charts/foo/Chart.yaml") then Some "%%%"
  else if decide (name = "charts/bar/Chart.yaml") then Some "bar 0.0.0-dev"
  else None.

(** git on a feature branch to which it cannot go back: the checkout of
    [feature] fails. *)
Definition gitRestoreFails (args : list string) : result string :=
  match args with
  | ["checkout"; "feature"] => Err "exit status 1"
  | _ => gitFeatureBranch args
  end.

(** * Properties *)

(** ** Lists of versions *)

Lemma filterVersions_length v l : length (filterVersions v l) ≤ length l.
Proof.
  induction l as [|e l IH]; simpl; [lia|].
  case_decide; simpl; lia.
Qed.

Lemma filterVersions_same_length v l :
  length (filterVersions v l) = length l → filterVersions v l = l.
Proof.
  induction l as [|e l IH]; simpl; [done|].
  case_decide; simpl.
  - intros [= Hl]. by rewrite IH.
  - pose proof (filterVersions_length v l). lia.
Qed.

Lemma elem_of_filterVersions v l e :
  e ∈ filterVersions v l ↔ e ∈ l ∧ cvVersion e ≠ v.
Proof.
  induction l as [|x l IH]; simpl.
  - split; [by intros ?%elem_of_nil | by intros [?%elem_of_nil _]].
  - case_decide as Hx; rewrite ?elem_of_cons, IH.
    + intuition congruence.
    + intuition congruence.
Qed.

Lemma filterVersions_comm v w l :
  filterVersions v (filterVersions w l) = filterVersions w (filterVersions v l).
Proof.
  induction l as [|x l IH]; simpl; [done|].
  repeat (case_decide; simpl); congruence.
Qed.

Lemma filterVersions_idemp v l :
  filterVersions v (filterVersions v l) = filterVersions v l.
Proof.
  induction l as [|x l IH]; simpl; [done|].
  repeat (case_decide; simpl); congruence.
Qed.

Lemma purge_cons n c charts l :
  purge n (c :: charts) l
  = purge n charts (if decide (Name c = n) then filterVersions (Version c) l else l).
Proof. done. Qed.

Lemma purge_nil_list n charts : purge n charts [] = [].
Proof.
  induction charts as [|c charts IH]; [done|].
  rewrite purge_cons. by case_decide.
Qed.

Lemma purge_length n charts l : length (purge n charts l) ≤ length l.
Proof.
  revert l. induction charts as [|c charts IH]; intros l; [done|].
  rewrite purge_cons. case_decide; [|done].
  etrans; [apply IH|apply filterVersions_length].
Qed.

Lemma purge_filterVersions n charts v l :
  purge n charts (filterVersions v l) = filterVersions v (purge n charts l).
Proof.
  revert l. induction charts as [|c charts IH]; intros l; [done|].
  rewrite !purge_cons. case_decide; [|done].
  by rewrite filterVersions_comm, IH.
Qed.

Lemma purge_idemp n charts l : purge n charts (purge n charts l) = purge n charts l.
Proof.
  revert l. induction charts as [|c charts IH]; intros l; [done|].
  rewrite !purge_cons. case_decide; [|done].
  by rewrite purge_filterVersions, IH, <- purge_filterVersions, filterVersions_idemp.
Qed.

Lemma purge_not_listed n charts l : n ∉ chartNames charts → purge n charts l = l.
Proof.
  unfold chartNames. revert l. induction charts as [|c charts IH]; intros l Hn; [done|].
  rewrite fmap_cons, not_elem_of_cons in Hn. destruct Hn as [Hc Hn].
  rewrite purge_cons. case_decide; [congruence|]. by apply IH.
Qed.

Lemma elem_of_purge n charts l e :
  e ∈ purge n charts l ↔
  e ∈ l ∧ ∀ c, c ∈ charts → Name c = n → cvVersion e ≠ Version c.
Proof.
  revert l. induction charts as [|c charts IH]; intros l.
  - simpl. split; [intros ?; split; [done|] | by intros [? _]].
    by intros c ?%elem_of_nil.
  - rewrite purge_cons, IH. case_decide as Hc.
    + rewrite elem_of_filterVersions. split.
      * intros [[? ?] Hall]. split; [done|]. intros c' [->|?]%elem_of_cons ?; auto.
      * intros [? Hall]. split; [split; [done|]|].
        -- apply Hall; [left|done].
        -- intros c' ? ?. apply Hall; [by right|done].
    + split.
      * intros [? Hall]. split; [done|]. intros c' [->|?]%elem_of_cons ?; [done|auto].
      * intros [? Hall]. split; [done|]. intros c' ? ?. apply Hall; [by right|done].
Qed.

(** ** What the removal loops leave under each chart name *)

Lemma IndexFile_eq (a b : IndexFile) :
  APIVersion a = APIVersion b → Entries a = Entries b → Generated a = Generated b → a = b.
Proof. destruct a, b; simpl; congruence. Qed.

Lemma Main_step_lookup c f r n :
  Entries (Main.removeChartVersion c (f, r)).1.1 !! n = keptMain n [c] (Entries f !! n).
Proof.
  unfold Main.removeChartVersion, keptMain. simpl.
  destruct (decide (Name c = n)) as [->|Hne].
  - destruct (Entries f !! n) as [l|] eqn:Hl; simpl; [|by rewrite Hl].
    case_decide as Hlen.
    + simpl. rewrite lookup_insert_eq.
      destruct (decide (filterVersions (Version c) l = l)) as [Heq|_]; [by rewrite Heq in Hlen|].
      destruct (filterVersions (Version c) l) as [|x fl] eqn:Hf; simpl.
      * by rewrite lookup_delete_eq.
      * by rewrite lookup_insert_eq.
    + apply filterVersions_same_length in Hlen.
      simpl. by rewrite decide_True, Hl.
  - destruct (Entries f !! Name c) as [l|] eqn:Hl; simpl.
    + case_decide as Hlen; simpl.
      * rewrite lookup_insert_eq.
        destruct (filterVersions (Version c) l); simpl;
          rewrite ?lookup_delete_ne, ?lookup_insert_ne by done;
          destruct (Entries f !! n); simpl; by rewrite ?decide_True.
      * destruct (Entries f !! n); simpl; by rewrite ?decide_True.
    + destruct (Entries f !! n); simpl; by rewrite ?decide_True.
Qed.

Lemma Main_step_fields c f r :
  APIVersion (Main.removeChartVersion c (f, r)).1.1 = APIVersion f ∧
  Generated (Main.removeChartVersion c (f, r)).1.1 = Generated f.
Proof.
  unfold Main.removeChartVersion. simpl.
  destruct (Entries f !! Name c) as [l|]; [|done].
  case_decide; [|done]. simpl. rewrite lookup_insert_eq.
  by destruct (filterVersions (Version c) l).
Qed.

Lemma keptMain_cons n c charts o :
  keptMain n (c :: charts) o = keptMain n charts (keptMain n [c] o).
Proof.
  destruct o as [l|]; [|done]. unfold keptMain at 1 3. rewrite purge_cons. simpl.
  destruct (decide (Name c = n)) as [Hc|Hc]; simpl.
  - destruct (decide (filterVersions (Version c) l = l)) as [Hf|Hf].
    { rewrite Hf. done. }
    assert (length (filterVersions (Version c) l) < length l) as Hlt.
    { pose proof (filterVersions_length (Version c) l).
      destruct (decide (length (filterVersions (Version c) l) = length l))
        as [?%filterVersions_same_length|]; [done|lia]. }
    pose proof (purge_length n charts (filterVersions (Version c) l)) as Hp.
    rewrite (decide_False (P := purge _ _ _ = l)) by (intros Heq; rewrite Heq in Hp; lia).
    destruct (decide (filterVersions (Version c) l = [])) as [Hnil|Hnil]; simpl.
    + by rewrite Hnil, purge_nil_list, decide_True.
    + destruct (decide (purge n charts (filterVersions (Version c) l)
                        = filterVersions (Version c) l)) as [Heq|?]; [|done].
      rewrite Heq. by rewrite decide_False.
  - by rewrite (decide_True (P := l = l)).
Qed.

Lemma Main_loop_lookup charts f r logs n :
  Entries (Main.removeLoop charts (f, r) logs).1.1 !! n = keptMain n charts (Entries f !! n).
Proof.
  revert f r logs. induction charts as [|c charts IH]; intros f r logs.
  - simpl. destruct (Entries f !! n); simpl; by rewrite ?decide_True.
  - cbn [Main.removeLoop].
    destruct (Main.removeChartVersion c (f, r)) as [[f1 r1] out] eqn:Hstep.
    cbv beta iota zeta. rewrite IH, keptMain_cons. f_equal.
    by rewrite <- (Main_step_lookup c f r), Hstep.
Qed.

Lemma Main_loop_fields charts f r logs :
  APIVersion (Main.removeLoop charts (f, r) logs).1.1 = APIVersion f ∧
  Generated (Main.removeLoop charts (f, r) logs).1.1 = Generated f.
Proof.
  revert f r logs. induction charts as [|c charts IH]; intros f r logs; [done|].
  cbn [Main.removeLoop].
  destruct (Main.removeChartVersion c (f, r)) as [[f1 r1] out] eqn:Hstep.
  cbv beta iota zeta. destruct (IH f1 r1 (logs ++ out)) as [-> ->].
  pose proof (Main_step_fields c f r) as Hs. by rewrite Hstep in Hs.
Qed.

Lemma Main_removeVersions_lookup charts f n :
  Entries (Main.removeVersions charts f) !! n = keptMain n charts (Entries f !! n).
Proof. apply Main_loop_lookup. Qed.

Lemma Internal_step_lookup c f n :
  Entries (Internal.removeChartVersion c f).1 !! n = keptInternal n [c] (Entries f !! n).
Proof.
  unfold Internal.removeChartVersion, keptInternal, chartNames. simpl.
  destruct (decide (Name c = n)) as [->|Hne].
  - destruct (Entries f !! n) as [l|] eqn:Hl; simpl; [|by rewrite Hl].
    rewrite (decide_True (P := n ∈ [n])) by (by left).
    destruct (filterVersions (Version c) l) as [|x fl] eqn:Hf; simpl.
    + by rewrite lookup_delete_eq.
    + by rewrite lookup_insert_eq.
  - assert (n ∉ [Name c]) as Hn by (by intros ->%list_elem_of_singleton).
    destruct (Entries f !! Name c) as [l|] eqn:Hl; simpl.
    + case_decide; simpl; rewrite ?lookup_delete_ne, ?lookup_insert_ne by done;
        destruct (Entries f !! n); simpl; by rewrite ?decide_False.
    + destruct (Entries f !! n); simpl; by rewrite ?decide_False.
Qed.

Lemma Internal_step_fields c f :
  APIVersion (Internal.removeChartVersion c f).1 = APIVersion f ∧
  Generated (Internal.removeChartVersion c f).1 = Generated f.
Proof.
  unfold Internal.removeChartVersion.
  destruct (Entries f !! Name c) as [l|]; [|done]. by case_decide.
Qed.

Lemma keptInternal_cons n c charts o :
  keptInternal n (c :: charts) o = keptInternal n charts (keptInternal n [c] o).
Proof.
  destruct o as [l|]; [|done]. unfold keptInternal at 1 3, chartNames.
  rewrite purge_cons, fmap_cons. simpl.
  destruct (decide (Name c = n)) as [Hc|Hc]; simpl.
  - rewrite (decide_True (P := n ∈ Name c :: _)) by (rewrite Hc; by left).
    rewrite (decide_True (P := n ∈ [Name c])) by (rewrite Hc; by left).
    destruct (decide (filterVersions (Version c) l = [])) as [Hnil|Hnil]; simpl.
    + by rewrite Hnil, purge_nil_list, decide_True.
    + destruct (decide (n ∈ chartNames charts)) as [Hin|Hin]; [done|].
      rewrite purge_not_listed by done. by rewrite decide_False.
  - assert (n ∉ [Name c]) as Hn by (by intros ->%list_elem_of_singleton).
    rewrite (decide_False (P := n ∈ [Name c])) by done. simpl.
    destruct (decide (n ∈ chartNames charts)) as [Hin|Hin].
    + by rewrite decide_True by (by right).
    + rewrite decide_False; [done|]. by intros [->|?]%elem_of_cons.
Qed.

Lemma Internal_loop_lookup charts f logs n :
  Entries (Internal.removeLoop charts f logs).1 !! n = keptInternal n charts (Entries f !! n).
Proof.
  revert f logs. induction charts as [|c charts IH]; intros f logs.
  - cbn [Internal.removeLoop fst]. unfold keptInternal, chartNames.
    destruct (Entries f !! n); [|done].
    destruct (decide (n ∈ Name <$> [])) as [Hin|Hin]; [by apply elem_of_nil in Hin|done].
  - cbn [Internal.removeLoop].
    destruct (Internal.removeChartVersion c f) as [f1 out] eqn:Hstep.
    cbv beta iota zeta. rewrite IH, keptInternal_cons. f_equal.
    by rewrite <- (Internal_step_lookup c f), Hstep.
Qed.

Lemma Internal_loop_fields charts f logs :
  APIVersion (Internal.removeLoop charts f logs).1 = APIVersion f ∧
  Generated (Internal.removeLoop charts f logs).1 = Generated f.
Proof.
  revert f logs. induction charts as [|c charts IH]; intros f logs; [done|].
  cbn [Internal.removeLoop].
  destruct (Internal.removeChartVersion c f) as [f1 out] eqn:Hstep.
  cbv beta iota zeta. destruct (IH f1 (logs ++ out)) as [-> ->].
  pose proof (Internal_step_fields c f) as Hs. by rewrite Hstep in Hs.
Qed.

Lemma Internal_removeVersions_lookup charts f n :
  Entries (Internal.removeVersions charts f) !! n = keptInternal n charts (Entries f !! n).
Proof. apply Internal_loop_lookup. Qed.

Lemma keptMain_idemp n charts o :
  keptMain n charts (keptMain n charts o) = keptMain n charts o.
Proof.
  destruct o as [l|]; [|done]. unfold keptMain at 2 3.
  destruct (decide (purge n charts l = l)) as [Heq|Hne].
  - unfold keptMain. by rewrite Heq, decide_True.
  - destruct (decide (purge n charts l = [])); [done|].
    unfold keptMain. by rewrite purge_idemp, decide_True.
Qed.

Lemma keptInternal_idemp n charts o :
  keptInternal n charts (keptInternal n charts o) = keptInternal n charts o.
Proof.
  destruct o as [l|]; [|done]. unfold keptInternal at 2 3.
  destruct (decide (n ∈ chartNames charts)) as [Hin|Hin].
  - destruct (decide (purge n charts l = [])) as [|Hne]; [done|].
    unfold keptInternal. by rewrite decide_True, purge_idemp, decide_False.
  - unfold keptInternal. by rewrite decide_False.
Qed.

(** C3.  Version removal is idempotent: running the removal loop of
    [CleanMultipleChartIndexes] (package main) or of [CleanEntriesVersions]
    (chart-releaser) a second time with the same chart list leaves the
    document, and so its entries map, as the first run left it. *)
Theorem removeVersions_idempotent (charts : list ChartInfo) (D : IndexFile) :
  Main.removeVersions charts (Main.removeVersions charts D) = Main.removeVersions charts D ∧
  Entries (Main.removeVersions charts (Main.removeVersions charts D))
    = Entries (Main.removeVersions charts D) ∧
  Internal.removeVersions charts (Internal.removeVersions charts D)
    = Internal.removeVersions charts D ∧
  Entries (Internal.removeVersions charts (Internal.removeVersions charts D))
    = Entries (Internal.removeVersions charts D).
Proof.
  assert (Main.removeVersions charts (Main.removeVersions charts D)
          = Main.removeVersions charts D) as HM.
  { apply IndexFile_eq.
    - unfold Main.removeVersions. by rewrite !(proj1 (Main_loop_fields _ _ _ _)).
    - apply map_eq. intros n. rewrite !Main_removeVersions_lookup. apply keptMain_idemp.
    - unfold Main.removeVersions. by rewrite !(proj2 (Main_loop_fields _ _ _ _)). }
  assert (Internal.removeVersions charts (Internal.removeVersions charts D)
          = Internal.removeVersions charts D) as HI.
  { apply IndexFile_eq.
    - unfold Internal.removeVersions. by rewrite !(proj1 (Internal_loop_fields _ _ _)).
    - apply map_eq. intros n. rewrite !Internal_removeVersions_lookup.
      apply keptInternal_idemp.
    - unfold Internal.removeVersions. by rewrite !(proj2 (Internal_loop_fields _ _ _)). }
  by rewrite HM, HI.
Qed.

(** The removal loops do not repair a document that breaks the invariant of
    the data model: a chart name that the input document already binds to
    an empty list is still bound to it afterwards, in both implementations;
    package main leaves it even when the chart is listed. *)
Lemma removeVersions_empty_list_survives :
  let D := {| APIVersion := "v1"; Entries := {[ "bar" := [] ]}; Generated := "" |} in
  ¬ no_empty_lists (Main.removeVersions [{| Path := "charts/foo"; Name := "foo"; Version := "1.0.0" |}] D) ∧
  ¬ no_empty_lists (Internal.removeVersions [{| Path := "charts/foo"; Name := "foo"; Version := "1.0.0" |}] D) ∧
  ¬ no_empty_lists (Main.removeVersions [{| Path := "charts/bar"; Name := "bar"; Version := "1.0.0" |}] D).
Proof.
  repeat split; intros H; by apply (H "bar").
Qed.

(** C4.  Version removal leaves no empty list behind.  On an index document
    that meets the invariant of the data model (no chart name is bound to an
    empty list), no chart name of the resulting document is bound to an
    empty list, in both implementations; and a chart whose list loses every
    entry to the removal is absent from the result.  More generally, a
    chart name bound to an empty list in the result was bound to an empty
    list in the input. *)
Theorem removeVersions_no_new_empty_list (charts : list ChartInfo) (D : IndexFile) :
  (∀ k, Entries (Main.removeVersions charts D) !! k = Some [] → Entries D !! k = Some []) ∧
  (∀ k, Entries (Internal.removeVersions charts D) !! k = Some [] → Entries D !! k = Some []) ∧
  (no_empty_lists D →
     no_empty_lists (Main.removeVersions charts D) ∧
     no_empty_lists (Internal.removeVersions charts D)) ∧
  (∀ n l, Entries D !! n = Some l → l ≠ [] → purge n charts l = [] →
     Entries (Main.removeVersions charts D) !! n = None ∧
     Entries (Internal.removeVersions charts D) !! n = None).
Proof.
  assert (∀ k, Entries (Main.removeVersions charts D) !! k = Some [] →
               Entries D !! k = Some []) as HM.
  { intros k. rewrite Main_removeVersions_lookup. unfold keptMain.
    destruct (Entries D !! k) as [l|]; [|done].
    repeat case_decide; congruence. }
  assert (∀ k, Entries (Internal.removeVersions charts D) !! k = Some [] →
               Entries D !! k = Some []) as HI.
  { intros k. rewrite Internal_removeVersions_lookup. unfold keptInternal.
    destruct (Entries D !! k) as [l|]; [|done].
    repeat case_decide; congruence. }
  split; [done|]. split; [done|]. split.
  - intros HD. split; intros k Hk; [apply HM in Hk|apply HI in Hk]; by apply (HD k).
  - intros n l Hl Hne Hp. rewrite Main_removeVersions_lookup, Internal_removeVersions_lookup.
    unfold keptMain, keptInternal. rewrite Hl, Hp. split.
    + rewrite decide_False by done. by rewrite decide_True.
    + destruct (decide (n ∈ chartNames charts)) as [|Hn]; [done|].
      rewrite purge_not_listed in Hp by done. done.
Qed.

Lemma removeVersions_no_new_empty_list_witness :
  no_empty_lists (Main.removeVersions [chart_foo] only_dev_index) ∧
  no_empty_lists (Internal.removeVersions [chart_foo] only_dev_index) ∧
  Entries (Main.removeVersions [chart_foo] only_dev_index) !! "foo" = None ∧
  Entries (Internal.removeVersions [chart_foo] only_dev_index) !! "foo" = None.
Proof.
  destruct (removeVersions_no_new_empty_list [chart_foo] only_dev_index)
    as (_ & _ & Hinv & Hgone).
  assert (no_empty_lists only_dev_index) as HD.
  { intros k. unfold only_dev_index. simpl.
    destruct (decide (k = "foo")) as [->|?]; [done|].
    destruct (decide (k = "bar")) as [->|?]; [done|].
    by rewrite lookup_insert_ne, lookup_singleton_ne by done. }
  destruct (Hinv HD) as [H1 H2].
  destruct (Hgone "foo" [foo_1]) as [H3 H4]; [reflexivity|done|reflexivity|].
  done.
Defined.

(** C5.  Version removal touches nothing else: a chart name that is not
    listed keeps exactly its version list, and under a listed chart every
    entry whose version is not a listed version of that chart is still
    there. *)
Theorem removeVersions_frame (charts : list ChartInfo) (D : IndexFile) (n : string) :
  (n ∉ chartNames charts →
     Entries (Main.removeVersions charts D) !! n = Entries D !! n ∧
     Entries (Internal.removeVersions charts D) !! n = Entries D !! n) ∧
  (∀ l e, Entries D !! n = Some l → e ∈ l →
     (∀ c, c ∈ charts → Name c = n → cvVersion e ≠ Version c) →
     (∃ l', Entries (Main.removeVersions charts D) !! n = Some l' ∧ e ∈ l') ∧
     (∃ l', Entries (Internal.removeVersions charts D) !! n = Some l' ∧ e ∈ l')).
Proof.
  rewrite Main_removeVersions_lookup, Internal_removeVersions_lookup. split.
  - intros Hn. unfold keptMain, keptInternal.
    destruct (Entries D !! n) as [l|]; [|done].
    rewrite purge_not_listed by done.
    by rewrite (decide_True (P := l = l)), (decide_False (P := n ∈ _)).
  - intros l e Hl He Hall.
    assert (e ∈ purge n charts l) as Hp by (apply elem_of_purge; eauto).
    assert (purge n charts l ≠ []) as Hne by (intros Heq; rewrite Heq in Hp; by apply elem_of_nil in Hp).
    unfold keptMain, keptInternal. rewrite Hl. split.
    + destruct (decide (purge n charts l = l)); [by exists l|].
      rewrite decide_False by done. eauto.
    + destruct (decide (n ∈ chartNames charts)); [|by exists l].
      rewrite decide_False by done. eauto.
Qed.

Lemma removeVersions_frame_witness :
  (Entries (Main.removeVersions [chart_foo] sample_index) !! "bar" = Entries sample_index !! "bar" ∧
   Entries (Internal.removeVersions [chart_foo] sample_index) !! "bar" = Entries sample_index !! "bar") ∧
  ((∃ l', Entries (Main.removeVersions [chart_foo] sample_index) !! "foo" = Some l' ∧ foo_2 ∈ l') ∧
   (∃ l', Entries (Internal.removeVersions [chart_foo] sample_index) !! "foo" = Some l' ∧ foo_2 ∈ l')).
Proof.
  split.
  - apply (removeVersions_frame [chart_foo] sample_index "bar").
    by intros ?%list_elem_of_singleton.
  - apply (proj2 (removeVersions_frame [chart_foo] sample_index "foo") [foo_1; foo_2] foo_2).
    + reflexivity.
    + right. left.
    + intros c ->%list_elem_of_singleton _. done.
Defined.

(** ** Change grouping *)

Lemma addChartDir_dom ChartsDir m filePath d :
  d ∈ dom (addChartDir ChartsDir m filePath) ↔
  d ∈ dom m ∨
  ∃ p0 p1 rest, strings_Split (filepath_Clean filePath) Separator = p0 :: p1 :: rest ∧
                p0 = ChartsDir ∧ d = filepath_Join [p0; p1].
Proof.
  unfold addChartDir.
  destruct (strings_Split (filepath_Clean filePath) Separator) as [|p0 [|p1 rest]].
  - split; [by left|]. by intros [?|(?&?&?&?&_)].
  - split; [by left|]. by intros [?|(?&?&?&?&_)].
  - case_decide as Hp.
    + rewrite dom_insert_L, elem_of_union, elem_of_singleton. subst p0. split.
      * intros [->|?]; [right; by exists ChartsDir, p1, rest|by left].
      * intros [?|(?&?&?&[= <- <- <-]&_&->)]; [by right|by left].
    + split; [by left|]. intros [?|(?&?&?&[= <- <- <-]&?&_)]; done.
Qed.

Lemma chartDirs_fold_dom ChartsDir changedFiles m d :
  d ∈ dom (foldl (addChartDir ChartsDir) m changedFiles) ↔
  d ∈ dom m ∨
  ∃ filePath p0 p1 rest, filePath ∈ changedFiles ∧
    strings_Split (filepath_Clean filePath) Separator = p0 :: p1 :: rest ∧
    p0 = ChartsDir ∧ d = filepath_Join [p0; p1].
Proof.
  revert m. induction changedFiles as [|f files IH]; intros m; simpl.
  - split; [by left|]. intros [?|(?&?&?&?&?%elem_of_nil&_)]; done.
  - rewrite IH, addChartDir_dom. split.
    + intros [[?|(p0&p1&rest&?&?&?)]|(f'&p0&p1&rest&?&?&?&?)].
      * by left.
      * right. exists f, p0, p1, rest. split; [by left|done].
      * right. exists f', p0, p1, rest. split; [by right|done].
    + intros [?|(f'&p0&p1&rest&[->|?]%elem_of_cons&?&?&?)].
      * left. by left.
      * left. right. by exists p0, p1, rest.
      * right. by exists f', p0, p1, rest.
Qed.

Lemma chartDirs_fold_true ChartsDir changedFiles m :
  (∀ d b, m !! d = Some b → b = true) →
  ∀ d b, foldl (addChartDir ChartsDir) m changedFiles !! d = Some b → b = true.
Proof.
  revert m. induction changedFiles as [|f files IH]; intros m Hm; simpl; [done|].
  apply IH. intros d b. unfold addChartDir.
  destruct (strings_Split (filepath_Clean f) Separator) as [|p0 [|p1 rest]]; [apply Hm..|].
  case_decide; [|apply Hm].
  destruct (decide (filepath_Join [ChartsDir; p1] = d)) as [->|?].
  - rewrite lookup_insert_eq. congruence.
  - rewrite lookup_insert_ne by done. apply Hm.
Qed.

(** C6.  Change grouping: the candidate chart directories are exactly the
    joins of the first two segments of those (cleaned) changed paths whose
    first segment is the chart directory; for the three files of the example
    they are [charts/a] and [charts/b]. *)
Theorem chartDirs_grouping :
  (∀ (ChartsDir : string) (changedFiles : list string) (d : string),
     d ∈ dom (chartDirsOf ChartsDir changedFiles) ↔
     ∃ filePath p0 p1 rest, filePath ∈ changedFiles ∧
       strings_Split (filepath_Clean filePath) Separator = p0 :: p1 :: rest ∧
       p0 = ChartsDir ∧ d = filepath_Join [p0; p1]) ∧
  dom (chartDirsOf "charts" ["charts/a/Chart.yaml"; "charts/a/values.yaml"; "charts/b/README.md"])
    = {[ "charts/a"; "charts/b" ]}.
Proof.
  split.
  - intros ChartsDir changedFiles d. unfold chartDirsOf. rewrite chartDirs_fold_dom.
    rewrite dom_empty_L. split; [intros [?%not_elem_of_empty|?]; done|by right].
  - by vm_compute.
Qed.

(** ** Version patterns *)

(** C9.  [VersionMatchesPattern V P] fails exactly when [P] does not
    compile, and otherwise answers what the engine's unanchored
    [MatchString] answers for the compiled pattern on [V]; on the modelled
    engine ["0.0.0-dev"] matches [^0\.0\.0-dev$], ["1.2.3"] does not, and a
    pattern without anchors matches inside a longer version. *)
Theorem VersionMatchesPattern_semantics :
  (∀ (R : RegexpEngine) (V P : string),
     (is_err (VersionMatchesPattern R V P) = true ↔ is_err (Compile R P) = true) ∧
     (∀ regex, Compile R P = Ok regex →
               VersionMatchesPattern R V P = Ok (MatchString R regex V))) ∧
  VersionMatchesPattern RE2Fragment.engine "0.0.0-dev" "^0\.0\.0-dev$" = Ok true ∧
  VersionMatchesPattern RE2Fragment.engine "1.2.3" "^0\.0\.0-dev$" = Ok false ∧
  VersionMatchesPattern RE2Fragment.engine "x0.0.0-devy" "0\.0\.0-dev" = Ok true.
Proof.
  split; [|by vm_compute].
  intros R V P. unfold VersionMatchesPattern. split.
  - by destruct (Compile R P).
  - by intros regex ->.
Qed.

Lemma VersionMatchesPattern_semantics_witness :
  VersionMatchesPattern RE2Fragment.engine "0.0.0-rc1" "^0\.0\.0-.*$"
  = Ok (RE2Fragment.matchString
          (RE2Fragment.Seq RE2Fragment.Bol
            (RE2Fragment.Seq (RE2Fragment.Lit "0")
            (RE2Fragment.Seq (RE2Fragment.Lit ".")
            (RE2Fragment.Seq (RE2Fragment.Lit "0")
            (RE2Fragment.Seq (RE2Fragment.Lit ".")
            (RE2Fragment.Seq (RE2Fragment.Lit "0")
            (RE2Fragment.Seq (RE2Fragment.Lit "-")
            (RE2Fragment.Seq (RE2Fragment.Star RE2Fragment.AnyNotNL)
            (RE2Fragment.Seq RE2Fragment.Eol RE2Fragment.Eps)))))))))
          "0.0.0-rc1").
Proof.
  apply (proj2 (proj1 VersionMatchesPattern_semantics RE2Fragment.engine
                  "0.0.0-rc1" "^0\.0\.0-.*$")).
  vm_compute. reflexivity.
Defined.

(** ** Reasoning about computations

    [spec m h Q]: run from history [h], the computation [m] returns a value
    and performs events that satisfy [Q]. *)

Lemma run_bind {A B} (m : M A) (k : A → M B) (h : History) :
  (m ≫= k) h = let '(a, t1) := m h in let '(b, t2) := k a (h ++ t1) in (b, t1 ++ t2).
Proof. reflexivity. Qed.

Lemma spec_ret {A} (a : A) h (Q : A → list Event → Prop) :
  Q a [] → spec (mret a) h Q.
Proof. done. Qed.

Lemma spec_call {A} (e : Event) (answer : History → A) h (Q : A → list Event → Prop) :
  Q (answer h) [e] → spec (call e answer) h Q.
Proof. done. Qed.

Lemma spec_ask {A} (answer : History → A) h (Q : A → list Event → Prop) :
  Q (answer h) [] → spec (ask answer) h Q.
Proof. done. Qed.

Lemma spec_bind {A B} (m : M A) (k : A → M B) h (Q : B → list Event → Prop) :
  spec m h (λ a t1, spec (k a) (h ++ t1) (λ b t2, Q b (t1 ++ t2))) →
  spec (m ≫= k) h Q.
Proof.
  unfold spec. rewrite run_bind. destruct (m h) as [a t1]. simpl.
  by destruct (k a (h ++ t1)) as [b t2].
Qed.

Lemma spec_mono {A} (m : M A) h (Q Q' : A → list Event → Prop) :
  spec m h Q' → (∀ a t, Q' a t → Q a t) → spec m h Q.
Proof. unfold spec. auto. Qed.

Lemma spec_run {A} (m : M A) h (Q : A → list Event → Prop) a t :
  m h = (a, t) → spec m h Q → Q a t.
Proof. unfold spec. by intros ->. Qed.

Lemma spec_forEach {A} (f : A → M unit) (l : list A) (P : Event → Prop) h :
  (∀ x h', x ∈ l → spec (f x) h' (λ _ t, Forall P t)) →
  spec (forEach f l) h (λ _ t, Forall P t).
Proof.
  revert h. induction l as [|x l IH]; intros h Hf; simpl.
  - by apply spec_ret.
  - apply spec_bind. eapply spec_mono; [apply Hf; by left|].
    intros u t1 Ht1. eapply spec_mono; [apply IH|].
    + intros y h' Hy. apply Hf. by right.
    + intros u' t2 Ht2. by apply Forall_app.
Qed.

(** ** Diff baseline *)

Lemma Main_runGitCommand_run W g args h :
  Main.runGitCommand W g args h
  = (match w_git W h (Main.RepoPath g) args with
     | Err e => Err ("git command failed: " +:+ e)
     | Ok output => Ok (strings_TrimSpace output)
     end, [EvGit (Main.RepoPath g) args]).
Proof. reflexivity. Qed.


(** ** The chart scan *)

Lemma Main_GetChartInfo_trace W Y cm d h :
  (Main.GetChartInfo W Y cm d h).2 = [EvReadFile (chartFileOf d)].
Proof.
  unfold Main.GetChartInfo. rewrite run_bind. unfold call. fold (chartFileOf d).
  destruct (w_readFile W h (chartFileOf d)) as [data|e]; [|done].
  by destruct (UnmarshalChart Y data).
Qed.

Lemma Main_scanCharts_cons W Y R cm pattern d rest acc h :
  let f := chartFileOf d in
  Main.scanCharts W Y R cm pattern (d :: rest) acc h =
  match w_stat W h f with
  | StatOk =>
      match (Main.GetChartInfo W Y cm d (h ++ [EvStat f])).1 with
      | Err e =>
          let t0 := [EvStat f; EvReadFile f;
                     EvLog ("Error getting chart info for " +:+ d +:+ ": " +:+ e) []] in
          let '(r, t) := Main.scanCharts W Y R cm pattern rest acc (h ++ t0) in (r, t0 ++ t)
      | Ok chartInfo =>
          match VersionMatchesPattern R (Version chartInfo) pattern with
          | Err e => (Err ("error checking version pattern: " +:+ e), [EvStat f; EvReadFile f])
          | Ok false =>
              (Err ("chart version " +:+ Version chartInfo
                    +:+ " does not match supported pattern for deletion: " +:+ pattern),
               [EvStat f; EvReadFile f])
          | Ok true =>
              let t0 := [EvStat f; EvReadFile f;
                         EvLog ("Found Helm chart: " +:+ d +:+ " with version "
                                +:+ Version chartInfo) []] in
              let '(r, t) := Main.scanCharts W Y R cm pattern rest (acc ++ [chartInfo]) (h ++ t0) in
              (r, t0 ++ t)
          end
      end
  | _ =>
      let t0 := [EvStat f; EvLog (d +:+ " is not a Helm chart. Skipping.") []] in
      let '(r, t) := Main.scanCharts W Y R cm pattern rest acc (h ++ t0) in (r, t0 ++ t)
  end.
Proof.
  intros f. cbn [Main.scanCharts]. rewrite run_bind.
  unfold Main.IsHelmChart. rewrite run_bind. unfold call at 1. fold (chartFileOf d). fold f.
  cbn [mret M_ret]. rewrite !app_nil_r.
  assert (∀ (X : Type) (m : M X) t0 h0,
            (let '(b, t2) := (Main.log t0 ;; m) h0 in (b, [EvStat f] ++ t2))
            = (let '(r, t) := m (h0 ++ [EvLog t0 []]) in (r, [EvStat f; EvLog t0 []] ++ t))) as Hlog.
  { intros X m t0 h0. rewrite run_bind. unfold Main.log, call. by destruct (m _). }
  destruct (w_stat W h f); cbn [negb].
  - rewrite run_bind.
    pose proof (Main_GetChartInfo_trace W Y cm d (h ++ [EvStat f])) as Ht. fold f in Ht.
    destruct (Main.GetChartInfo W Y cm d (h ++ [EvStat f])) as [[ci|e] ti];
      cbn [fst snd] in *; subst ti.
    + destruct (VersionMatchesPattern R (Version ci) pattern) as [[|]|e]; [|done..].
      rewrite run_bind. unfold Main.log at 1, call. rewrite <- !(assoc_L (++) h). simpl.
      by destruct (Main.scanCharts W Y R cm pattern rest (acc ++ [ci]) _).
    + rewrite run_bind. unfold Main.log at 1, call. rewrite <- !(assoc_L (++) h). simpl.
      by destruct (Main.scanCharts W Y R cm pattern rest acc _).
  - rewrite Hlog. rewrite <- !(assoc_L (++) h). done.
  - rewrite Hlog. rewrite <- !(assoc_L (++) h). done.
Qed.

Lemma Internal_getChartInfo_trace W Y m d h :
  (Internal.getChartInfo W Y m d h).2 = [EvReadFile (chartFileOf d)].
Proof.
  unfold Internal.getChartInfo. rewrite run_bind. unfold call. fold (chartFileOf d).
  destruct (w_readFile W h (chartFileOf d)) as [data|e]; [|done].
  by destruct (UnmarshalChart Y data).
Qed.

Lemma Internal_scanCharts_cons W Y R m pattern d rest acc h :
  let f := chartFileOf d in
  Internal.scanCharts W Y R m pattern (d :: rest) acc h =
  match w_stat W h f with
  | StatOk =>
      match (Internal.getChartInfo W Y m d (h ++ [EvStat f])).1 with
      | Err e =>
          let t0 := [EvStat f; EvReadFile f;
                     EvLog "Error getting chart info for %s: %v" [d; e]] in
          let '(r, t) := Internal.scanCharts W Y R m pattern rest acc (h ++ t0) in (r, t0 ++ t)
      | Ok chartInfo =>
          match VersionMatchesPattern R (Version chartInfo) pattern with
          | Err e => (Err ("error checking version pattern: " +:+ e), [EvStat f; EvReadFile f])
          | Ok false =>
              (Err ("chart version " +:+ Version chartInfo
                    +:+ " does not match supported pattern for deletion: " +:+ pattern),
               [EvStat f; EvReadFile f])
          | Ok true =>
              let t0 := [EvStat f; EvReadFile f;
                         EvLog "Found Helm chart: %s with version %s" [d; Version chartInfo]] in
              let '(r, t) :=
                Internal.scanCharts W Y R m pattern rest (acc ++ [chartInfo]) (h ++ t0) in
              (r, t0 ++ t)
          end
      end
  | _ =>
      let t0 := [EvStat f; EvLog "%s is not a Helm chart. Skipping." [d]] in
      let '(r, t) := Internal.scanCharts W Y R m pattern rest acc (h ++ t0) in (r, t0 ++ t)
  end.
Proof.
  intros f. cbn [Internal.scanCharts]. rewrite run_bind.
  unfold Internal.isHelmChart. rewrite run_bind. unfold call at 1. fold (chartFileOf d). fold f.
  cbn [mret M_ret]. rewrite !app_nil_r.
  assert (∀ (X : Type) (k : M X) t0 kv h0,
            (let '(b, t2) := (Internal.logInfo t0 kv ;; k) h0 in (b, [EvStat f] ++ t2))
            = (let '(r, t) := k (h0 ++ [EvLog t0 kv]) in (r, [EvStat f; EvLog t0 kv] ++ t))) as Hlog.
  { intros X k t0 kv h0. rewrite run_bind. unfold Internal.logInfo, call. by destruct (k _). }
  destruct (w_stat W h f); cbn [negb].
  - rewrite run_bind.
    pose proof (Internal_getChartInfo_trace W Y m d (h ++ [EvStat f])) as Ht. fold f in Ht.
    destruct (Internal.getChartInfo W Y m d (h ++ [EvStat f])) as [[ci|e] ti];
      cbn [fst snd] in *; subst ti.
    + destruct (VersionMatchesPattern R (Version ci) pattern) as [[|]|e]; [|done..].
      rewrite run_bind. unfold Internal.logInfo at 1, call. rewrite <- !(assoc_L (++) h). simpl.
      by destruct (Internal.scanCharts W Y R m pattern rest (acc ++ [ci]) _).
    + rewrite run_bind. unfold Internal.logInfo at 1, call. rewrite <- !(assoc_L (++) h). simpl.
      by destruct (Internal.scanCharts W Y R m pattern rest acc _).
  - rewrite Hlog. rewrite <- !(assoc_L (++) h). done.
  - rewrite Hlog. rewrite <- !(assoc_L (++) h). done.
Qed.

(** The manifest of a mismatching chart is read and refused wherever the
    scan finds it. *)
Lemma Main_GetChartInfo_mismatching W Y R cm pattern d h :
  mismatching W Y R pattern d →
  ∃ ci, (Main.GetChartInfo W Y cm d h).1 = Ok ci ∧
        VersionMatchesPattern R (Version ci) pattern ≠ Ok true.
Proof.
  intros Hd. destruct (Hd h) as (_ & data & md & Hread & Hparse & Hv).
  unfold Main.GetChartInfo. rewrite run_bind. unfold call. fold (chartFileOf d).
  rewrite Hread, Hparse. by eexists.
Qed.

Lemma Internal_getChartInfo_mismatching W Y R m pattern d h :
  mismatching W Y R pattern d →
  ∃ ci, (Internal.getChartInfo W Y m d h).1 = Ok ci ∧
        VersionMatchesPattern R (Version ci) pattern ≠ Ok true.
Proof.
  intros Hd. destruct (Hd h) as (_ & data & md & Hread & Hparse & Hv).
  unfold Internal.getChartInfo. rewrite run_bind. unfold call. fold (chartFileOf d).
  rewrite Hread, Hparse. by eexists.
Qed.

(** A scan that meets a mismatching chart fails; whatever it does, it only
    looks at manifests and logs. *)
Lemma Main_scanCharts_fail_closed W Y R cm pattern d dirs acc h :
  mismatching W Y R pattern d → d ∈ dirs →
  is_err (Main.scanCharts W Y R cm pattern dirs acc h).1 = true.
Proof.
  intros Hd. revert acc h. induction dirs as [|x dirs IH]; intros acc h Hin.
  { by apply elem_of_nil in Hin. }
  rewrite Main_scanCharts_cons. cbv zeta.
  destruct (decide (x = d)) as [->|Hne].
  - destruct (Hd h) as [-> _].
    destruct (Main_GetChartInfo_mismatching W Y R cm pattern d (h ++ [EvStat (chartFileOf d)]) Hd)
      as (ci & -> & Hv).
    by destruct (VersionMatchesPattern R (Version ci) pattern) as [[|]|e].
  - apply elem_of_cons in Hin as [?|Hin]; [congruence|].
    repeat case_match; try done;
      match goal with
      | H : Main.scanCharts _ _ _ _ _ _ ?a ?h' = _ |- _ =>
          specialize (IH a h' Hin); by rewrite H in IH
      end.
Qed.

Lemma Main_scanCharts_quiet W Y R cm pattern dirs acc h :
  Forall quiet (Main.scanCharts W Y R cm pattern dirs acc h).2.
Proof.
  revert acc h. induction dirs as [|x dirs IH]; intros acc h; [by constructor|].
  rewrite Main_scanCharts_cons. cbv zeta.
  repeat case_match; try (by repeat constructor);
    match goal with
    | H : Main.scanCharts _ _ _ _ _ _ ?a ?h' = _ |- _ =>
        specialize (IH a h'); rewrite H in IH; by repeat constructor
    end.
Qed.

(** ** Stepping through a computation *)

Ltac wp_step :=
  lazymatch goal with
  | |- spec (mbind _ _) _ _ => apply spec_bind
  | |- spec (mret _) _ _ => apply spec_ret
  | |- spec (call _ _) _ _ => apply spec_call
  | |- spec (ask _) _ _ => apply spec_ask
  | |- spec (match ?x with _ => _ end) _ _ => destruct x eqn:?
  | |- spec (if ?x then _ else _) _ _ => destruct x eqn:?
  end.

Ltac wp := repeat (cbv beta; wp_step).

Ltac trace_done :=
  cbv beta; simpl;
  repeat first [ apply Forall_app; split | apply Forall_cons; split | apply Forall_nil ];
  try done.

Lemma Main_GetLatestTag_quiet W g baseBranch h :
  spec (Main.GetLatestTag W g baseBranch) h (λ _ t, Forall quiet t).
Proof.
  unfold Main.GetLatestTag, Main.FetchTags, Main.GetCurrentBranch, Main.runGitCommand, Main.log.
  wp; trace_done.
Qed.

Lemma rangeKeys_dom W (m : gmap string bool) h d :
  WorldOK W → d ∈ dom m → d ∈ w_rangeKeys W h m.
Proof.
  intros HW Hd. rewrite (HW h m).
  apply elem_of_dom in Hd as [b Hb].
  apply list_elem_of_fmap. exists (d, b). split; [done|].
  by apply elem_of_map_to_list.
Qed.

Lemma Main_GetChangedCharts_fail_closed W Y R cm changedFiles pattern d h :
  WorldOK W → mismatching W Y R pattern d →
  d ∈ dom (chartDirsOf (Main.ChartsDir cm) changedFiles) →
  spec (Main.GetChangedCharts W Y R cm changedFiles pattern) h
       (λ r t, is_err r = true ∧ Forall quiet t).
Proof.
  intros HW Hd Hin. unfold Main.GetChangedCharts. wp. cbv beta. unfold spec. split.
  - eapply Main_scanCharts_fail_closed; [done|]. by apply rangeKeys_dom.
  - apply Main_scanCharts_quiet.
Qed.

Lemma Main_GetChangedFiles_spec W g since pathFilter h :
  spec (Main.GetChangedFiles W g since pathFilter) h
       (λ r t, Forall quiet t ∧
               ∀ files, r = Ok files →
                 ∃ h' args out, w_git W h' (Main.RepoPath g) ("diff" :: "--find-renames" :: "--name-only" :: args) = Ok out ∧
                                files = filesOfDiff out).
Proof.
  unfold Main.GetChangedFiles, Main.runGitCommand.
  destruct (decide (pathFilter ≠ "")); wp; cbv beta; simpl; (split; [trace_done|]).
  all: intros files Hfiles; try done.
  all: match goal with
       | H : match w_git ?W' ?h' ?dir ?args with _ => _ end = Ok _ |- _ =>
           destruct (w_git W' h' dir args) as [out|] eqn:Hout; [|done];
           exists h', (tail (tail (tail args))), out; split; [exact Hout|]
       end.
  all: unfold filesOfDiff; simplify_eq; simpl.
  all: by rewrite ?decide_True, ?decide_False by done.
Qed.

Lemma Internal_scanCharts_fail_closed W Y R m pattern d dirs acc h :
  mismatching W Y R pattern d → d ∈ dirs →
  is_err (Internal.scanCharts W Y R m pattern dirs acc h).1 = true.
Proof.
  intros Hd. revert acc h. induction dirs as [|x dirs IH]; intros acc h Hin.
  { by apply elem_of_nil in Hin. }
  rewrite Internal_scanCharts_cons. cbv zeta.
  destruct (decide (x = d)) as [->|Hne].
  - destruct (Hd h) as [-> _].
    destruct (Internal_getChartInfo_mismatching W Y R m pattern d
                (h ++ [EvStat (chartFileOf d)]) Hd) as (ci & -> & Hv).
    by destruct (VersionMatchesPattern R (Version ci) pattern) as [[|]|e].
  - apply elem_of_cons in Hin as [?|Hin]; [congruence|].
    repeat case_match; try done;
      match goal with
      | H : Internal.scanCharts _ _ _ _ _ _ ?a ?h' = _ |- _ =>
          specialize (IH a h' Hin); by rewrite H in IH
      end.
Qed.

Lemma Internal_scanCharts_quiet W Y R m pattern dirs acc h :
  Forall quietInternal (Internal.scanCharts W Y R m pattern dirs acc h).2.
Proof.
  revert acc h. induction dirs as [|x dirs IH]; intros acc h; [by constructor|].
  rewrite Internal_scanCharts_cons. cbv zeta.
  repeat case_match; try (by repeat constructor);
    match goal with
    | H : Internal.scanCharts _ _ _ _ _ _ ?a ?h' = _ |- _ =>
        specialize (IH a h'); rewrite H in IH; by repeat constructor
    end.
Qed.

Lemma Internal_getChangedCharts_fail_closed W Y R m changedFiles pattern d h :
  WorldOK W → mismatching W Y R pattern d →
  d ∈ dom (chartDirsOf (Internal.chartDir m) changedFiles) →
  spec (Internal.getChangedCharts W Y R m changedFiles pattern) h
       (λ r t, is_err r = true ∧ Forall quietInternal t).
Proof.
  intros HW Hd Hin. unfold Internal.getChangedCharts. wp. cbv beta. unfold spec. split.
  - eapply Internal_scanCharts_fail_closed; [done|]. by apply rangeKeys_dom.
  - apply Internal_scanCharts_quiet.
Qed.

Lemma Internal_GetChangedFiles_spec W baseBranch pathFilter h :
  spec (Internal.GetChangedFiles W baseBranch pathFilter) h
       (λ r t, Forall quietInternal t ∧
               ∀ files, r = Ok files →
                 ∃ h' args out, w_git W h' "" ("diff" :: "--find-renames" :: "--name-only" :: args) = Ok out ∧
                                files = filesOfDiff out).
Proof.
  unfold Internal.GetChangedFiles, Internal.getLatestTag, Internal.fetchTags,
    Internal.GetCurrentBranch, Internal.runGitCommand, Internal.logInfo, Internal.logError.
  destruct (decide (pathFilter ≠ "")); wp; cbv beta; simpl; (split; [trace_done|]).
  all: intros files Hfiles; try done.
  all: simpl in *.
  all: match goal with
       | H : w_git ?W' ?h' ?dir ("diff" :: "--find-renames" :: "--name-only" :: ?args) = Ok ?out |- _ =>
           exists h', args, out; split; [exact H|]
       end.
  all: unfold filesOfDiff; simplify_eq; simpl.
  all: by rewrite ?decide_True, ?decide_False by done.
Qed.

(** ** Fail-closed validation *)

Lemma Main_deleteSpecificReleases_fail_closed W Y R fl d h :
  WorldOK W →
  mismatching W Y R (Main.versionPattern fl) d →
  (∀ h' args out, w_git W h' "." ("diff" :: "--find-renames" :: "--name-only" :: args) = Ok out →
                  d ∈ dom (chartDirsOf (Main.chartDir fl) (filesOfDiff out))) →
  spec (Main.deleteSpecificReleases W Y R fl) h (λ r t, is_err r = true ∧ Forall quiet t).
Proof.
  intros HW Hd Hdiff. unfold Main.deleteSpecificReleases.
  wp; try (split; [done|trace_done]).
  eapply spec_mono; [apply Main_GetLatestTag_quiet|]. intros lt t1 Ht1.
  wp; try (split; [done|trace_done]).
  unfold Main.log at 1. wp.
  eapply spec_mono; [apply Main_GetChangedFiles_spec|]. intros cf t2 [Ht2 Hfiles].
  wp; try (split; [done|trace_done]).
  destruct (Hfiles _ eq_refl) as (h' & args & out & Hout & ->).
  eapply spec_mono;
    [apply (Main_GetChangedCharts_fail_closed W Y R _ _ _ d); [done..|]; eapply Hdiff, Hout|].
  intros cc t3 [Hcc Ht3].
  wp; try (split; [done|trace_done]).
  all: by simplify_eq.
Qed.

Lemma Internal_DeleteChangedCharts_fail_closed W Y R m d h :
  WorldOK W →
  mismatching W Y R (Internal.versionPattern m) d →
  (∀ h' args out, w_git W h' "" ("diff" :: "--find-renames" :: "--name-only" :: args) = Ok out →
                  d ∈ dom (chartDirsOf (Internal.chartDir m) (filesOfDiff out))) →
  spec (Internal.DeleteChangedCharts W Y R m) h
       (λ r t, is_err r = true ∧ Forall quietInternal t).
Proof.
  intros HW Hd Hdiff. unfold Internal.DeleteChangedCharts, Internal.logInfo.
  wp. eapply spec_mono; [apply Internal_GetChangedFiles_spec|]. intros cf t1 [Ht1 Hfiles].
  wp; try (split; [done|trace_done]).
  - destruct (Hfiles _ eq_refl) as (h' & args & out & Hout & ->).
    specialize (Hdiff _ _ _ Hout).
    destruct (filesOfDiff out); [|done]. by apply not_elem_of_empty in Hdiff.
  - destruct (Hfiles _ eq_refl) as (h' & args & out & Hout & ->).
    eapply spec_mono;
      [apply (Internal_getChangedCharts_fail_closed W Y R _ _ _ d); [done..|];
       eapply Hdiff, Hout|].
    intros cc t3 [Hcc Ht3].
    wp; try (split; [done|trace_done]).
    all: by simplify_eq.
Qed.

(** C1.  Fail-closed validation.  If some candidate chart directory holds a
    readable [Chart.yaml] whose version the pattern does not accept, then
    [GetChangedCharts] (and [getChangedCharts] of chart-releaser) returns an
    error, hence no chart list, whatever the order in which the candidates
    are visited; and the delete-changed workflows [deleteSpecificReleases]
    and [DeleteChangedCharts] return an error without a single release, tag
    or index deletion: no deletion call, no file write, no commit or push,
    and in chart-releaser not even the look-up and log lines that announce
    a deletion. *)
Theorem fail_closed (W : World) (Y : Yaml) (R : RegexpEngine) (d : string) :
  WorldOK W →
  (∀ cm changedFiles pattern h,
     mismatching W Y R pattern d →
     d ∈ dom (chartDirsOf (Main.ChartsDir cm) changedFiles) →
     is_err (Main.GetChangedCharts W Y R cm changedFiles pattern h).1 = true) ∧
  (∀ m changedFiles pattern h,
     mismatching W Y R pattern d →
     d ∈ dom (chartDirsOf (Internal.chartDir m) changedFiles) →
     is_err (Internal.getChangedCharts W Y R m changedFiles pattern h).1 = true) ∧
  (∀ fl h,
     mismatching W Y R (Main.versionPattern fl) d →
     (∀ h' args out, w_git W h' "." ("diff" :: "--find-renames" :: "--name-only" :: args) = Ok out →
                     d ∈ dom (chartDirsOf (Main.chartDir fl) (filesOfDiff out))) →
     is_err (Main.deleteSpecificReleases W Y R fl h).1 = true ∧
     Forall quiet (Main.deleteSpecificReleases W Y R fl h).2) ∧
  (∀ m h,
     mismatching W Y R (Internal.versionPattern m) d →
     (∀ h' args out, w_git W h' "" ("diff" :: "--find-renames" :: "--name-only" :: args) = Ok out →
                     d ∈ dom (chartDirsOf (Internal.chartDir m) (filesOfDiff out))) →
     is_err (Internal.DeleteChangedCharts W Y R m h).1 = true ∧
     Forall quietInternal (Internal.DeleteChangedCharts W Y R m h).2).
Proof.
  intros HW. repeat split.
  - intros cm changedFiles pattern h Hd Hin.
    by destruct (Main_GetChangedCharts_fail_closed W Y R cm changedFiles pattern d h).
  - intros m changedFiles pattern h Hd Hin.
    by destruct (Internal_getChangedCharts_fail_closed W Y R m changedFiles pattern d h).
  - by destruct (Main_deleteSpecificReleases_fail_closed W Y R fl d h).
  - by destruct (Main_deleteSpecificReleases_fail_closed W Y R fl d h).
  - by destruct (Internal_DeleteChangedCharts_fail_closed W Y R m d h).
  - by destruct (Internal_DeleteChangedCharts_fail_closed W Y R m d h).
Qed.

Lemma sampleWorld_ok gitAnswer files releases deletion typed :
  WorldOK (sampleWorld gitAnswer files releases deletion typed).
Proof. intros h m. reflexivity. Qed.

Lemma fail_closed_witness :
  let W := sampleWorld gitFeatureBranch releaseFiles [] (Ok tt) "" in
  let run := Main.deleteSpecificReleases W (sampleYaml {| APIVersion := "v1"; Entries := ∅; Generated := "" |})
               RE2Fragment.engine sampleFlags [] in
  is_err run.1 = true ∧ Forall quiet run.2.
Proof.
  intros W run.
  apply (fail_closed W (sampleYaml {| APIVersion := "v1"; Entries := ∅; Generated := "" |})
           RE2Fragment.engine "charts/foo").
  - apply sampleWorld_ok.
  - intros h. split; [reflexivity|].
    exists "foo 1.0.0", {| mdName := "foo"; mdVersion := "1.0.0" |}.
    repeat split; by vm_compute.
  - intros h' args out [= <-]. by vm_compute.
Defined.

(** ** Unreadable manifests *)

Lemma Main_GetChartInfo_Path W Y cm d h c :
  (Main.GetChartInfo W Y cm d h).1 = Ok c → Path c = d.
Proof.
  unfold Main.GetChartInfo. rewrite run_bind. unfold call.
  destruct (w_readFile W h _) as [data|]; [|done].
  destruct (UnmarshalChart Y data); [|done]. by intros [= <-].
Qed.

Lemma Internal_getChartInfo_Path W Y m d h c :
  (Internal.getChartInfo W Y m d h).1 = Ok c → Path c = d.
Proof.
  unfold Internal.getChartInfo. rewrite run_bind. unfold call.
  destruct (w_readFile W h _) as [data|]; [|done].
  destruct (UnmarshalChart Y data); [|done]. by intros [= <-].
Qed.

(** Every chart the scan returns was accumulated before or read by it. *)
Lemma Main_scanCharts_read W Y R cm pattern dirs acc h l c :
  (Main.scanCharts W Y R cm pattern dirs acc h).1 = Ok l → c ∈ l →
  c ∈ acc ∨ ∃ h', (Main.GetChartInfo W Y cm (Path c) h').1 = Ok c.
Proof.
  revert acc h. induction dirs as [|x dirs IH]; intros acc h.
  { simpl. intros [= <-] ?. by left. }
  rewrite Main_scanCharts_cons. cbv zeta.
  destruct (w_stat W h (chartFileOf x));
    [destruct (Main.GetChartInfo W Y cm x (h ++ [EvStat (chartFileOf x)])) as [[ci|e] ti] eqn:Hci;
     cbn [fst]; [destruct (VersionMatchesPattern R (Version ci) pattern) as [[|]|]; [|done..]|]|..].
  2,3,4: match goal with
         | |- context [Main.scanCharts _ _ _ _ _ _ ?a ?h'] =>
             specialize (IH a h'); destruct (Main.scanCharts _ _ _ _ _ _ a h'); exact IH
         end.
  specialize (IH (acc ++ [ci]) (h ++ [EvStat (chartFileOf x); EvReadFile (chartFileOf x);
     EvLog ("Found Helm chart: " +:+ x +:+ " with version " +:+ Version ci) []])).
  destruct (Main.scanCharts _ _ _ _ _ _ _ _). cbn [fst] in *. intros Hl Hc.
  destruct (IH Hl Hc) as [Hin|?]; [|by right].
  apply elem_of_app in Hin as [?|Hin]; [by left|].
  apply list_elem_of_singleton in Hin as ->.
  right. exists (h ++ [EvStat (chartFileOf x)]).
  assert (Path ci = x) as -> by (eapply Main_GetChartInfo_Path; by rewrite Hci).
  by rewrite Hci.
Qed.

Lemma Internal_scanCharts_read W Y R m pattern dirs acc h l c :
  (Internal.scanCharts W Y R m pattern dirs acc h).1 = Ok l → c ∈ l →
  c ∈ acc ∨ ∃ h', (Internal.getChartInfo W Y m (Path c) h').1 = Ok c.
Proof.
  revert acc h. induction dirs as [|x dirs IH]; intros acc h.
  { simpl. intros [= <-] ?. by left. }
  rewrite Internal_scanCharts_cons. cbv zeta.
  destruct (w_stat W h (chartFileOf x));
    [destruct (Internal.getChartInfo W Y m x (h ++ [EvStat (chartFileOf x)])) as [[ci|e] ti] eqn:Hci;
     cbn [fst]; [destruct (VersionMatchesPattern R (Version ci) pattern) as [[|]|]; [|done..]|]|..].
  2,3,4: match goal with
         | |- context [Internal.scanCharts _ _ _ _ _ _ ?a ?h'] =>
             specialize (IH a h'); destruct (Internal.scanCharts _ _ _ _ _ _ a h'); exact IH
         end.
  specialize (IH (acc ++ [ci]) (h ++ [EvStat (chartFileOf x); EvReadFile (chartFileOf x);
     EvLog "Found Helm chart: %s with version %s" [x; Version ci]])).
  destruct (Internal.scanCharts _ _ _ _ _ _ _ _). cbn [fst] in *. intros Hl Hc.
  destruct (IH Hl Hc) as [Hin|?]; [|by right].
  apply elem_of_app in Hin as [?|Hin]; [by left|].
  apply list_elem_of_singleton in Hin as ->.
  right. exists (h ++ [EvStat (chartFileOf x)]).
  assert (Path ci = x) as -> by (eapply Internal_getChartInfo_Path; by rewrite Hci).
  by rewrite Hci.
Qed.

(** Scanning a list of candidates in two parts: the second part is scanned
    after the first, from the charts found so far, unless the first part
    stopped with an error. *)
Lemma Main_scanCharts_app W Y R cm pattern l1 l2 acc h :
  Main.scanCharts W Y R cm pattern (l1 ++ l2) acc h
  = (let '(r1, t1) := Main.scanCharts W Y R cm pattern l1 acc h in
     match r1 with
     | Err e => (Err e, t1)
     | Ok acc1 =>
         let '(r2, t2) := Main.scanCharts W Y R cm pattern l2 acc1 (h ++ t1) in (r2, t1 ++ t2)
     end).
Proof.
  revert acc h. induction l1 as [|x l1 IH]; intros acc h.
  { simpl. rewrite app_nil_r. by destruct (Main.scanCharts W Y R cm pattern l2 acc h). }
  rewrite <- app_comm_cons, !Main_scanCharts_cons. cbv zeta.
  destruct (w_stat W h (chartFileOf x));
    [destruct (Main.GetChartInfo W Y cm x (h ++ [EvStat (chartFileOf x)])).1 as [ci|e];
     [destruct (VersionMatchesPattern R (Version ci) pattern) as [[|]|]; [|done..]|]|..].
  all: match goal with
       | |- context [Main.scanCharts _ _ _ _ _ (_ ++ _) ?a ?h'] =>
           rewrite (IH a h'); destruct (Main.scanCharts W Y R cm pattern l1 a h') as [[acc1|e1] t1];
           [|done]
       end.
  all: rewrite <- !(assoc_L (++)); cbn [app].
  all: by match goal with
          | |- context [Main.scanCharts _ _ _ _ _ _ ?a ?h'] =>
              destruct (Main.scanCharts W Y R cm pattern l2 a h')
          end.
Qed.

Lemma Internal_scanCharts_app W Y R m pattern l1 l2 acc h :
  Internal.scanCharts W Y R m pattern (l1 ++ l2) acc h
  = (let '(r1, t1) := Internal.scanCharts W Y R m pattern l1 acc h in
     match r1 with
     | Err e => (Err e, t1)
     | Ok acc1 =>
         let '(r2, t2) := Internal.scanCharts W Y R m pattern l2 acc1 (h ++ t1) in
         (r2, t1 ++ t2)
     end).
Proof.
  revert acc h. induction l1 as [|x l1 IH]; intros acc h.
  { simpl. rewrite app_nil_r. by destruct (Internal.scanCharts W Y R m pattern l2 acc h). }
  rewrite <- app_comm_cons, !Internal_scanCharts_cons. cbv zeta.
  destruct (w_stat W h (chartFileOf x));
    [destruct (Internal.getChartInfo W Y m x (h ++ [EvStat (chartFileOf x)])).1 as [ci|e];
     [destruct (VersionMatchesPattern R (Version ci) pattern) as [[|]|]; [|done..]|]|..].
  all: match goal with
       | |- context [Internal.scanCharts _ _ _ _ _ (_ ++ _) ?a ?h'] =>
           rewrite (IH a h');
           destruct (Internal.scanCharts W Y R m pattern l1 a h') as [[acc1|e1] t1]; [|done]
       end.
  all: rewrite <- !(assoc_L (++)); cbn [app].
  all: by match goal with
          | |- context [Internal.scanCharts _ _ _ _ _ _ ?a ?h'] =>
              destruct (Internal.scanCharts W Y R m pattern l2 a h')
          end.
Qed.

(** [GetChangedCharts] on a visiting order in which [d] comes after [pre]
    and before [post]. *)
Lemma Main_GetChangedCharts_skip W Y R cm changedFiles pattern d h pre post acc t1 e :
  w_rangeKeys W h (chartDirsOf (Main.ChartsDir cm) changedFiles) = pre ++ d :: post →
  Main.scanCharts W Y R cm pattern pre [] h = (Ok acc, t1) →
  w_stat W (h ++ t1) (chartFileOf d) = StatOk →
  (Main.GetChartInfo W Y cm d (h ++ t1 ++ [EvStat (chartFileOf d)])).1 = Err e →
  let t0 := [EvStat (chartFileOf d); EvReadFile (chartFileOf d);
             EvLog ("Error getting chart info for " +:+ d +:+ ": " +:+ e) []] in
  Main.GetChangedCharts W Y R cm changedFiles pattern h
  = (let '(r, t) := Main.scanCharts W Y R cm pattern post acc (h ++ t1 ++ t0) in
     (r, t1 ++ t0 ++ t)).
Proof.
  intros Hkeys Hpre Hstat Hinfo t0. unfold Main.GetChangedCharts.
  rewrite run_bind. unfold ask. rewrite Hkeys, app_nil_r, Main_scanCharts_app, Hpre.
  rewrite Main_scanCharts_cons. cbv zeta. rewrite Hstat, <- (assoc_L (++)), Hinfo.
  fold t0. rewrite <- !(assoc_L (++)).
  destruct (Main.scanCharts W Y R cm pattern post acc _) as [r t]. done.
Qed.

Lemma Internal_getChangedCharts_skip W Y R m changedFiles pattern d h pre post acc t1 e :
  w_rangeKeys W h (chartDirsOf (Internal.chartDir m) changedFiles) = pre ++ d :: post →
  Internal.scanCharts W Y R m pattern pre [] h = (Ok acc, t1) →
  w_stat W (h ++ t1) (chartFileOf d) = StatOk →
  (Internal.getChartInfo W Y m d (h ++ t1 ++ [EvStat (chartFileOf d)])).1 = Err e →
  let t0 := [EvStat (chartFileOf d); EvReadFile (chartFileOf d);
             EvLog "Error getting chart info for %s: %v" [d; e]] in
  Internal.getChangedCharts W Y R m changedFiles pattern h
  = (let '(r, t) := Internal.scanCharts W Y R m pattern post acc (h ++ t1 ++ t0) in
     (r, t1 ++ t0 ++ t)).
Proof.
  intros Hkeys Hpre Hstat Hinfo t0. unfold Internal.getChangedCharts.
  rewrite run_bind. unfold ask. rewrite Hkeys, app_nil_r, Internal_scanCharts_app, Hpre.
  rewrite Internal_scanCharts_cons. cbv zeta. rewrite Hstat, <- (assoc_L (++)), Hinfo.
  fold t0. rewrite <- !(assoc_L (++)).
  destruct (Internal.scanCharts W Y R m pattern post acc _) as [r t]. done.
Qed.

(** A run of [GetChangedCharts] that returns a list has logged the error
    of every unreadable candidate. *)
Lemma Main_GetChangedCharts_logged W Y R cm changedFiles pattern d h l :
  WorldOK W →
  d ∈ dom (chartDirsOf (Main.ChartsDir cm) changedFiles) →
  (∀ h', w_stat W h' (chartFileOf d) = StatOk) →
  (∀ h', is_err (Main.GetChartInfo W Y cm d h').1 = true) →
  (Main.GetChangedCharts W Y R cm changedFiles pattern h).1 = Ok l →
  ∃ e, EvLog ("Error getting chart info for " +:+ d +:+ ": " +:+ e) []
       ∈ (Main.GetChangedCharts W Y R cm changedFiles pattern h).2.
Proof.
  intros HW Hd Hstat Hbad Hl.
  pose proof (rangeKeys_dom W _ h d HW Hd) as Hin.
  apply list_elem_of_split in Hin as (pre & post & Hkeys).
  destruct (Main.scanCharts W Y R cm pattern pre [] h) as [[acc|e1] t1] eqn:Hpre.
  - specialize (Hbad (h ++ t1 ++ [EvStat (chartFileOf d)])).
    destruct (Main.GetChartInfo W Y cm d _).1 as [ci|e] eqn:Hinfo; [done|].
    exists e. rewrite (Main_GetChangedCharts_skip W Y R cm changedFiles pattern d h pre post
                         acc t1 e Hkeys Hpre (Hstat _) Hinfo).
    destruct (Main.scanCharts W Y R cm pattern post acc _) as [r t]. cbn [snd].
    apply elem_of_app. right. apply elem_of_app. left. set_solver.
  - exfalso. unfold Main.GetChangedCharts in Hl. rewrite run_bind in Hl. unfold ask in Hl.
    rewrite Hkeys, app_nil_r, Main_scanCharts_app, Hpre in Hl. done.
Qed.

Lemma Internal_getChangedCharts_logged W Y R m changedFiles pattern d h l :
  WorldOK W →
  d ∈ dom (chartDirsOf (Internal.chartDir m) changedFiles) →
  (∀ h', w_stat W h' (chartFileOf d) = StatOk) →
  (∀ h', is_err (Internal.getChartInfo W Y m d h').1 = true) →
  (Internal.getChangedCharts W Y R m changedFiles pattern h).1 = Ok l →
  ∃ e, EvLog "Error getting chart info for %s: %v" [d; e]
       ∈ (Internal.getChangedCharts W Y R m changedFiles pattern h).2.
Proof.
  intros HW Hd Hstat Hbad Hl.
  pose proof (rangeKeys_dom W _ h d HW Hd) as Hin.
  apply list_elem_of_split in Hin as (pre & post & Hkeys).
  destruct (Internal.scanCharts W Y R m pattern pre [] h) as [[acc|e1] t1] eqn:Hpre.
  - specialize (Hbad (h ++ t1 ++ [EvStat (chartFileOf d)])).
    destruct (Internal.getChartInfo W Y m d _).1 as [ci|e] eqn:Hinfo; [done|].
    exists e. rewrite (Internal_getChangedCharts_skip W Y R m changedFiles pattern d h pre post
                         acc t1 e Hkeys Hpre (Hstat _) Hinfo).
    destruct (Internal.scanCharts W Y R m pattern post acc _) as [r t]. cbn [snd].
    apply elem_of_app. right. apply elem_of_app. left. set_solver.
  - exfalso. unfold Internal.getChangedCharts in Hl. rewrite run_bind in Hl. unfold ask in Hl.
    rewrite Hkeys, app_nil_r, Internal_scanCharts_app, Hpre in Hl. done.
Qed.

(** C10.  A candidate chart directory whose [Chart.yaml] exists but cannot
    be read or parsed is skipped.  The iteration of the scan on it logs the
    error and goes on with the remaining candidates and the same list of
    charts, the pattern not being consulted; alone, it makes the scan
    return the charts found so far and no error.  For [GetChangedCharts]
    itself, in whatever order the candidates are visited: once the
    candidates before it are scanned, the run logs the error and is then the
    scan of the candidates after it, from the charts found before it; a run
    that returns a list has logged the error of every such candidate, and
    the list holds no chart of such a directory.  The same holds for
    [getChangedCharts] of chart-releaser. *)
Theorem unreadable_chart_skipped (W : World) (Y : Yaml) (R : RegexpEngine) (d : string) :
  (∀ cm pattern rest acc h e,
     w_stat W h (chartFileOf d) = StatOk →
     (Main.GetChartInfo W Y cm d (h ++ [EvStat (chartFileOf d)])).1 = Err e →
     let t0 := [EvStat (chartFileOf d); EvReadFile (chartFileOf d);
                EvLog ("Error getting chart info for " +:+ d +:+ ": " +:+ e) []] in
     Main.scanCharts W Y R cm pattern (d :: rest) acc h
     = (let '(r, t) := Main.scanCharts W Y R cm pattern rest acc (h ++ t0) in (r, t0 ++ t)) ∧
     Main.scanCharts W Y R cm pattern [d] acc h = (Ok acc, t0)) ∧
  (∀ m pattern rest acc h e,
     w_stat W h (chartFileOf d) = StatOk →
     (Internal.getChartInfo W Y m d (h ++ [EvStat (chartFileOf d)])).1 = Err e →
     let t0 := [EvStat (chartFileOf d); EvReadFile (chartFileOf d);
                EvLog "Error getting chart info for %s: %v" [d; e]] in
     Internal.scanCharts W Y R m pattern (d :: rest) acc h
     = (let '(r, t) := Internal.scanCharts W Y R m pattern rest acc (h ++ t0) in (r, t0 ++ t)) ∧
     Internal.scanCharts W Y R m pattern [d] acc h = (Ok acc, t0)) ∧
  (∀ cm changedFiles pattern h l,
     (∀ h', is_err (Main.GetChartInfo W Y cm d h').1 = true) →
     (Main.GetChangedCharts W Y R cm changedFiles pattern h).1 = Ok l →
     ∀ c, c ∈ l → Path c ≠ d) ∧
  (∀ m changedFiles pattern h l,
     (∀ h', is_err (Internal.getChartInfo W Y m d h').1 = true) →
     (Internal.getChangedCharts W Y R m changedFiles pattern h).1 = Ok l →
     ∀ c, c ∈ l → Path c ≠ d) ∧
  (∀ cm changedFiles pattern h pre post acc t1 e,
     w_rangeKeys W h (chartDirsOf (Main.ChartsDir cm) changedFiles) = pre ++ d :: post →
     Main.scanCharts W Y R cm pattern pre [] h = (Ok acc, t1) →
     w_stat W (h ++ t1) (chartFileOf d) = StatOk →
     (Main.GetChartInfo W Y cm d (h ++ t1 ++ [EvStat (chartFileOf d)])).1 = Err e →
     let t0 := [EvStat (chartFileOf d); EvReadFile (chartFileOf d);
                EvLog ("Error getting chart info for " +:+ d +:+ ": " +:+ e) []] in
     Main.GetChangedCharts W Y R cm changedFiles pattern h
     = (let '(r, t) := Main.scanCharts W Y R cm pattern post acc (h ++ t1 ++ t0) in
        (r, t1 ++ t0 ++ t))) ∧
  (∀ m changedFiles pattern h pre post acc t1 e,
     w_rangeKeys W h (chartDirsOf (Internal.chartDir m) changedFiles) = pre ++ d :: post →
     Internal.scanCharts W Y R m pattern pre [] h = (Ok acc, t1) →
     w_stat W (h ++ t1) (chartFileOf d) = StatOk →
     (Internal.getChartInfo W Y m d (h ++ t1 ++ [EvStat (chartFileOf d)])).1 = Err e →
     let t0 := [EvStat (chartFileOf d); EvReadFile (chartFileOf d);
                EvLog "Error getting chart info for %s: %v" [d; e]] in
     Internal.getChangedCharts W Y R m changedFiles pattern h
     = (let '(r, t) := Internal.scanCharts W Y R m pattern post acc (h ++ t1 ++ t0) in
        (r, t1 ++ t0 ++ t))) ∧
  (∀ cm changedFiles pattern h l,
     WorldOK W →
     d ∈ dom (chartDirsOf (Main.ChartsDir cm) changedFiles) →
     (∀ h', w_stat W h' (chartFileOf d) = StatOk) →
     (∀ h', is_err (Main.GetChartInfo W Y cm d h').1 = true) →
     (Main.GetChangedCharts W Y R cm changedFiles pattern h).1 = Ok l →
     (∃ e, EvLog ("Error getting chart info for " +:+ d +:+ ": " +:+ e) []
           ∈ (Main.GetChangedCharts W Y R cm changedFiles pattern h).2) ∧
     ∀ c, c ∈ l → Path c ≠ d) ∧
  (∀ m changedFiles pattern h l,
     WorldOK W →
     d ∈ dom (chartDirsOf (Internal.chartDir m) changedFiles) →
     (∀ h', w_stat W h' (chartFileOf d) = StatOk) →
     (∀ h', is_err (Internal.getChartInfo W Y m d h').1 = true) →
     (Internal.getChangedCharts W Y R m changedFiles pattern h).1 = Ok l →
     (∃ e, EvLog "Error getting chart info for %s: %v" [d; e]
           ∈ (Internal.getChangedCharts W Y R m changedFiles pattern h).2) ∧
     ∀ c, c ∈ l → Path c ≠ d).
Proof.
  assert (∀ cm changedFiles pattern h l,
            (∀ h', is_err (Main.GetChartInfo W Y cm d h').1 = true) →
            (Main.GetChangedCharts W Y R cm changedFiles pattern h).1 = Ok l →
            ∀ c, c ∈ l → Path c ≠ d) as HM.
  { intros cm changedFiles pattern h l Hbad Hl c Hc <-.
    unfold Main.GetChangedCharts in Hl. rewrite run_bind in Hl. unfold ask in Hl.
    destruct (Main.scanCharts W Y R cm pattern _ [] (h ++ [])) as [r t] eqn:Hscan.
    cbn [fst] in Hl. subst r.
    destruct (Main_scanCharts_read W Y R cm pattern _ [] _ l c ltac:(by rewrite Hscan) Hc)
      as [?%elem_of_nil|[h' Hh']]; [done|].
    specialize (Hbad h'). by rewrite Hh' in Hbad. }
  assert (∀ m changedFiles pattern h l,
            (∀ h', is_err (Internal.getChartInfo W Y m d h').1 = true) →
            (Internal.getChangedCharts W Y R m changedFiles pattern h).1 = Ok l →
            ∀ c, c ∈ l → Path c ≠ d) as HI.
  { intros m changedFiles pattern h l Hbad Hl c Hc <-.
    unfold Internal.getChangedCharts in Hl. rewrite run_bind in Hl. unfold ask in Hl.
    destruct (Internal.scanCharts W Y R m pattern _ [] (h ++ [])) as [r t] eqn:Hscan.
    cbn [fst] in Hl. subst r.
    destruct (Internal_scanCharts_read W Y R m pattern _ [] _ l c ltac:(by rewrite Hscan) Hc)
      as [?%elem_of_nil|[h' Hh']]; [done|].
    specialize (Hbad h'). by rewrite Hh' in Hbad. }
  split_and!.
  - intros cm pattern rest acc h e Hstat Hinfo t0.
    split; rewrite Main_scanCharts_cons; cbv zeta; by rewrite Hstat, Hinfo.
  - intros m pattern rest acc h e Hstat Hinfo t0.
    split; rewrite Internal_scanCharts_cons; cbv zeta; by rewrite Hstat, Hinfo.
  - exact HM.
  - exact HI.
  - intros cm changedFiles pattern h pre post acc t1 e Hk Hp Hs Hi.
    exact (Main_GetChangedCharts_skip W Y R cm changedFiles pattern d h pre post acc t1 e
             Hk Hp Hs Hi).
  - intros m changedFiles pattern h pre post acc t1 e Hk Hp Hs Hi.
    exact (Internal_getChangedCharts_skip W Y R m changedFiles pattern d h pre post acc t1 e
             Hk Hp Hs Hi).
  - intros cm changedFiles pattern h l HW Hd Hstat Hbad Hl. split.
    + by eapply Main_GetChangedCharts_logged.
    + by eapply HM.
  - intros m changedFiles pattern h l HW Hd Hstat Hbad Hl. split.
    + by eapply Internal_getChangedCharts_logged.
    + by eapply HI.
Qed.

Lemma unreadable_chart_skipped_witness :
  let W := sampleWorld gitFeatureBranch mixedFiles [] (Ok tt) "" in
  let Y := sampleYaml {| APIVersion := "v1"; Entries := ∅; Generated := "" |} in
  let cm := Main.NewChartManager "charts" in
  let changedFiles := ["charts/foo/Chart.yaml"; "charts/bar/values.yaml"] in
  (Main.GetChangedCharts W Y RE2Fragment.engine cm changedFiles "^0\.0\.0-dev$" []).1
  = Ok [{| Path := "charts/bar"; Name := "bar"; Version := "0.0.0-dev" |}] ∧
  (∃ e, EvLog ("Error getting chart info for " +:+ "charts/foo" +:+ ": " +:+ e) []
        ∈ (Main.GetChangedCharts W Y RE2Fragment.engine cm changedFiles "^0\.0\.0-dev$" []).2) ∧
  ∀ c, c ∈ [{| Path := "charts/bar"; Name := "bar"; Version := "0.0.0-dev" |}] →
       Path c ≠ "charts/foo".
Proof.
  intros W Y cm changedFiles.
  assert ((Main.GetChangedCharts W Y RE2Fragment.engine cm changedFiles "^0\.0\.0-dev$" []).1
          = Ok [{| Path := "charts/bar"; Name := "bar"; Version := "0.0.0-dev" |}]) as Hrun
    by (by vm_compute).
  split; [exact Hrun|].
  apply (proj1 (proj2 (proj2 (proj2 (proj2 (proj2 (proj2
           (unreadable_chart_skipped W Y RE2Fragment.engine "charts/foo")))))))
           cm changedFiles "^0\.0\.0-dev$" []).
  - apply sampleWorld_ok.
  - apply elem_of_dom. exists true. by vm_compute.
  - intros h'. reflexivity.
  - intros h'. reflexivity.
  - exact Hrun.
Defined.

(** ** Delete-all *)

Ltac run_simpl :=
  repeat first [ rewrite run_bind
               | progress unfold call, ask
               | progress cbn [mret M_ret fst snd app] ];
  rewrite ?app_nil_r, <- ?(assoc_L (++)); cbn [app].

Lemma forEach_cons_run {A} (f : A → M unit) x l h :
  (forEach f (x :: l) h).2 = (f x h).2 ++ (forEach f l (h ++ (f x h).2)).2.
Proof.
  cbn [forEach]. rewrite run_bind. destruct (f x h) as [u t1]. cbn [snd].
  by destruct (forEach f l (h ++ t1)).
Qed.

Lemma forEach_app_run {A} (f : A → M unit) l1 l2 h :
  (forEach f (l1 ++ l2) h).2
  = (forEach f l1 h).2 ++ (forEach f l2 (h ++ (forEach f l1 h).2)).2.
Proof.
  revert h. induction l1 as [|x l1 IH]; intros h.
  - simpl. by rewrite app_nil_r.
  - rewrite <- app_comm_cons, !forEach_cons_run, IH, <- !(assoc_L (++)). done.
Qed.

Lemma Main_deleteOneRelease_run W fl release h :
  let name := relName release in
  let tag := relTagName release in
  let t1 := EvDeleteRelease (relID release) name
            :: match w_deleteRelease W h (relID release) name with
               | Err e => [EvLog ("Failed to delete release " +:+ name +:+ ": " +:+ e) []]
               | Ok _ => []
               end in
  (Main.deleteOneRelease W fl release h).2
  = t1 ++ (if Main.withTags fl && bool_decide (tag ≠ "")
           then EvDeleteTag tag
                :: match w_deleteTag W (h ++ t1) tag with
                   | Err e => [EvLog ("Failed to delete tag " +:+ tag +:+ ": " +:+ e) []]
                   | Ok _ => []
                   end
           else []).
Proof.
  intros name tag t1. subst t1 name tag. unfold Main.deleteOneRelease, Main.log.
  rewrite !run_bind. unfold call at 1.
  destruct (w_deleteRelease W h (relID release) (relName release)) as [[]|e];
    destruct (Main.withTags fl && bool_decide (relTagName release ≠ ""));
    run_simpl; try done.
  - by destruct (w_deleteTag W _ _) as [[]|e'].
  - by destruct (w_deleteTag W _ _) as [[]|e'].
Qed.

Lemma Main_deleteOneRelease_calls W fl release h :
  List.filter isDeletionCall (Main.deleteOneRelease W fl release h).2 = deletionCallsOf fl release.
Proof.
  rewrite Main_deleteOneRelease_run. cbv zeta. unfold deletionCallsOf.
  destruct (w_deleteRelease W h _ _) as [[]|e];
    destruct (Main.withTags fl && bool_decide (relTagName release ≠ "")); simpl; try done;
    by destruct (w_deleteTag W _ _) as [[]|e'].
Qed.

Lemma Main_forEach_delete_calls W fl releases h :
  List.filter isDeletionCall (forEach (Main.deleteOneRelease W fl) releases h).2
  = releases ≫= deletionCallsOf fl.
Proof.
  revert h. induction releases as [|r releases IH]; intros h; [done|].
  rewrite forEach_cons_run, List.filter_app, Main_deleteOneRelease_calls, IH. done.
Qed.

Lemma Main_failed_deletion_logged W fl pre r post h e :
  w_deleteRelease W (h ++ (forEach (Main.deleteOneRelease W fl) pre h).2)
                  (relID r) (relName r) = Err e →
  EvLog ("Failed to delete release " +:+ relName r +:+ ": " +:+ e) []
  ∈ (forEach (Main.deleteOneRelease W fl) (pre ++ r :: post) h).2.
Proof.
  intros He. rewrite forEach_app_run, forEach_cons_run, Main_deleteOneRelease_run.
  cbv zeta. rewrite He.
  apply elem_of_app. right. apply elem_of_app. left. apply elem_of_app. left.
  right. left.
Qed.

Lemma spec_any {A} (m : M A) h : spec m h (λ _ _, True).
Proof. done. Qed.

Ltac wp_skip := eapply spec_mono; [apply spec_any|intros ? ? _].

Ltac leaf tac := lazymatch goal with |- spec _ _ _ => idtac | _ => tac end.

Lemma Main_deleteAllReleases_error_early W Y fl h :
  spec (Main.deleteAllReleases W Y fl) h (λ r t, is_err r = true → Forall quiet t).
Proof.
  unfold Main.deleteAllReleases, Main.confirmAction, Main.log.
  wp; leaf ltac:(try done; intros _; trace_done).
  all: wp_skip; wp; leaf ltac:(done).
  all: wp_skip; wp; done.
Qed.

Lemma Internal_deleteEach_cons del r l errs h :
  Internal.deleteEach del (r :: l) errs h =
  let '(d, t1) := del (relID r) h in
  match d with
  | Err e =>
      let tl := [EvLog ("Failed to delete release " +:+ relTagName r +:+ ": " +:+ e) []] in
      let '(es, t2) := Internal.deleteEach del l (errs ++ [e]) (h ++ t1 ++ tl) in
      (es, t1 ++ tl ++ t2)
  | Ok _ =>
      let '(es, t2) := Internal.deleteEach del l errs (h ++ t1) in (es, t1 ++ t2)
  end.
Proof.
  cbn [Internal.deleteEach]. rewrite run_bind. destruct (del (relID r) h) as [[[]|e] t1].
  - done.
  - rewrite run_bind. unfold Internal.log, call. cbv zeta.
    rewrite <- (assoc_L (++) h). by destruct (Internal.deleteEach del l _ _).
Qed.

Lemma Internal_deleteEach_errs del l errs h :
  Internal.deleteEach del l errs h
  = (errs ++ (Internal.deleteEach del l [] h).1, (Internal.deleteEach del l [] h).2).
Proof.
  revert errs h. induction l as [|r l IH]; intros errs h.
  - simpl. by rewrite app_nil_r.
  - rewrite !Internal_deleteEach_cons. destruct (del (relID r) h) as [[[]|e] t1]; cbv zeta.
    + rewrite (IH errs). by destruct (Internal.deleteEach del l [] _).
    + rewrite (IH (errs ++ [e])), (IH ([] ++ [e])).
      destruct (Internal.deleteEach del l [] _). cbn [fst snd]. by rewrite <- (assoc_L (++)).
Qed.

Lemma Internal_deleteEach_app del l1 l2 h :
  (Internal.deleteEach del (l1 ++ l2) [] h).2
  = (Internal.deleteEach del l1 [] h).2
    ++ (Internal.deleteEach del l2 [] (h ++ (Internal.deleteEach del l1 [] h).2)).2.
Proof.
  revert h. induction l1 as [|r l1 IH]; intros h.
  - simpl. by rewrite app_nil_r.
  - rewrite <- app_comm_cons, !Internal_deleteEach_cons.
    destruct (del (relID r) h) as [[[]|e] t1]; cbv zeta.
    + specialize (IH (h ++ t1)).
      destruct (Internal.deleteEach del (l1 ++ l2) [] _),
               (Internal.deleteEach del l1 [] (h ++ t1)). cbn [fst snd] in *.
      by rewrite IH, <- !(assoc_L (++)).
    + rewrite (Internal_deleteEach_errs del (l1 ++ l2)), (Internal_deleteEach_errs del l1).
      cbn [fst snd]. specialize (IH (h ++ t1 ++ [EvLog
        ("Failed to delete release " +:+ relTagName r +:+ ": " +:+ e) []])).
      rewrite IH, <- !(assoc_L (++)). done.
Qed.

(** Every release gets its deletion, whatever happened to the ones before. *)
Lemma Internal_deleteEach_attempts del pre rel post h :
  let t_pre := (Internal.deleteEach del pre [] h).2 in
  ∃ t_post, (Internal.deleteEach del (pre ++ rel :: post) [] h).2
            = t_pre ++ (del (relID rel) (h ++ t_pre)).2 ++ t_post.
Proof.
  intros t_pre. rewrite Internal_deleteEach_app. fold t_pre.
  rewrite Internal_deleteEach_cons.
  destruct (del (relID rel) (h ++ t_pre)) as [[[]|e] t1]; cbv zeta.
  - destruct (Internal.deleteEach del post [] _) as [es t2]. by exists t2.
  - destruct (Internal.deleteEach del post _ _) as [es t2]. cbn [snd]. by eexists.
Qed.

Lemma Internal_deleteEach_failed del releases h :
  (Internal.deleteEach del releases [] h).1 ≠ [] ↔
  ∃ pre rel post, releases = pre ++ rel :: post ∧
    is_err (del (relID rel) (h ++ (Internal.deleteEach del pre [] h).2)).1 = true.
Proof.
  revert h. induction releases as [|r l IH]; intros h.
  { simpl. split; [done|]. intros (pre & rel & post & Heq & _). by destruct pre. }
  rewrite Internal_deleteEach_cons.
  destruct (del (relID r) h) as [[[]|e] t1] eqn:Hdel; cbv zeta.
  - specialize (IH (h ++ t1)).
    destruct (Internal.deleteEach del l [] (h ++ t1)) as [es t2] eqn:Hl. cbn [fst] in *.
    rewrite IH. split.
    + intros (pre & rel & post & -> & Hfail). exists (r :: pre), rel, post. split; [done|].
      rewrite Internal_deleteEach_cons, Hdel.
      destruct (Internal.deleteEach del pre [] (h ++ t1)) as [es' t'] eqn:Hpre.
      cbn [snd] in *. by rewrite (assoc_L (++)).
    + intros ([|r' pre] & rel & post & Heq & Hfail).
      { injection Heq as <- <-. cbn [Internal.deleteEach mret M_ret snd] in Hfail.
        rewrite app_nil_r, Hdel in Hfail. done. }
      rewrite <- app_comm_cons in Heq. injection Heq as <- ->.
      exists pre, rel, post. split; [done|].
      rewrite Internal_deleteEach_cons, Hdel in Hfail.
      destruct (Internal.deleteEach del pre [] (h ++ t1)) as [es' t'] eqn:Hpre.
      cbn [snd] in *. by rewrite (assoc_L (++)) in Hfail.
  - rewrite Internal_deleteEach_errs. cbn [fst]. split.
    + intros _. exists [], r, l. split; [done|]. simpl. by rewrite app_nil_r, Hdel.
    + intros _. by destruct (Internal.deleteEach del l [] _).1.
Qed.

Lemma Internal_deleteListed_error del releases h :
  is_err (Internal.deleteListed del releases h).1 = true ↔
  ∃ pre rel post, releases = pre ++ rel :: post ∧
    is_err (del (relID rel) (h ++ (Internal.deleteEach del pre [] h).2)).1 = true.
Proof.
  rewrite <- Internal_deleteEach_failed. unfold Internal.deleteListed.
  destruct (decide (length releases = 0)) as [Hnil|Hne].
  - apply nil_length_inv in Hnil as ->. by split.
  - rewrite run_bind.
    destruct (Internal.deleteEach del releases [] h) as [errors t] eqn:He. cbn [fst].
    destruct errors as [|e errors]; simpl; split; done.
Qed.

Lemma Internal_DeleteRelease_ok gh releaseID h :
  (Internal.DeleteRelease gh releaseID h).1 = Ok tt.
Proof. reflexivity. Qed.

(** C8, as stated, fails for package main: both deletions of the run below
    fail, are logged, and [deleteAllReleases] still returns nil. *)
Lemma deleteAllReleases_swallows_failures :
  Main.deleteAllReleases failingWorld (sampleYaml sample_index) deleteAllFlags []
  = (Ok tt,
     [EvNewChartReleaseManager "zncdatadev/kubedoop-helm-charts";
      EvCheckAuthentication; EvGetAllReleases;
      EvLog "Associated tags will also be deleted." [];
      EvPrint "Are you sure you want to proceed? [y/N] "; EvScanln;
      EvDeleteRelease 1 "foo-0.0.0-dev";
      EvLog "Failed to delete release foo-0.0.0-dev: 403 Forbidden" [];
      EvDeleteTag "foo-0.0.0-dev";
      EvLog "Failed to delete tag foo-0.0.0-dev: 403 Forbidden" [];
      EvDeleteRelease 2 "bar-0.0.0-dev";
      EvLog "Failed to delete release bar-0.0.0-dev: 403 Forbidden" [];
      EvDeleteTag "bar-0.0.0-dev";
      EvLog "Failed to delete tag bar-0.0.0-dev: 403 Forbidden" []]).
Proof. by vm_compute. Qed.

(** ** The diff baseline, from the answers of git *)

(** The whole run of [GetLatestTag], from the answers of git. *)
Lemma Main_GetLatestTag_run W g baseBranch h :
  let dir := Main.RepoPath g in
  let fetch := ["fetch"; "--tags"] in
  let revParse := ["rev-parse"; "--abbrev-ref"; "HEAD"] in
  let describe := ["describe"; "--tags"; "--abbrev=0"; "HEAD~"] in
  let revList := ["rev-list"; "--max-parents=0"; "--first-parent"; "HEAD"] in
  let mergeBase := ["merge-base"; "HEAD"; baseBranch] in
  let fetched :=
    EvGit dir fetch
    :: match w_git W h dir fetch with
       | Err e => [EvLog ("Failed to fetch tags from remote: git command failed: " +:+ e) []]
       | Ok _ => []
       end in
  let h1 := h ++ fetched in
  let h2 := h1 ++ [EvGit dir revParse] in
  let h3 := h2 ++ [EvGit dir describe] in
  Main.GetLatestTag W g baseBranch h
  = match w_git W h1 dir revParse with
    | Err e =>
        (Err ("failed to get current branch: git command failed: " +:+ e),
         fetched ++ [EvGit dir revParse])
    | Ok branch =>
        match w_git W h2 dir describe with
        | Ok tag => (Ok (strings_TrimSpace tag), fetched ++ [EvGit dir revParse; EvGit dir describe])
        | Err _ =>
            let fallback :=
              if decide (strings_TrimSpace branch = baseBranch) then revList else mergeBase in
            ((Main.runGitCommand W g fallback h3).1,
             fetched ++ [EvGit dir revParse; EvGit dir describe; EvGit dir fallback])
        end
    end.
Proof.
  cbv zeta.
  unfold Main.GetLatestTag, Main.FetchTags, Main.GetCurrentBranch, Main.runGitCommand, Main.log.
  run_simpl.
  destruct (w_git W h _ _) as [out0|e0]; run_simpl.
  all: destruct (w_git W _ _ ["rev-parse"; _; _]) as [branch|e1]; run_simpl; [|done].
  all: destruct (w_git W _ _ ["describe"; _; _; _]) as [tag|e2]; run_simpl; [done|].
  all: destruct (decide (strings_TrimSpace branch = baseBranch)); run_simpl; done.
Qed.

(** C7, as stated, fails when the current branch cannot be determined:
    [GetLatestTag] asks for it before anything else and gives up, although
    [git describe] would have found a tag. *)
Lemma GetLatestTag_needs_current_branch :
  let W := sampleWorld gitNoBranch (λ _, None) [] (Ok tt) "" in
  (∀ h, w_git W h "." ["describe"; "--tags"; "--abbrev=0"; "HEAD~"] = Ok "v1.2.0
") ∧
  Main.GetLatestTag W (Main.NewGit ".") "main" []
  = (Err "failed to get current branch: git command failed: exit status 128",
     [EvGit "." ["fetch"; "--tags"]; EvGit "." ["rev-parse"; "--abbrev-ref"; "HEAD"]]).
Proof. split; [done|by vm_compute]. Qed.

(** C7, amended.  [GetLatestTag] first asks git for the current branch and
    returns an error when that fails.  Otherwise it returns the trimmed
    output of [git describe --tags --abbrev=0 HEAD~] when that command
    succeeds; when it fails, it returns what
    [git rev-list --max-parents=0 --first-parent HEAD] gives if the current
    branch is the base branch, and what [git merge-base HEAD <base>] gives
    otherwise: the trimmed output, or the error of the command. *)
Theorem GetLatestTag_resolution (W : World) (g : Main.Git) (baseBranch : string)
        (h : History) :
  let dir := Main.RepoPath g in
  let revParse := ["rev-parse"; "--abbrev-ref"; "HEAD"] in
  let describe := ["describe"; "--tags"; "--abbrev=0"; "HEAD~"] in
  let revList := ["rev-list"; "--max-parents=0"; "--first-parent"; "HEAD"] in
  let mergeBase := ["merge-base"; "HEAD"; baseBranch] in
  let h1 := h ++ (Main.FetchTags W g h).2 in
  let h2 := h1 ++ [EvGit dir revParse] in
  let h3 := h2 ++ [EvGit dir describe] in
  let answer args :=
    match w_git W h3 dir args with
    | Ok output => Ok (strings_TrimSpace output)
    | Err e => Err ("git command failed: " +:+ e)
    end in
  (Main.GetLatestTag W g baseBranch h).1
  = match w_git W h1 dir revParse with
    | Err e => Err ("failed to get current branch: git command failed: " +:+ e)
    | Ok branch =>
        match w_git W h2 dir describe with
        | Ok tag => Ok (strings_TrimSpace tag)
        | Err _ =>
            if decide (strings_TrimSpace branch = baseBranch)
            then answer revList else answer mergeBase
        end
    end.
Proof.
  cbv zeta.
  assert ((Main.FetchTags W g h).2
          = EvGit (Main.RepoPath g) ["fetch"; "--tags"]
            :: match w_git W h (Main.RepoPath g) ["fetch"; "--tags"] with
               | Err e => [EvLog ("Failed to fetch tags from remote: git command failed: "
                                  +:+ e) []]
               | Ok _ => []
               end) as Hfetch.
  { unfold Main.FetchTags, Main.log. rewrite run_bind, Main_runGitCommand_run.
    by destruct (w_git W h _ _). }
  rewrite Hfetch, Main_GetLatestTag_run. cbv zeta.
  destruct (w_git W _ _ ["rev-parse"; _; _]) as [branch|e1]; [|done].
  destruct (w_git W _ _ ["describe"; _; _; _]) as [tag|e2]; [done|].
  destruct (decide (strings_TrimSpace branch = baseBranch)); by rewrite Main_runGitCommand_run.
Qed.

Lemma GetLatestTag_resolution_witness :
  let W := sampleWorld gitFeatureBranch (λ _, None) [] (Ok tt) "" in
  (Main.GetLatestTag W (Main.NewGit ".") "main" []).1 = Ok "4f2a9c0" ∧
  (Main.GetLatestTag W (Main.NewGit ".") "feature" []).1 = Ok "0a1b2c3" ∧
  (Main.GetLatestTag (sampleWorld gitNoBranch (λ _, None) [] (Ok tt) "") (Main.NewGit ".")
     "main" []).1
  = Err "failed to get current branch: git command failed: exit status 128".
Proof.
  intros W. split; [|split].
  - rewrite (GetLatestTag_resolution W (Main.NewGit ".") "main" []). by vm_compute.
  - rewrite (GetLatestTag_resolution W (Main.NewGit ".") "feature" []). by vm_compute.
  - rewrite (GetLatestTag_resolution (sampleWorld gitNoBranch (λ _, None) [] (Ok tt) "")
               (Main.NewGit ".") "main" []). by vm_compute.
Defined.

(** ** Write-back of the index *)

Lemma filterVersions_nothing v l :
  (∀ e, e ∈ l → cvVersion e ≠ v) → filterVersions v l = l.
Proof.
  induction l as [|x l IH]; intros Hall; simpl; [done|].
  rewrite decide_True by (apply Hall; by left).
  rewrite IH; [done|]. intros e He. apply Hall. by right.
Qed.

Lemma purge_fixed_cons n c charts l :
  purge n (c :: charts) l = l →
  (Name c = n → filterVersions (Version c) l = l) ∧ purge n charts l = l.
Proof.
  rewrite purge_cons. case_decide as Hc; [|done]. intros Heq.
  assert (filterVersions (Version c) l = l) as Hf.
  { apply filterVersions_same_length.
    pose proof (purge_length n charts (filterVersions (Version c) l)) as H1.
    pose proof (filterVersions_length (Version c) l) as H2.
    rewrite Heq in H1. lia. }
  split; [done|]. by rewrite Hf in Heq.
Qed.

(** When no version list changes, the loop of [CleanMultipleChartIndexes]
    leaves the document and [removedCharts] as they are. *)
Lemma Main_removeLoop_unchanged charts D r logs :
  (∀ n l, Entries D !! n = Some l → purge n charts l = l) →
  ∃ logs', Main.removeLoop charts (D, r) logs = (D, r, logs').
Proof.
  revert logs. induction charts as [|c charts IH]; intros logs Hfix; [by eexists|].
  cbn [Main.removeLoop].
  assert (∃ out, Main.removeChartVersion c (D, r) = (D, r, out)) as [out ->].
  { unfold Main.removeChartVersion.
    destruct (Entries D !! Name c) as [l|] eqn:Hl; [|by eexists].
    destruct (purge_fixed_cons _ _ _ _ (Hfix _ _ Hl)) as [Hf _].
    rewrite Hf by done. rewrite decide_False by (intros ?; done). by eexists. }
  cbv beta iota zeta. apply IH. intros n l Hl.
  by destruct (purge_fixed_cons _ _ _ _ (Hfix _ _ Hl)).
Qed.

Lemma Main_unchanged_purge charts D :
  Entries (Main.removeVersions charts D) = Entries D →
  ∀ n l, Entries D !! n = Some l → purge n charts l = l.
Proof.
  intros Heq n l Hl.
  assert (Entries (Main.removeVersions charts D) !! n = Some l) as Hk by (by rewrite Heq).
  rewrite Main_removeVersions_lookup, Hl in Hk. unfold keptMain in Hk.
  repeat case_decide; congruence.
Qed.

Lemma nothingToRemove_purge charts D :
  nothingToRemove charts D → ∀ n l, Entries D !! n = Some l → purge n charts l = l.
Proof.
  intros Hno n l Hl. induction charts as [|c charts IH]; [done|].
  rewrite purge_cons. case_decide as Hc.
  - rewrite filterVersions_nothing.
    + apply IH. intros c' Hc'. apply Hno. by right.
    + specialize (Hno c ltac:(by left)). rewrite Hc, Hl in Hno. done.
  - apply IH. intros c' Hc'. apply Hno. by right.
Qed.

Lemma Main_removeVersions_nothing charts D :
  nothingToRemove charts D → Main.removeVersions charts D = D.
Proof.
  intros Hno. unfold Main.removeVersions.
  destruct (Main_removeLoop_unchanged charts D [] [] (nothingToRemove_purge _ _ Hno)) as [logs' ->].
  done.
Qed.

Lemma Main_CleanMultipleChartIndexes_no_op W Y cim charts h :
  (∀ h' data D, w_readFile W h' "index.yaml" = Ok data → UnmarshalIndex Y data = Ok D →
                Entries (Main.removeVersions charts D) = Entries D) →
  spec (Main.CleanMultipleChartIndexes W Y cim charts) h (λ _ t, Forall leavesIndexAlone t).
Proof.
  intros Hsame.
  unfold Main.CleanMultipleChartIndexes, Main.PreparePagesBranch, Main.RestoreOriginalBranch,
    Main.loadIndexFile, Main.BranchExists, Main.FetchBranch, Main.CheckoutBranch,
    Main.PullBranch, Main.GetCurrentBranch, Main.runGitCommand, Main.log.
  wp; leaf ltac:(simplify_eq; trace_done).
  all: match goal with
       | Hread : w_readFile _ _ "index.yaml" = Ok ?data,
         Hparse : UnmarshalIndex _ ?data = Ok ?D,
         Hloop : Main.removeLoop _ (?D, []) [] = _ |- _ =>
           destruct (Main_removeLoop_unchanged charts D [] []
                       (Main_unchanged_purge _ _ (Hsame _ _ _ Hread Hparse))) as [logs' Hl];
           rewrite Hl in Hloop; simplify_eq
       end.
  all: eapply spec_mono;
    [apply (spec_forEach _ _ leavesIndexAlone); intros line h' _; apply spec_call; trace_done|].
  all: intros u t Ht; wp; leaf ltac:(simplify_eq; trace_done).
  all: simpl in *; lia.
Qed.

Ltac unfold_index_manager :=
  unfold Internal.CleanEntriesVersions, Internal.preparePagesBranch,
    Internal.restoreOriginalBranch, Internal.loadIndexFile, Internal.writeIndexFile,
    Internal.commitIndexChanges, Internal.HasChanges, Internal.CommitAndPush,
    Internal.BranchExists, Internal.FetchBranch, Internal.CheckoutBranch,
    Internal.PullBranch, Internal.GetCurrentBranch, Internal.runGitCommand,
    Internal.logInfo, Internal.logError.

Lemma Internal_writeIndexFile_writes W Y i indexFile h :
  spec (Internal.writeIndexFile W Y i indexFile) h
       (λ r t, r = Ok tt → ∃ data, EvWriteFile Internal.indexYaml data ∈ t).
Proof.
  unfold Internal.writeIndexFile, Internal.logInfo.
  wp; leaf ltac:(cbv beta; intros Hr; try discriminate Hr).
  eexists. left.
Qed.

Lemma Internal_CleanEntriesVersions_writes W Y i charts h :
  spec (Internal.CleanEntriesVersions W Y i charts) h
       (λ r t, r = Ok tt → ∃ data, EvWriteFile Internal.indexYaml data ∈ t).
Proof.
  unfold Internal.CleanEntriesVersions, Internal.logInfo.
  wp. wp_skip. wp; leaf ltac:(cbv beta; intros Hr; try discriminate Hr).
  wp_skip. wp.
  - wp_skip. wp. eapply spec_mono; [apply Internal_writeIndexFile_writes|].
    intros w tw Hw. wp.
    + wp_skip. wp.
      all: wp_skip; wp; cbv beta; intros Hr; try discriminate Hr.
      all: destruct Hw as [data Hdata];
        [match goal with |- Ok ?u = Ok () => by destruct u end|].
      all: exists data; rewrite !elem_of_app; tauto.
    + wp_skip. wp. cbv beta. intros Hr; discriminate Hr.
  - wp_skip. wp. cbv beta. intros Hr; discriminate Hr.
Qed.

Lemma Internal_preparePagesBranch_noCommit W i h :
  spec (Internal.preparePagesBranch W i) h (λ _ t, Forall noCommit t).
Proof.
  unfold Internal.preparePagesBranch, Internal.restoreOriginalBranch, Internal.BranchExists,
    Internal.FetchBranch, Internal.CheckoutBranch, Internal.PullBranch,
    Internal.GetCurrentBranch, Internal.runGitCommand, Internal.logInfo.
  wp; leaf ltac:(trace_done).
Qed.

Lemma Internal_restoreOriginalBranch_noCommit W i h :
  spec (Internal.restoreOriginalBranch W i) h (λ _ t, Forall noCommit t).
Proof.
  unfold Internal.restoreOriginalBranch, Internal.CheckoutBranch, Internal.runGitCommand,
    Internal.logInfo.
  wp; leaf ltac:(trace_done).
Qed.

Lemma Internal_loadIndexFile_noCommit W Y i h :
  spec (Internal.loadIndexFile W Y i) h (λ _ t, Forall noCommit t).
Proof. unfold Internal.loadIndexFile. wp; leaf ltac:(trace_done). Qed.

Lemma Internal_writeIndexFile_noCommit W Y i indexFile h :
  spec (Internal.writeIndexFile W Y i indexFile) h (λ _ t, Forall noCommit t).
Proof. unfold Internal.writeIndexFile, Internal.logInfo. wp; leaf ltac:(trace_done). Qed.

Lemma Internal_commitIndexChanges_noCommit W i message h :
  (∀ h', is_err (w_git W h' "" ["diff"; "--quiet"; "index.yaml"]) = false) →
  spec (Internal.commitIndexChanges W i message) h (λ _ t, Forall noCommit t).
Proof.
  intros Hdiff.
  unfold Internal.commitIndexChanges, Internal.HasChanges, Internal.runGitCommand,
    Internal.logInfo.
  wp; leaf ltac:(trace_done).
  - discriminate.
  - unfold Internal.indexYaml in *.
    match goal with
    | H : w_git _ ?h' "" _ = Err _ |- _ =>
        specialize (Hdiff h'); rewrite H in Hdiff; discriminate
    end.
Qed.

Ltac wp_use L := eapply spec_mono; [apply L|intros ? ? ?].

Lemma Internal_CleanEntriesVersions_commit W Y i charts h :
  (∀ h', is_err (w_git W h' "" ["diff"; "--quiet"; "index.yaml"]) = false) →
  spec (Internal.CleanEntriesVersions W Y i charts) h
       (λ _ t, Forall (λ e, isCommit e = false) t).
Proof.
  intros Hdiff. change (λ e, isCommit e = false) with noCommit.
  unfold Internal.CleanEntriesVersions, Internal.logInfo.
  wp. wp_use Internal_preparePagesBranch_noCommit. wp; leaf ltac:(trace_done).
  wp_use Internal_loadIndexFile_noCommit. wp.
  - eapply spec_mono;
      [apply (spec_forEach _ _ noCommit); intros line h' _; apply spec_call; trace_done|].
    intros ? ? ?. wp. wp_use Internal_writeIndexFile_noCommit. wp.
    + eapply spec_mono; [eapply Internal_commitIndexChanges_noCommit, Hdiff|intros ? ? ?].
      wp; wp_use Internal_restoreOriginalBranch_noCommit; wp; cbv beta in *; trace_done.
    + wp_use Internal_restoreOriginalBranch_noCommit. wp. cbv beta in *. trace_done.
  - wp_use Internal_restoreOriginalBranch_noCommit. wp. cbv beta in *. trace_done.
Qed.

(** C2, as stated, fails for chart-releaser: chart [baz] is not in the
    index, nothing is removed, and [CleanEntriesVersions] still writes
    [index.yaml]; when the rewritten file differs from the committed one it
    also commits. *)
Lemma CleanEntriesVersions_rewrites_unchanged_index :
  let Y := sampleYaml sample_index in
  let i := Internal.NewIndexManager "gh-pages" in
  nothingToRemove [chart_baz] sample_index ∧
  Internal.removeVersions [chart_baz] sample_index = sample_index ∧
  existsb (writesFile "index.yaml")
    (Internal.CleanEntriesVersions (sampleWorld gitFeatureBranch releaseFiles [] (Ok tt) "")
       Y i [chart_baz] []).2 = true ∧
  existsb isCommit
    (Internal.CleanEntriesVersions (sampleWorld gitReformatted releaseFiles [] (Ok tt) "")
       Y i [chart_baz] []).2 = true.
Proof.
  intros Y i. split; [|by vm_compute].
  intros c ->%list_elem_of_singleton. done.
Qed.

(** C2, amended.  [CleanMultipleChartIndexes] of package main neither
    writes [index.yaml] nor commits when the removal leaves the loaded
    entries unchanged, as it does when every named chart or its named
    version is absent: there, write-back and commit occur only when the
    document changed.  [CleanEntriesVersions] of chart-releaser writes
    [index.yaml] back in every run that succeeds, and commits only when
    [git diff --quiet index.yaml] reports a difference. *)
Theorem index_write_back (W : World) (Y : Yaml) :
  (∀ charts D, nothingToRemove charts D → Main.removeVersions charts D = D) ∧
  (∀ cim charts h,
     (∀ h' data D, w_readFile W h' "index.yaml" = Ok data → UnmarshalIndex Y data = Ok D →
                   Entries (Main.removeVersions charts D) = Entries D) →
     Forall leavesIndexAlone (Main.CleanMultipleChartIndexes W Y cim charts h).2) ∧
  (∀ i charts h,
     (Internal.CleanEntriesVersions W Y i charts h).1 = Ok tt →
     ∃ data, EvWriteFile "index.yaml" data ∈ (Internal.CleanEntriesVersions W Y i charts h).2) ∧
  (∀ i charts h,
     (∀ h', is_err (w_git W h' "" ["diff"; "--quiet"; "index.yaml"]) = false) →
     Forall (λ e, isCommit e = false) (Internal.CleanEntriesVersions W Y i charts h).2).
Proof.
  split; [|split; [|split]].
  - apply Main_removeVersions_nothing.
  - intros cim charts h Hsame. by apply Main_CleanMultipleChartIndexes_no_op.
  - intros i charts h. apply (Internal_CleanEntriesVersions_writes W Y i charts h).
  - intros i charts h Hdiff. by apply (Internal_CleanEntriesVersions_commit W Y i charts h).
Qed.

Lemma index_write_back_witness :
  let W := sampleWorld gitFeatureBranch releaseFiles [] (Ok tt) "" in
  let Y := sampleYaml sample_index in
  Main.removeVersions [chart_baz] sample_index = sample_index ∧
  Forall leavesIndexAlone
    (Main.CleanMultipleChartIndexes W Y (Main.NewChartIndexManager (Main.NewGit ".") "gh-pages")
       [chart_baz] []).2 ∧
  (∃ data, EvWriteFile "index.yaml" data
           ∈ (Internal.CleanEntriesVersions W Y (Internal.NewIndexManager "gh-pages")
                [chart_baz] []).2) ∧
  Forall (λ e, isCommit e = false)
    (Internal.CleanEntriesVersions W Y (Internal.NewIndexManager "gh-pages") [chart_baz] []).2.
Proof.
  intros W Y. destruct (index_write_back W Y) as (H1 & H2 & H3 & H4).
  split; [|split; [|split]].
  - apply H1. intros c ->%list_elem_of_singleton. done.
  - apply H2. intros h' data D _ [= <-]. by vm_compute.
  - apply H3. by vm_compute.
  - apply H4. intros h'. reflexivity.
Defined.


(** ** More on the removal loops *)

Lemma filterVersions_sublist v l : filterVersions v l `sublist_of` l.
Proof.
  induction l as [|x l IH]; simpl; [done|].
  case_decide; [by apply sublist_skip|by apply sublist_cons].
Qed.

Lemma purge_sublist n charts l : purge n charts l `sublist_of` l.
Proof.
  revert l. induction charts as [|c charts IH]; intros l; [done|].
  rewrite purge_cons. case_decide; [|done].
  etrans; [apply IH|apply filterVersions_sublist].
Qed.

Lemma purge_swap n c1 c2 charts l :
  purge n (c1 :: c2 :: charts) l = purge n (c2 :: c1 :: charts) l.
Proof.
  rewrite !purge_cons. repeat case_decide; try done.
  by rewrite filterVersions_comm.
Qed.

Lemma purge_Permutation n charts charts' l :
  charts ≡ₚ charts' → purge n charts l = purge n charts' l.
Proof.
  intros Hp. revert l. induction Hp as [|c ? ? _ IH|c1 c2 ?|? ? ? _ IH1 _ IH2]; intros l0.
  - done.
  - rewrite !purge_cons. apply IH.
  - apply purge_swap.
  - by rewrite IH1.
Qed.

Lemma keptMain_app n charts1 charts2 o :
  keptMain n (charts1 ++ charts2) o = keptMain n charts2 (keptMain n charts1 o).
Proof.
  revert o. induction charts1 as [|c charts1 IH]; intros o.
  - simpl. destruct o as [l|]; [|done]. unfold keptMain at 2. simpl.
    by rewrite (decide_True (P := l = l)).
  - rewrite <- app_comm_cons, keptMain_cons, IH. by rewrite (keptMain_cons n c charts1).
Qed.

Lemma keptInternal_app n charts1 charts2 o :
  keptInternal n (charts1 ++ charts2) o = keptInternal n charts2 (keptInternal n charts1 o).
Proof.
  revert o. induction charts1 as [|c charts1 IH]; intros o.
  - simpl. destruct o as [l|]; [|done]. unfold keptInternal at 2, chartNames.
    destruct (decide (n ∈ Name <$> [])) as [Hin|_]; [by apply elem_of_nil in Hin|done].
  - rewrite <- app_comm_cons, keptInternal_cons, IH. by rewrite (keptInternal_cons n c charts1).
Qed.

Lemma Main_removeVersions_fields charts D :
  APIVersion (Main.removeVersions charts D) = APIVersion D ∧
  Generated (Main.removeVersions charts D) = Generated D.
Proof. apply Main_loop_fields. Qed.

Lemma Internal_removeVersions_fields charts D :
  APIVersion (Internal.removeVersions charts D) = APIVersion D ∧
  Generated (Internal.removeVersions charts D) = Generated D.
Proof. apply Internal_loop_fields. Qed.

(** X1.  The listed versions are gone: after the removal, under the name of
    a listed chart no entry with that chart's version is left, in both
    implementations. *)
Theorem removeVersions_removes (charts : list ChartInfo) (D : IndexFile) (c : ChartInfo) :
  c ∈ charts →
  (∀ l e, Entries (Main.removeVersions charts D) !! Name c = Some l → e ∈ l →
          cvVersion e ≠ Version c) ∧
  (∀ l e, Entries (Internal.removeVersions charts D) !! Name c = Some l → e ∈ l →
          cvVersion e ≠ Version c).
Proof.
  intros Hc. rewrite Main_removeVersions_lookup, Internal_removeVersions_lookup.
  unfold keptMain, keptInternal.
  destruct (Entries D !! Name c) as [l0|]; [|done].
  assert (∀ e, e ∈ purge (Name c) charts l0 → cvVersion e ≠ Version c) as Hp.
  { intros e He. apply elem_of_purge in He as [_ He]. by apply He. }
  split; intros l e Hl He.
  - destruct (decide (purge (Name c) charts l0 = l0)) as [Heq|_].
    + injection Hl as <-. apply Hp. by rewrite Heq.
    + destruct (decide (purge (Name c) charts l0 = [])); [done|].
      injection Hl as <-. by apply Hp.
  - rewrite decide_True in Hl by (apply list_elem_of_fmap; eauto).
    destruct (decide (purge (Name c) charts l0 = [])); [done|].
    injection Hl as <-. by apply Hp.
Qed.

Lemma removeVersions_removes_witness :
  chart_foo ∈ [chart_foo] ∧
  (∀ l e, Entries (Main.removeVersions [chart_foo] sample_index) !! Name chart_foo = Some l →
          e ∈ l → cvVersion e ≠ Version chart_foo) ∧
  (∀ l e, Entries (Internal.removeVersions [chart_foo] sample_index) !! Name chart_foo = Some l →
          e ∈ l → cvVersion e ≠ Version chart_foo).
Proof.
  assert (chart_foo ∈ [chart_foo]) as Hin by (apply list_elem_of_singleton; reflexivity).
  split; [exact Hin|].
  apply (removeVersions_removes [chart_foo] sample_index chart_foo Hin).
Defined.

(** X2.  Removal only removes: every chart name bound afterwards was bound
    before, and its version list is a sublist (same entries, same order) of
    the list it had. *)
Theorem removeVersions_shrinks (charts : list ChartInfo) (D : IndexFile) (n : string)
        (l' : list ChartVersion) :
  (Entries (Main.removeVersions charts D) !! n = Some l' →
   ∃ l, Entries D !! n = Some l ∧ l' `sublist_of` l) ∧
  (Entries (Internal.removeVersions charts D) !! n = Some l' →
   ∃ l, Entries D !! n = Some l ∧ l' `sublist_of` l).
Proof.
  rewrite Main_removeVersions_lookup, Internal_removeVersions_lookup.
  unfold keptMain, keptInternal.
  destruct (Entries D !! n) as [l|]; [|done].
  split; intros Hl; exists l; (split; [done|]);
    repeat case_decide; simplify_eq; try done; apply purge_sublist.
Qed.

Lemma removeVersions_shrinks_witness :
  ∃ l, Entries sample_index !! "foo" = Some l ∧ [foo_2] `sublist_of` l.
Proof.
  apply (proj1 (removeVersions_shrinks [chart_foo] sample_index "foo" [foo_2])).
  reflexivity.
Defined.

(** X3.  The order of the chart list does not matter: two lists with the
    same charts, in any order, give the same document. *)
Theorem removeVersions_Permutation (charts charts' : list ChartInfo) (D : IndexFile) :
  charts ≡ₚ charts' →
  Main.removeVersions charts D = Main.removeVersions charts' D ∧
  Internal.removeVersions charts D = Internal.removeVersions charts' D.
Proof.
  intros Hp. split; apply IndexFile_eq.
  - by rewrite !(proj1 (Main_removeVersions_fields _ _)).
  - apply map_eq. intros n. rewrite !Main_removeVersions_lookup. unfold keptMain.
    destruct (Entries D !! n) as [l|]; [|done].
    by rewrite (purge_Permutation n charts charts').
  - by rewrite !(proj2 (Main_removeVersions_fields _ _)).
  - by rewrite !(proj1 (Internal_removeVersions_fields _ _)).
  - apply map_eq. intros n. rewrite !Internal_removeVersions_lookup. unfold keptInternal.
    destruct (Entries D !! n) as [l|]; [|done].
    rewrite (purge_Permutation n charts charts') by done.
    destruct (decide (n ∈ chartNames charts)) as [Hin|Hin];
      unfold chartNames in *; rewrite Hp in Hin.
    + by rewrite (decide_True (P := n ∈ Name <$> charts')).
    + by rewrite (decide_False (P := n ∈ Name <$> charts')).
  - by rewrite !(proj2 (Internal_removeVersions_fields _ _)).
Qed.

Lemma removeVersions_Permutation_witness :
  Main.removeVersions [chart_foo; chart_baz] sample_index
  = Main.removeVersions [chart_baz; chart_foo] sample_index.
Proof.
  apply (removeVersions_Permutation [chart_foo; chart_baz] [chart_baz; chart_foo]).
  apply perm_swap.
Defined.

(** X4.  Removing the charts of two lists one list after the other is the
    same as removing the concatenated list at once. *)
Theorem removeVersions_app (charts1 charts2 : list ChartInfo) (D : IndexFile) :
  Main.removeVersions (charts1 ++ charts2) D
  = Main.removeVersions charts2 (Main.removeVersions charts1 D) ∧
  Internal.removeVersions (charts1 ++ charts2) D
  = Internal.removeVersions charts2 (Internal.removeVersions charts1 D).
Proof.
  split; apply IndexFile_eq.
  - by rewrite !(proj1 (Main_removeVersions_fields _ _)).
  - apply map_eq. intros n. rewrite !Main_removeVersions_lookup. apply keptMain_app.
  - by rewrite !(proj2 (Main_removeVersions_fields _ _)).
  - by rewrite !(proj1 (Internal_removeVersions_fields _ _)).
  - apply map_eq. intros n. rewrite !Internal_removeVersions_lookup. apply keptInternal_app.
  - by rewrite !(proj2 (Internal_removeVersions_fields _ _)).
Qed.

(** X5.  On an index without empty version lists the two implementations
    remove the same: [CleanMultipleChartIndexes] and [CleanEntriesVersions]
    compute the same document. *)
Theorem removeVersions_agree (charts : list ChartInfo) (D : IndexFile) :
  no_empty_lists D →
  Main.removeVersions charts D = Internal.removeVersions charts D.
Proof.
  intros HD. apply IndexFile_eq.
  - by rewrite (proj1 (Main_removeVersions_fields _ _)),
               (proj1 (Internal_removeVersions_fields _ _)).
  - apply map_eq. intros n.
    rewrite Main_removeVersions_lookup, Internal_removeVersions_lookup.
    unfold keptMain, keptInternal. specialize (HD n).
    destruct (Entries D !! n) as [l|]; [|done].
    destruct (decide (n ∈ chartNames charts)) as [Hin|Hin].
    + destruct (decide (purge n charts l = l)) as [Heq|?]; [|done].
      rewrite Heq. rewrite decide_False; [done|congruence].
    + by rewrite purge_not_listed, (decide_True (P := l = l)).
  - by rewrite (proj2 (Main_removeVersions_fields _ _)),
               (proj2 (Internal_removeVersions_fields _ _)).
Qed.

Lemma sample_index_no_empty_lists : no_empty_lists sample_index.
Proof.
  intros k. unfold sample_index. simpl.
  destruct (decide (k = "foo")) as [->|?]; [done|].
  destruct (decide (k = "bar")) as [->|?]; [done|].
  by rewrite lookup_insert_ne, lookup_singleton_ne by done.
Defined.

Lemma removeVersions_agree_witness :
  Main.removeVersions [chart_foo] sample_index = Internal.removeVersions [chart_foo] sample_index.
Proof. apply removeVersions_agree, sample_index_no_empty_lists. Defined.

(** Without that invariant they differ: a listed chart bound to an empty
    list keeps its key in package main and loses it in chart-releaser. *)
Lemma removeVersions_differ_on_empty_list :
  let D := {| APIVersion := "v1"; Entries := {[ "foo" := [] ]}; Generated := "" |} in
  Entries (Main.removeVersions [chart_foo] D) !! "foo" = Some [] ∧
  Entries (Internal.removeVersions [chart_foo] D) !! "foo" = None.
Proof. by vm_compute. Qed.

(** ** More on the chart scan *)

(** What a successful scan returns: the charts accumulated before, then
    charts read from visited directories, in visiting order, each with a
    version the pattern accepts. *)
Lemma Main_scanCharts_sound W Y R cm pattern dirs acc h l :
  (Main.scanCharts W Y R cm pattern dirs acc h).1 = Ok l →
  ∃ found, l = acc ++ found ∧ (Path <$> found) `sublist_of` dirs ∧
    ∀ c, c ∈ found →
      VersionMatchesPattern R (Version c) pattern = Ok true ∧
      ∃ h', (Main.GetChartInfo W Y cm (Path c) h').1 = Ok c.
Proof.
  revert acc h. induction dirs as [|x dirs IH]; intros acc h.
  { simpl. intros [= <-]. exists []. rewrite app_nil_r. split; [done|]. split; [done|].
    by intros c ?%elem_of_nil. }
  rewrite Main_scanCharts_cons. cbv zeta.
  destruct (w_stat W h (chartFileOf x));
    [destruct (Main.GetChartInfo W Y cm x (h ++ [EvStat (chartFileOf x)])) as [[ci|e] ti] eqn:Hci;
     cbn [fst];
     [destruct (VersionMatchesPattern R (Version ci) pattern) as [[|]|] eqn:Hv; [|done..]|]|..].
  2,3,4: match goal with
         | |- context [Main.scanCharts _ _ _ _ _ _ ?a ?h'] =>
             specialize (IH a h'); destruct (Main.scanCharts _ _ _ _ _ _ a h');
             intros Hl; destruct (IH Hl) as (found & ? & ? & ?); exists found;
             split; [done|]; split; [by apply sublist_cons|done]
         end.
  specialize (IH (acc ++ [ci]) (h ++ [EvStat (chartFileOf x); EvReadFile (chartFileOf x);
     EvLog ("Found Helm chart: " +:+ x +:+ " with version " +:+ Version ci) []])).
  destruct (Main.scanCharts _ _ _ _ _ _ _ _). cbn [fst] in *. intros Hl.
  destruct (IH Hl) as (found & -> & Hsub & Hall).
  assert (Path ci = x) as Hx by (eapply Main_GetChartInfo_Path; by rewrite Hci).
  exists (ci :: found). split; [by rewrite <- (assoc_L (++))|]. split.
  - rewrite fmap_cons, Hx. by apply sublist_skip.
  - intros c [->|Hc]%elem_of_cons; [|by apply Hall].
    split; [done|]. exists (h ++ [EvStat (chartFileOf x)]). by rewrite Hx, Hci.
Qed.

Lemma Internal_scanCharts_sound W Y R m pattern dirs acc h l :
  (Internal.scanCharts W Y R m pattern dirs acc h).1 = Ok l →
  ∃ found, l = acc ++ found ∧ (Path <$> found) `sublist_of` dirs ∧
    ∀ c, c ∈ found →
      VersionMatchesPattern R (Version c) pattern = Ok true ∧
      ∃ h', (Internal.getChartInfo W Y m (Path c) h').1 = Ok c.
Proof.
  revert acc h. induction dirs as [|x dirs IH]; intros acc h.
  { simpl. intros [= <-]. exists []. rewrite app_nil_r. split; [done|]. split; [done|].
    by intros c ?%elem_of_nil. }
  rewrite Internal_scanCharts_cons. cbv zeta.
  destruct (w_stat W h (chartFileOf x));
    [destruct (Internal.getChartInfo W Y m x (h ++ [EvStat (chartFileOf x)])) as [[ci|e] ti] eqn:Hci;
     cbn [fst];
     [destruct (VersionMatchesPattern R (Version ci) pattern) as [[|]|] eqn:Hv; [|done..]|]|..].
  2,3,4: match goal with
         | |- context [Internal.scanCharts _ _ _ _ _ _ ?a ?h'] =>
             specialize (IH a h'); destruct (Internal.scanCharts _ _ _ _ _ _ a h');
             intros Hl; destruct (IH Hl) as (found & ? & ? & ?); exists found;
             split; [done|]; split; [by apply sublist_cons|done]
         end.
  specialize (IH (acc ++ [ci]) (h ++ [EvStat (chartFileOf x); EvReadFile (chartFileOf x);
     EvLog "Found Helm chart: %s with version %s" [x; Version ci]])).
  destruct (Internal.scanCharts _ _ _ _ _ _ _ _). cbn [fst] in *. intros Hl.
  destruct (IH Hl) as (found & -> & Hsub & Hall).
  assert (Path ci = x) as Hx by (eapply Internal_getChartInfo_Path; by rewrite Hci).
  exists (ci :: found). split; [by rewrite <- (assoc_L (++))|]. split.
  - rewrite fmap_cons, Hx. by apply sublist_skip.
  - intros c [->|Hc]%elem_of_cons; [|by apply Hall].
    split; [done|]. exists (h ++ [EvStat (chartFileOf x)]). by rewrite Hx, Hci.
Qed.

Lemma rangeKeys_NoDup W (m : gmap string bool) h : WorldOK W → NoDup (w_rangeKeys W h m).
Proof. intros HW. rewrite (HW h m). apply NoDup_fst_map_to_list. Qed.

Lemma rangeKeys_elem W (m : gmap string bool) h d :
  WorldOK W → d ∈ w_rangeKeys W h m → d ∈ dom m.
Proof.
  intros HW. rewrite (HW h m). intros ((d' & b) & -> & Hin)%list_elem_of_fmap.
  apply elem_of_map_to_list in Hin. apply elem_of_dom. by eexists.
Qed.

(** X6.  What [GetChangedCharts] returns, when it returns a list: only
    charts whose version the pattern accepts, read from the manifest of a
    candidate directory, at most one per candidate directory.  The same for
    [getChangedCharts]. *)
Theorem GetChangedCharts_sound (W : World) (Y : Yaml) (R : RegexpEngine) :
  WorldOK W →
  (∀ cm changedFiles pattern h l,
     (Main.GetChangedCharts W Y R cm changedFiles pattern h).1 = Ok l →
     NoDup (Path <$> l) ∧
     ∀ c, c ∈ l →
       VersionMatchesPattern R (Version c) pattern = Ok true ∧
       Path c ∈ dom (chartDirsOf (Main.ChartsDir cm) changedFiles) ∧
       ∃ h', (Main.GetChartInfo W Y cm (Path c) h').1 = Ok c) ∧
  (∀ m changedFiles pattern h l,
     (Internal.getChangedCharts W Y R m changedFiles pattern h).1 = Ok l →
     NoDup (Path <$> l) ∧
     ∀ c, c ∈ l →
       VersionMatchesPattern R (Version c) pattern = Ok true ∧
       Path c ∈ dom (chartDirsOf (Internal.chartDir m) changedFiles) ∧
       ∃ h', (Internal.getChartInfo W Y m (Path c) h').1 = Ok c).
Proof.
  intros HW. split.
  - intros cm changedFiles pattern h l Hl.
    unfold Main.GetChangedCharts in Hl. rewrite run_bind in Hl. unfold ask in Hl.
    destruct (Main.scanCharts W Y R cm pattern _ [] (h ++ [])) as [r t] eqn:Hscan.
    cbn [fst] in Hl. subst r.
    destruct (Main_scanCharts_sound W Y R cm pattern _ [] _ l ltac:(by rewrite Hscan))
      as (found & -> & Hsub & Hall).
    simpl. split.
    + eapply sublist_NoDup; [by apply rangeKeys_NoDup|exact Hsub].
    + intros c Hc. destruct (Hall c Hc) as [Hv Hread]. split; [done|]. split; [|done].
      eapply rangeKeys_elem; [done|]. eapply elem_of_sublist; [|exact Hsub].
      by apply list_elem_of_fmap_2.
  - intros m changedFiles pattern h l Hl.
    unfold Internal.getChangedCharts in Hl. rewrite run_bind in Hl. unfold ask in Hl.
    destruct (Internal.scanCharts W Y R m pattern _ [] (h ++ [])) as [r t] eqn:Hscan.
    cbn [fst] in Hl. subst r.
    destruct (Internal_scanCharts_sound W Y R m pattern _ [] _ l ltac:(by rewrite Hscan))
      as (found & -> & Hsub & Hall).
    simpl. split.
    + eapply sublist_NoDup; [by apply rangeKeys_NoDup|exact Hsub].
    + intros c Hc. destruct (Hall c Hc) as [Hv Hread]. split; [done|]. split; [|done].
      eapply rangeKeys_elem; [done|]. eapply elem_of_sublist; [|exact Hsub].
      by apply list_elem_of_fmap_2.
Qed.

(** X7.  The candidate directories depend on the set of changed files
    only: neither the order of the files nor a file listed twice changes
    the map. *)
Theorem chartDirsOf_set (ChartsDir : string) (files files' : list string) :
  (∀ f, f ∈ files ↔ f ∈ files') →
  chartDirsOf ChartsDir files = chartDirsOf ChartsDir files'.
Proof.
  intros Hsame.
  assert (∀ fs d, chartDirsOf ChartsDir fs !! d
                  = if decide (d ∈ dom (chartDirsOf ChartsDir fs)) then Some true else None)
    as Hlook.
  { intros fs d. case_decide as Hd.
    - apply elem_of_dom in Hd as [b Hb]. rewrite Hb. f_equal.
      eapply (chartDirs_fold_true ChartsDir fs ∅); [|exact Hb]. intros ? ?. by rewrite lookup_empty.
    - by apply not_elem_of_dom in Hd. }
  apply map_eq. intros d. rewrite !Hlook.
  assert (d ∈ dom (chartDirsOf ChartsDir files) ↔ d ∈ dom (chartDirsOf ChartsDir files')) as Hd.
  { unfold chartDirsOf. rewrite !chartDirs_fold_dom.
    split; (intros [?|(f & p0 & p1 & rest & Hf & ?)]; [by left|right]);
      exists f, p0, p1, rest; (split; [by apply Hsame|done]). }
  destruct (decide (d ∈ dom (chartDirsOf ChartsDir files))) as [H1|H1];
    destruct (decide (d ∈ dom (chartDirsOf ChartsDir files'))) as [H2|H2]; try done;
    [by apply Hd in H1|by apply Hd in H2].
Qed.

Lemma chartDirsOf_set_witness :
  chartDirsOf "charts" ["charts/a/Chart.yaml"; "charts/b/README.md"; "charts/a/Chart.yaml"]
  = chartDirsOf "charts" ["charts/b/README.md"; "charts/a/Chart.yaml"].
Proof.
  apply chartDirsOf_set. intros f. rewrite !elem_of_cons, !elem_of_nil. tauto.
Defined.

Lemma GetChangedCharts_sound_witness :
  let W := sampleWorld gitFeatureBranch devFiles [] (Ok tt) "" in
  let Y := sampleYaml sample_index in
  NoDup (Path <$> [chart_foo]) ∧
  ∀ c, c ∈ [chart_foo] →
    VersionMatchesPattern RE2Fragment.engine (Version c) "^0\.0\.0-dev$" = Ok true ∧
    Path c ∈ dom (chartDirsOf "charts" ["charts/foo/Chart.yaml"; "charts/foo/values.yaml"]) ∧
    ∃ h', (Main.GetChartInfo W Y (Main.NewChartManager "charts") (Path c) h').1 = Ok c.
Proof.
  intros W Y.
  apply (proj1 (GetChangedCharts_sound W Y RE2Fragment.engine (sampleWorld_ok _ _ _ _ _))
           (Main.NewChartManager "charts")
           ["charts/foo/Chart.yaml"; "charts/foo/values.yaml"] "^0\.0\.0-dev$" [] [chart_foo]).
  by vm_compute.
Defined.

(** ** More on git.go *)

Lemma strings_Split_nonempty s sep : strings_Split s sep ≠ [].
Proof.
  destruct s as [|c s]; simpl; [done|].
  destruct (Ascii.eqb c sep); [done|]. by destruct (strings_Split s sep).
Qed.

Lemma strings_Join_cons_String c x xs sep :
  strings_Join (String c x :: xs) sep = String c (strings_Join (x :: xs) sep).
Proof. by destruct xs. Qed.

(** Splitting at a separator and joining with it gives the string back. *)
Lemma strings_Join_Split s sep :
  strings_Join (strings_Split s sep) (String sep "") = s.
Proof.
  induction s as [|c s IH]; simpl; [done|].
  destruct (Ascii.eqb c sep) eqn:Hc.
  - apply Ascii.eqb_eq in Hc as ->.
    pose proof (strings_Split_nonempty s sep) as Hne.
    destruct (strings_Split s sep) as [|x xs] eqn:Hs; [done|].
    simpl in *. by rewrite IH.
  - destruct (strings_Split s sep) as [|x xs] eqn:Hs.
    { by apply strings_Split_nonempty in Hs. }
    by rewrite strings_Join_cons_String, IH.
Qed.

(** No piece of a split contains the separator. *)
Lemma strings_Split_no_sep s sep x :
  x ∈ strings_Split s sep → sep ∉ list_ascii_of_string x.
Proof.
  revert x. induction s as [|c s IH]; intros x; simpl.
  - intros ->%list_elem_of_singleton. simpl. by intros ?%elem_of_nil.
  - destruct (Ascii.eqb c sep) eqn:Hc.
    + intros [->|Hx]%elem_of_cons; [simpl; by intros ?%elem_of_nil|by apply IH].
    + apply Ascii.eqb_neq in Hc.
      destruct (strings_Split s sep) as [|y ys] eqn:Hs.
      { by apply strings_Split_nonempty in Hs. }
      intros [->|Hx]%elem_of_cons.
      * simpl. intros [?|Hin]%elem_of_cons; [congruence|].
        by apply (IH y); [left|].
      * apply IH. by right.
Qed.

(** X8.  [GetChangedFiles] runs one [git diff --find-renames --name-only]
    from the given commit, restricted by [-- <path>] exactly when a path
    filter is given.  When git prints nothing it returns the empty list;
    otherwise it returns the lines of the trimmed output: none contains a
    line break, and joined by line breaks they give the output back. *)
Theorem GetChangedFiles_lines (W : World) (g : Main.Git) (sinceCommit pathFilter : string)
        (h : History) :
  let args := ["diff"; "--find-renames"; "--name-only"; sinceCommit]
              ++ (if decide (pathFilter = "") then [] else ["--"; pathFilter]) in
  (Main.GetChangedFiles W g sinceCommit pathFilter h).2 = [EvGit (Main.RepoPath g) args] ∧
  (∀ e, w_git W h (Main.RepoPath g) args = Err e →
        (Main.GetChangedFiles W g sinceCommit pathFilter h).1
        = Err ("failed to get changed files: git command failed: " +:+ e)) ∧
  (∀ out, w_git W h (Main.RepoPath g) args = Ok out →
     ∃ files, (Main.GetChangedFiles W g sinceCommit pathFilter h).1 = Ok files ∧
       (strings_TrimSpace out = "" → files = []) ∧
       (strings_TrimSpace out ≠ "" →
          files ≠ [] ∧
          strings_Join files (String newline "") = strings_TrimSpace out ∧
          ∀ f, f ∈ files → newline ∉ list_ascii_of_string f)).
Proof.
  intros args. subst args. unfold Main.GetChangedFiles.
  destruct (decide (pathFilter = "")) as [->|Hne]; cbn [app].
  - rewrite (decide_False (P := "" ≠ "")) by (by intros ?).
    rewrite run_bind, Main_runGitCommand_run.
    destruct (w_git W h _ _) as [out|e]; cbv beta iota zeta.
    + destruct (decide (strings_TrimSpace out = "")) as [Hout|Hout]; simpl.
      * split; [done|]. split; [done|]. intros ? [= <-]. eexists. split; [done|]. by split.
      * split; [done|]. split; [done|]. intros ? [= <-]. eexists. split; [done|].
        split; [done|]. intros _. split; [apply strings_Split_nonempty|].
        split; [apply strings_Join_Split|]. intros f. apply strings_Split_no_sep.
    + split; [done|]. split; [by intros ? [= <-]|done].
  - rewrite (decide_True (P := pathFilter ≠ "")) by done. cbn [app].
    rewrite run_bind, Main_runGitCommand_run.
    destruct (w_git W h _ _) as [out|e]; cbv beta iota zeta.
    + destruct (decide (strings_TrimSpace out = "")) as [Hout|Hout]; simpl.
      * split; [done|]. split; [done|]. intros ? [= <-]. eexists. split; [done|]. by split.
      * split; [done|]. split; [done|]. intros ? [= <-]. eexists. split; [done|].
        split; [done|]. intros _. split; [apply strings_Split_nonempty|].
        split; [apply strings_Join_Split|]. intros f. apply strings_Split_no_sep.
    + split; [done|]. split; [by intros ? [= <-]|done].
Qed.

Lemma GetChangedFiles_lines_witness :
  let W := sampleWorld gitFeatureBranch releaseFiles [] (Ok tt) "" in
  ∃ files, (Main.GetChangedFiles W (Main.NewGit ".") "4f2a9c0" "charts" []).1 = Ok files ∧
    (strings_TrimSpace "charts/foo/Chart.yaml
charts/foo/values.yaml
" = "" → files = []) ∧
    (strings_TrimSpace "charts/foo/Chart.yaml
charts/foo/values.yaml
" ≠ "" →
       files ≠ [] ∧
       strings_Join files (String newline "") = strings_TrimSpace "charts/foo/Chart.yaml
charts/foo/values.yaml
" ∧
       ∀ f, f ∈ files → newline ∉ list_ascii_of_string f).
Proof.
  intros W.
  apply (proj2 (proj2 (GetChangedFiles_lines W (Main.NewGit ".") "4f2a9c0" "charts" []))).
  reflexivity.
Defined.

(** White space beyond ASCII is trimmed too: an output that consists of a
    no-break space gives the empty list; bytes that do not encode a white
    space rune are kept. *)
Lemma strings_TrimSpace_unicode :
  let nbsp := String (ascii_of_nat 194) (String (ascii_of_nat 160) "") in
  let hair := String (ascii_of_nat 226) (String (ascii_of_nat 128)
                (String (ascii_of_nat 138) "")) in
  strings_TrimSpace nbsp = "" ∧
  strings_TrimSpace (nbsp +:+ " charts/foo/Chart.yaml" +:+ hair +:+ String newline "")
  = "charts/foo/Chart.yaml" ∧
  strings_TrimSpace (String (ascii_of_nat 194) "x") = String (ascii_of_nat 194) "x" ∧
  (Main.GetChangedFiles (sampleWorld (λ _, Ok nbsp) releaseFiles [] (Ok tt) "")
     (Main.NewGit ".") "4f2a9c0" "charts" []).1 = Ok [].
Proof. by vm_compute. Qed.

(** X9.  The git commands of [GetLatestTag], from the answers of git:
    always [fetch --tags], then [rev-parse --abbrev-ref HEAD]; when that
    fails nothing else is run and the function fails; otherwise
    [describe --tags --abbrev=0 HEAD~] is run; when it succeeds nothing
    else is run and the function succeeds; when it fails exactly one more
    command is run: [rev-list] if the trimmed branch name is the base
    branch, [merge-base] otherwise. *)
Theorem GetLatestTag_commands (W : World) (g : Main.Git) (baseBranch : string) (h : History) :
  let dir := Main.RepoPath g in
  let fetch := ["fetch"; "--tags"] in
  let revParse := ["rev-parse"; "--abbrev-ref"; "HEAD"] in
  let describe := ["describe"; "--tags"; "--abbrev=0"; "HEAD~"] in
  let revList := ["rev-list"; "--max-parents=0"; "--first-parent"; "HEAD"] in
  let mergeBase := ["merge-base"; "HEAD"; baseBranch] in
  let h1 := h ++ (Main.FetchTags W g h).2 in
  let h2 := h1 ++ [EvGit dir revParse] in
  gitCalls (Main.GetLatestTag W g baseBranch h).2
  = fetch :: revParse ::
    match w_git W h1 dir revParse with
    | Err _ => []
    | Ok branch =>
        describe ::
        match w_git W h2 dir describe with
        | Ok _ => []
        | Err _ => [if decide (strings_TrimSpace branch = baseBranch)
                    then revList else mergeBase]
        end
    end ∧
  match w_git W h1 dir revParse with
  | Err _ => is_err (Main.GetLatestTag W g baseBranch h).1 = true
  | Ok _ =>
      match w_git W h2 dir describe with
      | Ok _ => is_err (Main.GetLatestTag W g baseBranch h).1 = false
      | Err _ => True
      end
  end.
Proof.
  cbv zeta.
  assert ((Main.FetchTags W g h).2
          = EvGit (Main.RepoPath g) ["fetch"; "--tags"]
            :: match w_git W h (Main.RepoPath g) ["fetch"; "--tags"] with
               | Err e => [EvLog ("Failed to fetch tags from remote: git command failed: "
                                  +:+ e) []]
               | Ok _ => []
               end) as Hfetch.
  { unfold Main.FetchTags, Main.log. rewrite run_bind, Main_runGitCommand_run.
    by destruct (w_git W h _ _). }
  rewrite Hfetch, Main_GetLatestTag_run. cbv zeta.
  destruct (w_git W h _ ["fetch"; _]) as [out0|e0].
  all: destruct (w_git W _ _ ["rev-parse"; _; _]) as [branch|e1]; [|done].
  all: destruct (w_git W _ _ ["describe"; _; _; _]) as [tag|e2]; [done|].
  all: by destruct (decide (strings_TrimSpace branch = baseBranch)).
Qed.


(** X11 (git.go, github.go of chart-releaser).  In chart-releaser the push
    is commented out.  [commitIndexChanges] asks [git diff --quiet] whether
    [index.yaml] changed; if not it runs nothing else and returns nil;
    otherwise it runs [git add] and [git commit], stops at the first that
    fails, and never runs [git push]: it returns nil as soon as the commit
    is made. *)
Theorem chart_releaser_commit_steps W (i : Internal.IndexManager) (message : string)
        (h : History) :
  let diff := ["diff"; "--quiet"; "index.yaml"] in
  let add := ["add"; "index.yaml"] in
  let commit := ["commit"; "-m"; message] in
  spec (Internal.commitIndexChanges W i message) h
       (λ r t,
          (r = Ok tt ∧ (gitCalls t = [diff] ∨ gitCalls t = [diff; add; commit])) ∨
          (∃ e, r = Err ("failed to commit and push changes: failed to add file: " +:+ e) ∧
                gitCalls t = [diff; add]) ∨
          (∃ e, r = Err ("failed to commit and push changes: failed to commit: " +:+ e) ∧
                gitCalls t = [diff; add; commit])).
Proof.
  cbv zeta.
  unfold Internal.commitIndexChanges, Internal.HasChanges, Internal.CommitAndPush,
    Internal.runGitCommand, Internal.logInfo, Internal.indexYaml.
  wp; cbv beta; simpl; eauto 10.
Qed.

(** ** More on the workflows of package main *)



(** X13.  [deleteSpecificReleases] returns an error only when nothing has
    been deleted, written, committed or pushed: once the changed charts are
    known it returns nil, whatever fails afterwards. *)
Theorem deleteSpecificReleases_error_early (W : World) (Y : Yaml) (R : RegexpEngine)
        (fl : Main.Flags) (h : History) :
  spec (Main.deleteSpecificReleases W Y R fl) h (λ r t, is_err r = true → Forall quiet t).
Proof.
  unfold Main.deleteSpecificReleases.
  wp; leaf ltac:(cbv beta; intros _; trace_done).
  eapply spec_mono; [apply Main_GetLatestTag_quiet|]. intros lt t1 Ht1.
  wp; leaf ltac:(cbv beta; intros _; trace_done).
  unfold Main.log at 1. wp.
  eapply spec_mono; [apply Main_GetChangedFiles_spec|]. intros cf t2 [Ht2 _].
  wp; leaf ltac:(cbv beta; intros _; trace_done).
  unfold Main.GetChangedCharts. wp. cbv beta.
  eapply (spec_mono _ _ _ (λ _ t, Forall quiet t)); [apply Main_scanCharts_quiet|].
  intros cc t3 Ht3. unfold Main.log.
  wp; leaf ltac:(cbv beta; try (intros Hr; discriminate Hr); intros _; trace_done).
  all: wp_skip; wp; leaf ltac:(cbv beta; intros Hr; discriminate Hr).
  all: wp_skip; wp; cbv beta; intros Hr; discriminate Hr.
Qed.

(** X14.  [deleteAllReleases] deletes nothing unless it is authenticated,
    there is a release, and the run is forced or the user answers [y] or
    [Y] to the prompt. *)
Theorem deleteAllReleases_guards (W : World) (Y : Yaml) (fl : Main.Flags) (h : History) :
  ((∀ h', w_checkAuthentication W h' = false) →
   is_err (Main.deleteAllReleases W Y fl h).1 = true ∧
   Forall quiet (Main.deleteAllReleases W Y fl h).2) ∧
  ((∀ h', w_getAllReleases W h' = Ok []) →
   Forall quiet (Main.deleteAllReleases W Y fl h).2) ∧
  (Main.force fl = false →
   (∀ h', w_scanln W h' ≠ "y" ∧ w_scanln W h' ≠ "Y") →
   Forall quiet (Main.deleteAllReleases W Y fl h).2).
Proof.
  split; [|split].
  - intros Hauth.
    assert (spec (Main.deleteAllReleases W Y fl) h (λ r t, is_err r = true ∧ Forall quiet t))
      as Hs; [|exact Hs].
    unfold Main.deleteAllReleases. wp; leaf ltac:(cbv beta; split; [done|trace_done]).
    all: match goal with H : negb (w_checkAuthentication _ ?h') = false |- _ =>
           rewrite (Hauth h') in H; discriminate H end.
  - intros Hnone.
    assert (spec (Main.deleteAllReleases W Y fl) h (λ r t, Forall quiet t)) as Hs; [|exact Hs].
    unfold Main.deleteAllReleases, Main.log. wp; leaf ltac:(trace_done).
    all: match goal with H : w_getAllReleases _ ?h' = Ok ?rs, Hn : length ?rs ≠ 0 |- _ =>
           rewrite (Hnone h') in H; injection H as <-; done end.
  - intros Hforce Htyped.
    assert (spec (Main.deleteAllReleases W Y fl) h (λ r t, Forall quiet t)) as Hs; [|exact Hs].
    unfold Main.deleteAllReleases, Main.confirmAction, Main.log. rewrite Hforce.
    wp; leaf ltac:(trace_done).
    all: try match goal with H : negb false = false |- _ => discriminate H end.
    all: match goal with
         | H : negb (bool_decide (?x = _) || _) = false |- _ =>
             match x with
             | w_scanln _ ?h' =>
                 destruct (Htyped h') as [H1 H2];
                 rewrite !bool_decide_eq_false_2 in H by done; discriminate H
             end
         end.
Qed.

Lemma deleteAllReleases_guards_witness :
  let W := sampleWorld gitFeatureBranch releaseFiles
             [{| relID := 1; relName := "foo-0.0.0-dev"; relTagName := "foo-0.0.0-dev" |}]
             (Ok tt) "yes" in
  Forall quiet (Main.deleteAllReleases W (sampleYaml sample_index) deleteAllFlags []).2.
Proof.
  intros W.
  apply (proj2 (proj2 (deleteAllReleases_guards W (sampleYaml sample_index) deleteAllFlags []))).
  - reflexivity.
  - intros h'. split; by vm_compute.
Defined.

(** ** More on index.go *)

Ltac wp_use_P P L := eapply (spec_mono _ _ _ (λ _ t, Forall P t)); [apply L|intros ? ? ?].

Lemma Main_runGitCommand_P W (P : Event → Prop) g args h :
  P (EvGit (Main.RepoPath g) args) →
  spec (Main.runGitCommand W g args) h (λ _ t, Forall P t).
Proof. intros HP. unfold Main.runGitCommand. wp. cbv beta. simpl. by repeat constructor. Qed.

Lemma Main_PreparePagesBranch_P W (P : Event → Prop) cim h :
  quietEvents P →
  (∀ dir cmd args, cmd ∈ branchCommands → P (EvGit dir (cmd :: args))) →
  spec (Main.PreparePagesBranch W cim) h (λ _ t, Forall P t).
Proof.
  intros (Hlog & Hstat & Hread & Hnow) Hgit.
  assert (∀ g cmd args h', cmd ∈ branchCommands →
            spec (Main.runGitCommand W g (cmd :: args)) h' (λ _ t, Forall P t)) as Hrun.
  { intros. apply Main_runGitCommand_P. by apply Hgit. }
  unfold Main.PreparePagesBranch, Main.RestoreOriginalBranch, Main.BranchExists,
    Main.FetchBranch, Main.CheckoutBranch, Main.PullBranch, Main.GetCurrentBranch, Main.log.
  repeat (wp; try lazymatch goal with
                  | |- spec (Main.runGitCommand _ _ _) _ _ =>
                      wp_use_P P Hrun; [unfold branchCommands; set_solver|]
                  end).
  all: cbv beta in *; trace_done.
Qed.

Lemma Main_RestoreOriginalBranch_P W (P : Event → Prop) cim h :
  (∀ dir b, P (EvGit dir ["checkout"; b])) →
  spec (Main.RestoreOriginalBranch W cim) h (λ _ t, Forall P t).
Proof.
  intros Hgit. unfold Main.RestoreOriginalBranch, Main.CheckoutBranch, Main.runGitCommand.
  wp; trace_done.
Qed.

Lemma Main_loadIndexFile_P W Y (P : Event → Prop) cim h :
  quietEvents P →
  spec (Main.loadIndexFile W Y cim) h
       (λ r t, Forall P t ∧
               ∀ D, r = Ok D → ∃ raw, w_readFile W h "index.yaml" = Ok raw ∧
                                      UnmarshalIndex Y raw = Ok D).
Proof.
  intros (Hlog & Hstat & Hread & Hnow). unfold Main.loadIndexFile.
  wp; cbv beta; (split; [trace_done|]); intros D HD; simplify_eq; eauto.
Qed.

Lemma Main_writeIndexFile_P W Y (P : Event → Prop) cim indexFile h :
  (∀ data, MarshalIndex Y indexFile = Ok data → P (EvWriteFile "index.yaml" data)) →
  spec (Main.writeIndexFile W Y cim indexFile) h (λ _ t, Forall P t).
Proof.
  intros Hw. unfold Main.writeIndexFile. wp; trace_done; by apply Hw.
Qed.

Lemma Main_commitIfChanged_P W (P : Event → Prop) cim commitMsg h :
  quietEvents P →
  (∀ dir args, P (EvGit dir ("diff" :: args))) →
  (∀ dir args, P (EvGit dir ("add" :: args))) →
  (∀ dir, P (EvGit dir ["commit"; "-m"; commitMsg])) →
  (∀ dir args, P (EvGit dir ("push" :: args))) →
  spec (Main.commitIfChanged W cim commitMsg) h (λ _ t, Forall P t).
Proof.
  intros (Hlog & Hstat & Hread & Hnow) Hdiff Hadd Hcommit Hpush.
  unfold Main.commitIfChanged, Main.HasChanges, Main.CommitAndPush, Main.runGitCommand,
    Main.log.
  wp; trace_done.
Qed.

Lemma spec_forEach_log (P : Event → Prop) (lines : list string) h :
  (∀ m kv, P (EvLog m kv)) →
  spec (forEach Main.log lines) h (λ _ t, Forall P t).
Proof.
  intros Hlog. apply spec_forEach. intros line h' _. unfold Main.log.
  apply spec_call. by repeat constructor.
Qed.

Lemma writesOnly_quiet Φ : quietEvents (writesOnly Φ).
Proof. by repeat split. Qed.

Lemma writesOnly_git Φ dir args : writesOnly Φ (EvGit dir args).
Proof. done. Qed.

Lemma Forall_writesOnly Φ t n data :
  Forall (writesOnly Φ) t → EvWriteFile n data ∈ t → n = "index.yaml" ∧ Φ data.
Proof. intros Hall Hin. rewrite Forall_forall in Hall. by apply (Hall _ Hin). Qed.

(** One step through the index manager of package main with the lemmas
    above; [side] settles what they ask of [P]. *)
Ltac main_index_step W Y P :=
  lazymatch goal with
  | |- spec (Main.PreparePagesBranch _ _) _ _ => wp_use_P P (Main_PreparePagesBranch_P W P)
  | |- spec (Main.RestoreOriginalBranch _ _) _ _ => wp_use_P P (Main_RestoreOriginalBranch_P W P)
  | |- spec (Main.loadIndexFile _ _ _) _ _ =>
      eapply spec_mono; [apply (Main_loadIndexFile_P W Y P)|intros ? ? [? ?]]
  | |- spec (forEach Main.log _) _ _ => wp_use_P P (spec_forEach_log P)
  | |- spec (Main.log _) _ _ => unfold Main.log at 1
  | |- spec (Main.writeIndexFile _ _ _ _) _ _ => wp_use_P P (Main_writeIndexFile_P W Y P)
  | |- spec (Main.commitIfChanged _ _ _) _ _ => wp_use_P P (Main_commitIfChanged_P W P)
  end.

Ltac main_index W Y P side :=
  repeat (wp; try (main_index_step W Y P; [side..|]));
  leaf ltac:(cbv beta in *; trace_done).

Lemma Main_removeLoop_removeVersions charts D i removed lines :
  Main.removeLoop charts (D, []) [] = (i, removed, lines) → i = Main.removeVersions charts D.
Proof. intros H. unfold Main.removeVersions. by rewrite H. Qed.

Lemma Main_CleanMultipleChartIndexes_writes W Y cim charts h :
  spec (Main.CleanMultipleChartIndexes W Y cim charts) h
       (λ _ t, Forall (writesOnly (serialises W Y (Main.removeVersions charts))) t).
Proof.
  set (P := writesOnly (serialises W Y (Main.removeVersions charts))).
  pose proof (writesOnly_quiet (serialises W Y (Main.removeVersions charts))) as HQ.
  fold P in HQ. pose proof HQ as (Hlog & _).
  unfold Main.CleanMultipleChartIndexes.
  main_index W Y P ltac:(try done).
  intros data Hdata n' data' [= <- <-]. split; [done|].
  match goal with H : Main.removeLoop _ _ _ = _ |- _ =>
    apply Main_removeLoop_removeVersions in H; subst end.
  match goal with H : ∀ D, Ok ?D' = Ok D → _ |- _ =>
    destruct (H _ eq_refl) as (raw & Hraw & HD) end.
  by eexists _, raw, _.
Qed.

Lemma Main_CleanAllChartIndex_writes W Y cim h :
  spec (Main.CleanAllChartIndex W Y cim) h
       (λ _ t, Forall (writesOnly (serialises W Y (λ D, setEntries D ∅))) t).
Proof.
  set (P := writesOnly (serialises W Y (λ D, setEntries D ∅))).
  pose proof (writesOnly_quiet (serialises W Y (λ D, setEntries D ∅))) as HQ.
  fold P in HQ. pose proof HQ as (Hlog & _).
  unfold Main.CleanAllChartIndex.
  main_index W Y P ltac:(try done).
  intros data Hdata n' data' [= <- <-]. split; [done|].
  match goal with H : ∀ D, Ok ?D' = Ok D → _ |- _ =>
    destruct (H _ eq_refl) as (raw & Hraw & HD) end.
  by eexists _, raw, _.
Qed.
(** ** Delete-all: every listed release is visited *)

Lemma filter_no_deletion t :
  Forall (λ e, isDeletionCall e = false) t → List.filter isDeletionCall t = [].
Proof.
  induction 1 as [|e t He _ IH]; [done|]. simpl. by rewrite He.
Qed.

Lemma Main_CleanAllChartIndex_no_deletion W Y cim h :
  spec (Main.CleanAllChartIndex W Y cim) h (λ _ t, Forall (λ e, isDeletionCall e = false) t).
Proof.
  set (P := λ e, isDeletionCall e = false).
  assert (quietEvents P) as HQ by by repeat split. pose proof HQ as (Hlog & _).
  unfold Main.CleanAllChartIndex.
  main_index W Y P ltac:(try done).
Qed.

(** A confirmed run of [deleteAllReleases] is the deletion loop over the
    releases that were listed, between a prologue and an epilogue without
    deletion calls, and returns nil. *)
Lemma Main_deleteAllReleases_loop W Y fl releases h :
  (∀ h', w_newChartReleaseManager W h' (Main.repository fl) = Ok tt) →
  (∀ h', w_checkAuthentication W h' = true) →
  (∀ h', w_getAllReleases W h' = Ok releases) →
  (Main.force fl = true ∨ ∀ h', w_scanln W h' = "y" ∨ w_scanln W h' = "Y") →
  spec (Main.deleteAllReleases W Y fl) h
       (λ r t, r = Ok tt ∧
               ∃ t0 t1, t = t0 ++ (forEach (Main.deleteOneRelease W fl) releases (h ++ t0)).2
                            ++ t1 ∧
                        List.filter isDeletionCall t0 = [] ∧
                        List.filter isDeletionCall t1 = []).
Proof.
  intros Hmgr Hauth Hrel Hconfirm.
  unfold Main.deleteAllReleases, Main.confirmAction, Main.log.
  repeat (wp; try lazymatch goal with
                  | |- spec (forEach _ _) _ _ => unfold spec at 1; cbv beta
                  | |- spec (Main.CleanAllChartIndex _ _ _) _ _ =>
                      eapply spec_mono;
                      [apply Main_CleanAllChartIndex_no_deletion|intros ? ? ?%filter_no_deletion]
                  end).
  all: try match goal with H : w_newChartReleaseManager _ ?h' _ = Err _ |- _ =>
             rewrite (Hmgr h') in H; discriminate H end.
  all: try match goal with H : negb (w_checkAuthentication _ ?h') = true |- _ =>
             rewrite (Hauth h') in H; discriminate H end.
  all: try match goal with H : w_getAllReleases _ ?h' = Err _ |- _ =>
             rewrite (Hrel h') in H; discriminate H end.
  all: match goal with H : w_getAllReleases _ ?h' = Ok ?rs |- _ =>
         rewrite (Hrel h') in H; injection H as <- end.
  all: split; [done|].
  all: rewrite <- ?(assoc_L (++)), ?app_nil_r; cbn [app].
  all: rewrite <- ?(assoc_L (++)), ?app_nil_r; cbn [app].
  all: try match goal with
           | |- context [forEach _ _ (_ ++ ?p)] =>
               exists p; eexists; split; [simpl; reflexivity|]; split; [done|];
               rewrite ?List.filter_app;
               repeat match goal with H : List.filter _ _ = [] |- _ => rewrite H; clear H end;
               done
           end.
  all: try match goal with
           | |- context [forEach _ _ (_ ++ ?p)] =>
               exists p, []; split; [by rewrite app_nil_r|done]
           end.
  all: try match goal with
           | e : length ?rs = 0 |- _ =>
               destruct rs; [|done]; eexists _, []; split; [simpl; by rewrite app_nil_r|done]
           end.
  all: try match goal with H : negb true = true |- _ => discriminate H end.
  all: exfalso; destruct Hconfirm as [Hf|Hs];
    [match goal with H : negb (Main.force _) = true |- _ => rewrite Hf in H; discriminate H end|].
  all: match goal with H : negb (bool_decide (w_scanln _ ?h' = _) || _) = true |- _ =>
         destruct (Hs h') as [Hy|Hy]; rewrite Hy in H; discriminate H end.
Qed.


Lemma Main_forEach_elem W fl releases r h (P : Event → Prop) :
  r ∈ releases →
  (∀ h', ∃ e, e ∈ (Main.deleteOneRelease W fl r h').2 ∧ P e) →
  ∃ e, e ∈ (forEach (Main.deleteOneRelease W fl) releases h).2 ∧ P e.
Proof.
  intros (pre & post & ->)%list_elem_of_split Hone.
  rewrite forEach_app_run, forEach_cons_run.
  destruct (Hone (h ++ (forEach (Main.deleteOneRelease W fl) pre h).2)) as (e & He & HP).
  exists e. split; [|done].
  apply elem_of_app. right. apply elem_of_app. by left.
Qed.

Lemma Main_failed_tag_deletion_logged W fl pre r post h e :
  let h1 := h ++ (forEach (Main.deleteOneRelease W fl) pre h).2 in
  let t1 := EvDeleteRelease (relID r) (relName r)
            :: match w_deleteRelease W h1 (relID r) (relName r) with
               | Err e' => [EvLog ("Failed to delete release " +:+ relName r +:+ ": " +:+ e') []]
               | Ok _ => []
               end in
  Main.withTags fl = true → relTagName r ≠ "" →
  w_deleteTag W (h1 ++ t1) (relTagName r) = Err e →
  EvLog ("Failed to delete tag " +:+ relTagName r +:+ ": " +:+ e) []
  ∈ (forEach (Main.deleteOneRelease W fl) (pre ++ r :: post) h).2.
Proof.
  intros h1 t1 Htags Htag He. subst h1 t1.
  rewrite forEach_app_run, forEach_cons_run, Main_deleteOneRelease_run.
  cbv zeta. rewrite Htags, bool_decide_true by done. cbn [andb]. rewrite He.
  apply elem_of_app. right. apply elem_of_app. left. apply elem_of_app. right.
  right. left.
Qed.

(** What a confirmed run of [deleteAllReleases] does with the releases
    that were listed. *)
Lemma Main_deleteAllReleases_visits W Y fl releases h :
  (∀ h', w_newChartReleaseManager W h' (Main.repository fl) = Ok tt) →
  (∀ h', w_checkAuthentication W h' = true) →
  (∀ h', w_getAllReleases W h' = Ok releases) →
  (Main.force fl = true ∨ ∀ h', w_scanln W h' = "y" ∨ w_scanln W h' = "Y") →
  (Main.deleteAllReleases W Y fl h).1 = Ok tt ∧
  (∃ t0 t1, (Main.deleteAllReleases W Y fl h).2
            = t0 ++ (forEach (Main.deleteOneRelease W fl) releases (h ++ t0)).2 ++ t1 ∧
            List.filter isDeletionCall t0 = [] ∧ List.filter isDeletionCall t1 = []) ∧
  List.filter isDeletionCall (Main.deleteAllReleases W Y fl h).2
  = releases ≫= deletionCallsOf fl ∧
  (∀ r e, r ∈ releases →
          (∀ h', w_deleteRelease W h' (relID r) (relName r) = Err e) →
          EvLog ("Failed to delete release " +:+ relName r +:+ ": " +:+ e) []
          ∈ (Main.deleteAllReleases W Y fl h).2) ∧
  (∀ r e, r ∈ releases → Main.withTags fl = true → relTagName r ≠ "" →
          (∀ h', w_deleteTag W h' (relTagName r) = Err e) →
          EvLog ("Failed to delete tag " +:+ relTagName r +:+ ": " +:+ e) []
          ∈ (Main.deleteAllReleases W Y fl h).2).
Proof.
  intros Hmgr Hauth Hrel Hconfirm.
  destruct (Main_deleteAllReleases_loop W Y fl releases h Hmgr Hauth Hrel Hconfirm)
    as (Hr & t0 & t1 & Ht & H0 & H1).
  split; [done|]. split; [by exists t0, t1|]. rewrite Ht. split; [|split].
  - by rewrite !List.filter_app, H0, H1, Main_forEach_delete_calls, app_nil_r.
  - intros r e (pre & post & ->)%list_elem_of_split He.
    apply elem_of_app. right. apply elem_of_app. left.
    apply Main_failed_deletion_logged, He.
  - intros r e (pre & post & ->)%list_elem_of_split Htags Htag He.
    apply elem_of_app. right. apply elem_of_app. left.
    apply Main_failed_tag_deletion_logged; [done|done|apply He].
Qed.

(** [DeleteAllReleases] of chart-releaser hands the releases it listed to
    the deletion loop. *)
Lemma Internal_DeleteAllReleases_run W gh fuel h :
  let l0 := EvLog ("Deleting all releases for " +:+ Internal.owner gh +:+ "/"
                   +:+ Internal.repo gh) [] in
  Internal.DeleteAllReleases W gh fuel h
  = let '(listed, tl) := Internal.GetAllReleases W gh fuel (h ++ [l0]) in
    match listed with
    | None => (None, l0 :: tl)
    | Some (Err e) => (Some (Err ("failed to get releases: " +:+ e)), l0 :: tl)
    | Some (Ok releases) =>
        let '(r, t) := Internal.deleteListed (Internal.DeleteRelease gh) releases
                         (h ++ l0 :: tl) in
        (Some r, l0 :: tl ++ t)
    end.
Proof.
  intros l0. subst l0. unfold Internal.DeleteAllReleases, Internal.log.
  rewrite run_bind. unfold call at 1. cbn [fst snd]. rewrite run_bind.
  destruct (Internal.GetAllReleases W gh fuel _) as [[[releases|e]|] tl]; run_simpl;
    rewrite <- ?(assoc_L (++)); cbn [app]; try done.
  destruct (Internal.deleteListed _ _ _). by rewrite app_nil_r.
Qed.

Lemma Internal_deleteListed_run del releases h :
  Internal.deleteListed del releases h
  = if decide (length releases = 0) then (Ok tt, [EvLog "No releases found to delete" []])
    else
      let '(errors, t) := Internal.deleteEach del releases [] h in
      if decide (0 < length errors)
      then (Err ("failed to delete some releases: " +:+ strings_Join errors "; "), t)
      else (Ok tt, t ++ [EvLog ("Successfully deleted " +:+ fmt_d (length releases)
                                +:+ " releases") []]).
Proof.
  unfold Internal.deleteListed, Internal.log.
  destruct (decide (length releases = 0)); [done|].
  rewrite run_bind. destruct (Internal.deleteEach del releases [] h) as [errors t].
  destruct (decide (0 < length errors)); run_simpl; by rewrite ?app_nil_r.
Qed.

Lemma Internal_deleteEach_DeleteRelease gh releases errs h :
  Internal.deleteEach (Internal.DeleteRelease gh) releases errs h
  = (errs, releases ≫= λ r, [EvLog "Deleting release" ["releaseID"; pretty (relID r)];
                              EvLog "Successfully deleted release"
                                    ["releaseID"; pretty (relID r)]]).
Proof.
  revert h. induction releases as [|r l IH]; intros h; [done|].
  rewrite Internal_deleteEach_cons.
  unfold Internal.DeleteRelease at 1, Internal.logInfo. run_simpl.
  by rewrite IH.
Qed.

Lemma Internal_DeleteAllReleases_visits W gh fuel h releases tl :
  let l0 := EvLog ("Deleting all releases for " +:+ Internal.owner gh +:+ "/"
                   +:+ Internal.repo gh) [] in
  Internal.GetAllReleases W gh fuel (h ++ [l0]) = (Some (Ok releases), tl) →
  Internal.DeleteAllReleases W gh fuel h
  = (Some (Ok tt),
     l0 :: tl ++
       (if decide (length releases = 0) then [EvLog "No releases found to delete" []]
        else (releases ≫= λ r, [EvLog "Deleting release" ["releaseID"; pretty (relID r)];
                                 EvLog "Successfully deleted release"
                                       ["releaseID"; pretty (relID r)]])
             ++ [EvLog ("Successfully deleted " +:+ fmt_d (length releases)
                        +:+ " releases") []])).
Proof.
  intros l0 Hlist. rewrite Internal_DeleteAllReleases_run. fold l0. rewrite Hlist.
  rewrite Internal_deleteListed_run.
  destruct (decide (length releases = 0)); [done|].
  rewrite Internal_deleteEach_DeleteRelease. done.
Qed.

(** C8, amended.  In both delete-all implementations a failed deletion does
    not stop the run: every release that was listed is attempted, in order,
    and each failure is logged.  Package main ([deleteAllReleases]) only
    logs: once the releases are listed and the run is confirmed it runs the
    deletion loop over exactly the listed releases and returns nil, the
    failure of a release or tag deletion leaving its line in the log; it
    returns an error only before the first deletion, never because of one.
    [DeleteAllReleases] of chart-releaser hands the releases it listed to
    its loop, which collects the failures, and returns the aggregate error
    exactly when a deletion call failed, which, with the API call commented
    out in [DeleteRelease], does not happen. *)
Theorem per_item_recoverable (W : World) :
  (∀ fl releases h,
     List.filter isDeletionCall (forEach (Main.deleteOneRelease W fl) releases h).2
     = releases ≫= deletionCallsOf fl) ∧
  (∀ fl pre r post h e,
     w_deleteRelease W (h ++ (forEach (Main.deleteOneRelease W fl) pre h).2)
                     (relID r) (relName r) = Err e →
     EvLog ("Failed to delete release " +:+ relName r +:+ ": " +:+ e) []
     ∈ (forEach (Main.deleteOneRelease W fl) (pre ++ r :: post) h).2) ∧
  (∀ Y fl h,
     is_err (Main.deleteAllReleases W Y fl h).1 = true →
     Forall quiet (Main.deleteAllReleases W Y fl h).2) ∧
  (∀ del pre rel post h,
     let t_pre := (Internal.deleteEach del pre [] h).2 in
     ∃ t_post, (Internal.deleteEach del (pre ++ rel :: post) [] h).2
               = t_pre ++ (del (relID rel) (h ++ t_pre)).2 ++ t_post) ∧
  (∀ del pre rel post h e,
     (del (relID rel) (h ++ (Internal.deleteEach del pre [] h).2)).1 = Err e →
     EvLog ("Failed to delete release " +:+ relTagName rel +:+ ": " +:+ e) []
     ∈ (Internal.deleteEach del (pre ++ rel :: post) [] h).2) ∧
  (∀ del releases h,
     is_err (Internal.deleteListed del releases h).1 = true ↔
     ∃ pre rel post, releases = pre ++ rel :: post ∧
       is_err (del (relID rel) (h ++ (Internal.deleteEach del pre [] h).2)).1 = true) ∧
  (∀ gh releases h, (Internal.deleteListed (Internal.DeleteRelease gh) releases h).1 = Ok tt) ∧
  (∀ Y fl releases h,
     (∀ h', w_newChartReleaseManager W h' (Main.repository fl) = Ok tt) →
     (∀ h', w_checkAuthentication W h' = true) →
     (∀ h', w_getAllReleases W h' = Ok releases) →
     (Main.force fl = true ∨ ∀ h', w_scanln W h' = "y" ∨ w_scanln W h' = "Y") →
     (Main.deleteAllReleases W Y fl h).1 = Ok tt ∧
     (∃ t0 t1, (Main.deleteAllReleases W Y fl h).2
               = t0 ++ (forEach (Main.deleteOneRelease W fl) releases (h ++ t0)).2 ++ t1 ∧
               List.filter isDeletionCall t0 = [] ∧ List.filter isDeletionCall t1 = []) ∧
     List.filter isDeletionCall (Main.deleteAllReleases W Y fl h).2
     = releases ≫= deletionCallsOf fl ∧
     (∀ r e, r ∈ releases →
             (∀ h', w_deleteRelease W h' (relID r) (relName r) = Err e) →
             EvLog ("Failed to delete release " +:+ relName r +:+ ": " +:+ e) []
             ∈ (Main.deleteAllReleases W Y fl h).2) ∧
     (∀ r e, r ∈ releases → Main.withTags fl = true → relTagName r ≠ "" →
             (∀ h', w_deleteTag W h' (relTagName r) = Err e) →
             EvLog ("Failed to delete tag " +:+ relTagName r +:+ ": " +:+ e) []
             ∈ (Main.deleteAllReleases W Y fl h).2)) ∧
  (∀ fl pre r post h e,
     let h1 := h ++ (forEach (Main.deleteOneRelease W fl) pre h).2 in
     let t1 := EvDeleteRelease (relID r) (relName r)
               :: match w_deleteRelease W h1 (relID r) (relName r) with
                  | Err e' => [EvLog ("Failed to delete release " +:+ relName r +:+ ": "
                                      +:+ e') []]
                  | Ok _ => []
                  end in
     Main.withTags fl = true → relTagName r ≠ "" →
     w_deleteTag W (h1 ++ t1) (relTagName r) = Err e →
     EvLog ("Failed to delete tag " +:+ relTagName r +:+ ": " +:+ e) []
     ∈ (forEach (Main.deleteOneRelease W fl) (pre ++ r :: post) h).2) ∧
  (∀ gh fuel h releases tl,
     let l0 := EvLog ("Deleting all releases for " +:+ Internal.owner gh +:+ "/"
                      +:+ Internal.repo gh) [] in
     Internal.GetAllReleases W gh fuel (h ++ [l0]) = (Some (Ok releases), tl) →
     Internal.DeleteAllReleases W gh fuel h
     = (Some (Internal.deleteListed (Internal.DeleteRelease gh) releases (h ++ l0 :: tl)).1,
        l0 :: tl ++ (Internal.deleteListed (Internal.DeleteRelease gh) releases
                       (h ++ l0 :: tl)).2) ∧
     Internal.DeleteAllReleases W gh fuel h
     = (Some (Ok tt),
        l0 :: tl ++
          (if decide (length releases = 0) then [EvLog "No releases found to delete" []]
           else (releases ≫= λ r, [EvLog "Deleting release" ["releaseID"; pretty (relID r)];
                                    EvLog "Successfully deleted release"
                                          ["releaseID"; pretty (relID r)]])
                ++ [EvLog ("Successfully deleted " +:+ fmt_d (length releases)
                           +:+ " releases") []]))) ∧
  (∀ del releases h,
     Internal.deleteListed del releases h
     = if decide (length releases = 0) then (Ok tt, [EvLog "No releases found to delete" []])
       else
         let '(errors, t) := Internal.deleteEach del releases [] h in
         if decide (0 < length errors)
         then (Err ("failed to delete some releases: " +:+ strings_Join errors "; "), t)
         else (Ok tt, t ++ [EvLog ("Successfully deleted " +:+ fmt_d (length releases)
                                   +:+ " releases") []])).
Proof.
  split; [|split; [|split; [|split; [|split; [|split; [|split; [|split; [|split; [|split]]]]]]]]].
  - apply Main_forEach_delete_calls.
  - apply Main_failed_deletion_logged.
  - intros Y fl h. apply (Main_deleteAllReleases_error_early W Y fl h).
  - apply Internal_deleteEach_attempts.
  - intros del pre rel post h e He.
    rewrite Internal_deleteEach_app, Internal_deleteEach_cons.
    destruct (del (relID rel) _) as [d t1]. cbn [fst] in He. subst d. cbv zeta.
    destruct (Internal.deleteEach del post _ _) as [es t2]. cbn [snd].
    apply elem_of_app. right. apply elem_of_app. right. left.
  - apply Internal_deleteListed_error.
  - intros gh releases h.
    destruct (Internal.deleteListed (Internal.DeleteRelease gh) releases h).1 as [[]|e] eqn:Hr;
      [done|].
    assert (is_err (Internal.deleteListed (Internal.DeleteRelease gh) releases h).1 = true)
      as Herr by (by rewrite Hr).
    apply Internal_deleteListed_error in Herr as (pre & rel & post & _ & Hfail).
    by rewrite Internal_DeleteRelease_ok in Hfail.
  - intros Y fl releases h. apply Main_deleteAllReleases_visits.
  - apply Main_failed_tag_deletion_logged.
  - intros gh fuel h releases tl l0 Hlist. split.
    + rewrite Internal_DeleteAllReleases_run. fold l0. rewrite Hlist.
      by destruct (Internal.deleteListed _ _ _).
    + by apply Internal_DeleteAllReleases_visits.
  - apply Internal_deleteListed_run.
Qed.

Lemma per_item_recoverable_witness :
  let Y := sampleYaml sample_index in
  let foo := {| relID := 1; relName := "foo-0.0.0-dev"; relTagName := "foo-0.0.0-dev" |} in
  let bar := {| relID := 2; relName := "bar-0.0.0-dev"; relTagName := "bar-0.0.0-dev" |} in
  (Main.deleteAllReleases failingWorld Y deleteAllFlags []).1 = Ok tt ∧
  List.filter isDeletionCall (Main.deleteAllReleases failingWorld Y deleteAllFlags []).2
  = [EvDeleteRelease 1 "foo-0.0.0-dev"; EvDeleteTag "foo-0.0.0-dev";
     EvDeleteRelease 2 "bar-0.0.0-dev"; EvDeleteTag "bar-0.0.0-dev"] ∧
  EvLog "Failed to delete release bar-0.0.0-dev: 403 Forbidden" []
  ∈ (Main.deleteAllReleases failingWorld Y deleteAllFlags []).2 ∧
  EvLog "Failed to delete tag bar-0.0.0-dev: 403 Forbidden" []
  ∈ (Main.deleteAllReleases failingWorld Y deleteAllFlags []).2.
Proof.
  intros Y foo bar.
  destruct (proj1 (proj2 (proj2 (proj2 (proj2 (proj2 (proj2 (proj2
              (per_item_recoverable failingWorld))))))))
              Y deleteAllFlags [foo; bar] [])
    as (Hr & _ & Hcalls & Hrel & Htag).
  - intros h'. reflexivity.
  - intros h'. reflexivity.
  - intros h'. reflexivity.
  - right. intros h'. left. reflexivity.
  - split; [exact Hr|]. split; [exact Hcalls|]. split.
    + apply (Hrel bar "403 Forbidden").
      * right. left.
      * intros h'. reflexivity.
    + apply (Htag bar "403 Forbidden").
      * right. left.
      * reflexivity.
      * discriminate.
      * intros h'. reflexivity.
Defined.

Lemma checkouts_app t1 t2 : checkouts (t1 ++ t2) = checkouts t1 ++ checkouts t2.
Proof. apply omap_app. Qed.

Lemma gitCalls_app t1 t2 : gitCalls (t1 ++ t2) = gitCalls t1 ++ gitCalls t2.
Proof. apply omap_app. Qed.

Lemma last_gitCalls_snoc t dir args : last (gitCalls (t ++ [EvGit dir args])) = Some args.
Proof. rewrite gitCalls_app. apply last_snoc. Qed.

Lemma Forall_no_checkout t : Forall (λ e, checkouts [e] = []) t → checkouts t = [].
Proof.
  induction 1 as [|e t He _ IH]; [done|].
  change (e :: t) with ([e] ++ t). by rewrite checkouts_app, He, IH.
Qed.

Lemma no_checkout_quiet : quietEvents (λ e, checkouts [e] = []).
Proof. by repeat split. Qed.

Lemma Main_RestoreOriginalBranch_checkouts W cim h :
  spec (Main.RestoreOriginalBranch W cim) h
       (λ _ t, checkouts t = restored (Main.OriginalBranch cim) ∧
               (Main.OriginalBranch cim ≠ "" →
                ∃ dir, t = [EvGit dir ["checkout"; Main.OriginalBranch cim]])).
Proof.
  unfold Main.RestoreOriginalBranch, Main.CheckoutBranch, Main.runGitCommand, restored.
  wp; cbv beta; simpl; rewrite ?Heqs; (split; [done|]); intros ?; by eauto.
Qed.

Lemma Main_PreparePagesBranch_checkouts W cim h :
  spec (Main.PreparePagesBranch W cim) h
       (λ a t,
          match a.2 with
          | Ok _ =>
              ∃ raw, w_git W h (Main.RepoPath (Main.GitOps cim))
                       ["rev-parse"; "--abbrev-ref"; "HEAD"] = Ok raw ∧
                     Main.OriginalBranch a.1 = strings_TrimSpace raw ∧
                     checkouts t = [Main.PagesBranch cim]
          | Err e =>
              (is_err (w_git W h (Main.RepoPath (Main.GitOps cim))
                         ["rev-parse"; "--abbrev-ref"; "HEAD"]) = true ∧ checkouts t = []) ∨
              ∃ raw, w_git W h (Main.RepoPath (Main.GitOps cim))
                       ["rev-parse"; "--abbrev-ref"; "HEAD"] = Ok raw ∧
                     (checkouts t = [] ∨
                      (∃ e', e = "failed to checkout " +:+ Main.PagesBranch cim +:+ " branch: "
                                 +:+ e' ∧ checkouts t = [Main.PagesBranch cim]) ∨
                      (checkouts t = Main.PagesBranch cim :: restored (strings_TrimSpace raw) ∧
                       (strings_TrimSpace raw ≠ "" →
                        last (gitCalls t) = Some ["checkout"; strings_TrimSpace raw])))
          end).
Proof.
  unfold Main.PreparePagesBranch, Main.RestoreOriginalBranch, Main.BranchExists,
    Main.FetchBranch, Main.CheckoutBranch, Main.PullBranch, Main.GetCurrentBranch,
    Main.runGitCommand, Main.log.
  wp; cbv beta; simpl.
  all: destruct (w_git W h _ _) as [raw|] eqn:Hraw; try done.
  all: try (by left).
  all: injection Heqr as <-.
  all: try right; exists raw; split; [done|].
  all: first [ done | by left | by right; left; eexists
             | right; right; unfold restored;
               match goal with H : decide _ = _ |- _ => simpl in H; rewrite H end;
               split; [done|]; by intros ? ].
Qed.

Lemma no_checkout_git dir cmd args :
  cmd ≠ "checkout" → checkouts [EvGit dir (cmd :: args)] = [].
Proof.
  intros Hcmd. unfold checkouts. simpl.
  destruct args as [|? [|? ?]]; try done. by rewrite decide_False.
Qed.

Ltac main_index_checkouts W Y P :=
  repeat (wp; try first
                [ lazymatch goal with
                  | |- spec (Main.RestoreOriginalBranch _ _) _ _ =>
                      eapply spec_mono; [apply Main_RestoreOriginalBranch_checkouts|intros ? ? [? ?]]
                  end
                | main_index_step W Y P; [try done; intros; by apply no_checkout_git..|] ]).

Ltac checkouts_done :=
  cbv beta in *; rewrite ?checkouts_app;
  repeat match goal with
         | H : Forall _ ?t |- _ => apply Forall_no_checkout in H; rewrite H; clear H
         | H : checkouts ?t = _ |- _ => rewrite H; clear H
         | H : Main.OriginalBranch _ = _ |- _ => rewrite H; clear H
         end;
  simpl; by rewrite ?app_nil_r.

(** The restoring checkout, when there is one, is the last git command. *)
Ltac restore_last :=
  cbv beta in *;
  match goal with
  | Ho : Main.OriginalBranch _ = _, H : Main.OriginalBranch _ ≠ "" → ∃ _, _ = _ |- _ =>
      let Hne := fresh in
      intros Hne; rewrite Ho in H; destruct (H Hne) as [? ->];
      rewrite ?app_nil_r, ?(assoc_L (++)); apply last_gitCalls_snoc
  end.

(** X15 (index.go): the branches the index manager checks out.  A run of
    [CleanMultipleChartIndexes] on an empty chart list only logs.
    Otherwise, and in a run of [CleanAllChartIndex], the first git command
    asks for the current branch with [git rev-parse --abbrev-ref HEAD]; if
    that fails the run fails and nothing is checked out.  If it answers,
    then either the run fails without a checkout, or the checkout of the
    pages branch failed and is the only one, or the pages branch is checked
    out first and then the branch that git named, trimmed, and nothing
    else (nothing at all after the pages branch if that name was empty); in
    that last case the checkout of the named branch is the last git command
    of the run.  The answer of that last checkout is not looked at. *)
Theorem index_manager_checkouts W Y cim charts h :
  let dir := Main.RepoPath (Main.GitOps cim) in
  let pages := Main.PagesBranch cim in
  let post := λ h0 (r : result unit) t,
    match w_git W h0 dir ["rev-parse"; "--abbrev-ref"; "HEAD"] with
    | Err _ => is_err r = true ∧ checkouts t = []
    | Ok raw =>
        let orig := strings_TrimSpace raw in
        (is_err r = true ∧ checkouts t = []) ∨
        (∃ e, r = Err ("failed to checkout " +:+ pages +:+ " branch: " +:+ e) ∧
              checkouts t = [pages]) ∨
        (checkouts t = pages :: restored orig ∧
         (orig ≠ "" → last (gitCalls t) = Some ["checkout"; orig]))
    end in
  (charts = [] →
   Main.CleanMultipleChartIndexes W Y cim charts h
   = (Ok tt, [EvLog "No charts provided for index cleanup" []])) ∧
  (charts ≠ [] →
   spec (Main.CleanMultipleChartIndexes W Y cim charts) h
        (post (h ++ [EvLog ("Cleaning up chart indexes for: "
                            +:+ fmt_v (Main.chartLabel <$> charts)) []]))) ∧
  spec (Main.CleanAllChartIndex W Y cim) h
       (post (h ++ [EvLog ("Cleaning up all chart index entries from " +:+ pages
                           +:+ " branch...") []])).
Proof.
  set (P := λ e, checkouts [e] = []).
  pose proof no_checkout_quiet as HQ. fold P in HQ. pose proof HQ as (Hlog & _).
  intros dir pages post. subst dir pages post. split; [|split].
  - by intros ->.
  - intros Hne. unfold Main.CleanMultipleChartIndexes.
    destruct (decide (length charts = 0)) as [Hnil|_].
    { by apply nil_length_inv in Hnil. }
    wp; unfold Main.log at 1; wp.
    eapply spec_mono; [apply Main_PreparePagesBranch_checkouts|].
    intros [cim' prepared] t Hprep. wp; simpl in Hprep.
    + destruct Hprep as (raw & Hraw & Horig & Hco).
      main_index_checkouts W Y P.
      all: cbv beta; rewrite Hraw; right; right; (split; [checkouts_done|restore_last]).
    + rewrite app_nil_r.
      destruct Hprep as [[Hraw Hco]|(raw & Hraw & [Hco|[(e' & -> & Hco)|[Hco Hlast]]])].
      * destruct (w_git W _ _ _); [done|]. split; [done|]. checkouts_done.
      * rewrite Hraw. left. split; [done|]. checkouts_done.
      * rewrite Hraw. right. left. eexists. split; [done|]. checkouts_done.
      * rewrite Hraw. right. right. split; [checkouts_done|].
        intros Ho. rewrite gitCalls_app. simpl. by apply Hlast.
  - unfold Main.CleanAllChartIndex. wp. unfold Main.log at 1. wp.
    eapply spec_mono; [apply Main_PreparePagesBranch_checkouts|].
    intros [cim' prepared] t Hprep. wp; simpl in Hprep.
    + destruct Hprep as (raw & Hraw & Horig & Hco).
      main_index_checkouts W Y P.
      all: cbv beta; rewrite Hraw; right; right; (split; [checkouts_done|restore_last]).
    + rewrite app_nil_r.
      destruct Hprep as [[Hraw Hco]|(raw & Hraw & [Hco|[(e' & -> & Hco)|[Hco Hlast]]])].
      * destruct (w_git W _ _ _); [done|]. split; [done|]. checkouts_done.
      * rewrite Hraw. left. split; [done|]. checkouts_done.
      * rewrite Hraw. right. left. eexists. split; [done|]. checkouts_done.
      * rewrite Hraw. right. right. split; [checkouts_done|].
        intros Ho. rewrite gitCalls_app. simpl. by apply Hlast.
Qed.

(** The restoring checkout may fail: the run below still returns nil, with
    the failed checkout as its last git command. *)
Lemma CleanAllChartIndex_restore_unchecked :
  let W := sampleWorld gitRestoreFails releaseFiles [] (Ok tt) "" in
  let run := Main.CleanAllChartIndex W (sampleYaml sample_index)
               (Main.NewChartIndexManager (Main.NewGit ".") "gh-pages") [] in
  run.1 = Ok tt ∧
  checkouts run.2 = ["gh-pages"; "feature"] ∧
  last (gitCalls run.2) = Some ["checkout"; "feature"] ∧
  ∀ h, w_git W h "." ["checkout"; "feature"] = Err "exit status 1".
Proof. by vm_compute. Qed.

Lemma Main_removeChartVersion_removed chart D removed :
  ∃ sub, (Main.removeChartVersion chart (D, removed)).1.2 = removed ++ sub ∧
         sublist sub [Main.chartLabel chart].
Proof.
  unfold Main.removeChartVersion, Main.chartLabel.
  repeat case_match; simpl; first [by exists []; rewrite app_nil_r; split; [|apply sublist_nil_l]
                                  | by eexists; split].
Qed.

Lemma Main_removeLoop_removed charts D removed logs :
  ∃ sub, (Main.removeLoop charts (D, removed) logs).1.2 = removed ++ sub ∧
         sublist sub (Main.chartLabel <$> charts).
Proof.
  revert D removed logs. induction charts as [|chart charts IH]; intros D removed logs.
  - exists []. by rewrite app_nil_r.
  - cbn [Main.removeLoop].
    destruct (Main_removeChartVersion_removed chart D removed) as (sub1 & H1 & Hs1).
    destruct (Main.removeChartVersion chart (D, removed)) as [[D1 removed1] out].
    simpl in H1. subst removed1.
    destruct (IH D1 (removed ++ sub1) (logs ++ out)) as (sub2 & -> & Hs2).
    exists (sub1 ++ sub2). rewrite app_assoc. split; [done|].
    change (Main.chartLabel <$> chart :: charts)
      with ([Main.chartLabel chart] ++ (Main.chartLabel <$> charts)).
    by apply sublist_app.
Qed.

Lemma Main_removalMessage charts D i removed lines :
  Main.removeLoop charts (D, []) [] = (i, removed, lines) →
  0 < length removed →
  removalMessage charts
    (match removed with
     | [one] => "Remove " +:+ one +:+ " from index"
     | _ => "Remove " +:+ fmt_d (length removed) +:+ " chart versions from index"
     end).
Proof.
  intros Hloop Hlen.
  destruct (Main_removeLoop_removed charts D [] []) as (sub & Hsub & Hs).
  rewrite Hloop in Hsub. simpl in Hsub. subst sub.
  pose proof (sublist_length _ _ Hs) as Hle. rewrite length_fmap in Hle.
  destruct removed as [|one [|two rest]]; simpl in *; [lia| |].
  - left. assert (one ∈ Main.chartLabel <$> charts) as Hin.
    { eapply elem_of_sublist; [|exact Hs]. set_solver. }
    apply list_elem_of_fmap in Hin as (c & -> & Hc). by exists c.
  - right. exists (S (S (length rest))). split; [lia|done].
Qed.

Lemma commitsOnly_quiet Φ : quietEvents (commitsOnly Φ).
Proof. by repeat split. Qed.

Lemma commitsOnly_git Φ dir cmd args : cmd ≠ "commit" → commitsOnly Φ (EvGit dir (cmd :: args)).
Proof. intros Hcmd dir' args' [= <- -> <-]. done. Qed.

Lemma branchCommands_not_commit cmd : cmd ∈ branchCommands → cmd ≠ "commit".
Proof.
  unfold branchCommands. rewrite !elem_of_cons, elem_of_nil.
  intros [->|[->|[->|[->|[->|[]]]]]]; discriminate.
Qed.

Lemma Main_CleanMultipleChartIndexes_commits W Y cim charts h :
  spec (Main.CleanMultipleChartIndexes W Y cim charts) h
       (λ _ t, Forall (commitsOnly (removalMessage charts)) t).
Proof.
  set (P := commitsOnly (removalMessage charts)).
  pose proof (commitsOnly_quiet (removalMessage charts)) as HQ.
  fold P in HQ. pose proof HQ as (Hlog & _).
  unfold Main.CleanMultipleChartIndexes.
  main_index W Y P ltac:(first [done
                               |intros; apply commitsOnly_git; by apply branchCommands_not_commit
                               |idtac]).
  intros dir dir' args [= <- <-]. eexists. split; [done|].
  eapply Main_removalMessage; [eassumption|]. done.
Qed.

(** ** More on chart-releaser's index manager *)

Lemma Internal_runGitCommand_P W (P : Event → Prop) args h :
  (∀ m kv, P (EvLog m kv)) → P (EvGit "" args) →
  spec (Internal.runGitCommand W args) h (λ _ t, Forall P t).
Proof.
  intros Hlog HP. unfold Internal.runGitCommand, Internal.logInfo. wp; trace_done.
Qed.

Lemma Internal_preparePagesBranch_P W (P : Event → Prop) i h :
  quietEvents P →
  (∀ dir cmd args, cmd ∈ branchCommands → P (EvGit dir (cmd :: args))) →
  spec (Internal.preparePagesBranch W i) h (λ _ t, Forall P t).
Proof.
  intros (Hlog & Hstat & Hread & Hnow) Hgit.
  assert (∀ cmd args h', cmd ∈ branchCommands →
            spec (Internal.runGitCommand W (cmd :: args)) h' (λ _ t, Forall P t)) as Hrun.
  { intros. apply Internal_runGitCommand_P; [done|]. by apply Hgit. }
  unfold Internal.preparePagesBranch, Internal.restoreOriginalBranch, Internal.BranchExists,
    Internal.FetchBranch, Internal.CheckoutBranch, Internal.PullBranch,
    Internal.GetCurrentBranch, Internal.logInfo, Internal.indexYaml.
  repeat (wp; try lazymatch goal with
                  | |- spec (Internal.runGitCommand _ _) _ _ =>
                      wp_use_P P Hrun; [unfold branchCommands; set_solver|]
                  end).
  all: cbv beta in *; trace_done.
Qed.

Lemma Internal_restoreOriginalBranch_P W (P : Event → Prop) i h :
  (∀ m kv, P (EvLog m kv)) → (∀ dir b, P (EvGit dir ["checkout"; b])) →
  spec (Internal.restoreOriginalBranch W i) h (λ _ t, Forall P t).
Proof.
  intros Hlog Hgit.
  unfold Internal.restoreOriginalBranch, Internal.CheckoutBranch, Internal.runGitCommand,
    Internal.logInfo.
  wp; trace_done.
Qed.

Lemma Internal_loadIndexFile_P W Y (P : Event → Prop) i h :
  quietEvents P →
  spec (Internal.loadIndexFile W Y i) h
       (λ r t, Forall P t ∧
               ∀ D, r = Ok D →
                    (∃ h' raw, w_readFile W h' "index.yaml" = Ok raw ∧
                               UnmarshalIndex Y raw = Ok D) ∨
                    ∃ h', D = {| APIVersion := "v1"; Entries := ∅; Generated := w_now W h' |}).
Proof.
  intros (Hlog & Hstat & Hread & Hnow). unfold Internal.loadIndexFile, Internal.indexYaml.
  wp; cbv beta; (split; [trace_done|]); intros D HD; simplify_eq; eauto.
Qed.

Lemma Internal_writeIndexFile_P W Y (P : Event → Prop) i indexFile h :
  (∀ m kv, P (EvLog m kv)) →
  (∀ data, MarshalIndex Y indexFile = Ok data → P (EvWriteFile "index.yaml" data)) →
  spec (Internal.writeIndexFile W Y i indexFile) h (λ _ t, Forall P t).
Proof.
  intros Hlog Hw. unfold Internal.writeIndexFile, Internal.logInfo, Internal.indexYaml.
  wp; trace_done; by apply Hw.
Qed.

Lemma Internal_commitIndexChanges_P W (P : Event → Prop) i message h :
  (∀ m kv, P (EvLog m kv)) →
  (∀ dir args, P (EvGit dir ("diff" :: args))) →
  (∀ dir args, P (EvGit dir ("add" :: args))) →
  (∀ dir, P (EvGit dir ["commit"; "-m"; message])) →
  spec (Internal.commitIndexChanges W i message) h (λ _ t, Forall P t).
Proof.
  intros Hlog Hdiff Hadd Hcommit.
  unfold Internal.commitIndexChanges, Internal.HasChanges, Internal.CommitAndPush,
    Internal.runGitCommand, Internal.logInfo, Internal.indexYaml.
  wp; trace_done.
Qed.

Lemma spec_forEach_logInfo (P : Event → Prop) (lines : list (string * list string)) h :
  (∀ m kv, P (EvLog m kv)) →
  spec (forEach (λ line, Internal.logInfo line.1 line.2) lines) h (λ _ t, Forall P t).
Proof.
  intros Hlog. apply spec_forEach. intros line h' _. unfold Internal.logInfo.
  apply spec_call. by repeat constructor.
Qed.

Ltac internal_index_step W Y P :=
  lazymatch goal with
  | |- spec (Internal.preparePagesBranch _ _) _ _ =>
      wp_use_P P (Internal_preparePagesBranch_P W P)
  | |- spec (Internal.restoreOriginalBranch _ _) _ _ =>
      wp_use_P P (Internal_restoreOriginalBranch_P W P)
  | |- spec (Internal.loadIndexFile _ _ _) _ _ =>
      eapply spec_mono; [apply (Internal_loadIndexFile_P W Y P)|intros ? ? [? ?]]
  | |- spec (forEach _ _) _ _ => wp_use_P P (spec_forEach_logInfo P)
  | |- spec (Internal.writeIndexFile _ _ _ _) _ _ =>
      wp_use_P P (Internal_writeIndexFile_P W Y P)
  | |- spec (Internal.commitIndexChanges _ _ _) _ _ =>
      wp_use_P P (Internal_commitIndexChanges_P W P)
  | |- spec (Internal.logInfo _ _) _ _ => unfold Internal.logInfo at 1
  end.

Ltac internal_index W Y P side :=
  repeat (wp; try (internal_index_step W Y P; [side..|]));
  leaf ltac:(cbv beta in *; trace_done).

Lemma Internal_removeLoop_removeVersions charts D i lines :
  Internal.removeLoop charts D [] = (i, lines) → i = Internal.removeVersions charts D.
Proof. intros H. unfold Internal.removeVersions. by rewrite H. Qed.

Lemma Internal_CleanEntriesVersions_writesOnly W Y i charts h :
  spec (Internal.CleanEntriesVersions W Y i charts) h
       (λ _ t, Forall (writesOnly (serialisesOrFresh W Y (Internal.removeVersions charts))) t).
Proof.
  set (P := writesOnly (serialisesOrFresh W Y (Internal.removeVersions charts))).
  pose proof (writesOnly_quiet (serialisesOrFresh W Y (Internal.removeVersions charts))) as HQ.
  fold P in HQ. pose proof HQ as (Hlog & _).
  unfold Internal.CleanEntriesVersions.
  internal_index W Y P ltac:(try done).
  intros data Hdata n' data' [= <- <-]. split; [done|].
  match goal with H : Internal.removeLoop _ _ _ = _ |- _ =>
    apply Internal_removeLoop_removeVersions in H; subst end.
  match goal with H : ∀ D, Ok ?D' = Ok D → _ |- _ =>
    destruct (H _ eq_refl) as [(h' & raw & Hraw & HD)|(h' & ->)] end.
  - left. by eexists h', raw, _.
  - right. by exists h'.
Qed.

Lemma Internal_CleanAllEntries_writesOnly W Y i h :
  spec (Internal.CleanAllEntries W Y i) h
       (λ _ t, Forall (writesOnly (serialisesOrFresh W Y (λ D, setEntries D ∅))) t).
Proof.
  set (P := writesOnly (serialisesOrFresh W Y (λ D, setEntries D ∅))).
  pose proof (writesOnly_quiet (serialisesOrFresh W Y (λ D, setEntries D ∅))) as HQ.
  fold P in HQ. pose proof HQ as (Hlog & _).
  unfold Internal.CleanAllEntries.
  internal_index W Y P ltac:(try done).
  intros data Hdata n' data' [= <- <-]. split; [done|].
  match goal with H : ∀ D, Ok ?D' = Ok D → _ |- _ =>
    destruct (H _ eq_refl) as [(h' & raw & Hraw & HD)|(h' & ->)] end.
  - left. by eexists h', raw, _.
  - right. by exists h'.
Qed.

(** X16 (index.go, github.go): what the index managers write.  Every file
    write of [CleanMultipleChartIndexes] and of chart-releaser's
    [CleanEntriesVersions] is a write of [index.yaml], and its content is
    the serialisation of the package's [removeVersions] applied to a
    document the run parsed from [index.yaml] (for chart-releaser also to
    helm's fresh index when the file is missing).  For [CleanAllChartIndex]
    and [CleanAllEntries] it is that document with an empty entry map. *)
Theorem index_managers_write W Y cim i charts h n data :
  (EvWriteFile n data ∈ (Main.CleanMultipleChartIndexes W Y cim charts h).2 →
   n = "index.yaml" ∧ serialises W Y (Main.removeVersions charts) data) ∧
  (EvWriteFile n data ∈ (Main.CleanAllChartIndex W Y cim h).2 →
   n = "index.yaml" ∧ serialises W Y (λ D, setEntries D ∅) data) ∧
  (EvWriteFile n data ∈ (Internal.CleanEntriesVersions W Y i charts h).2 →
   n = "index.yaml" ∧ serialisesOrFresh W Y (Internal.removeVersions charts) data) ∧
  (EvWriteFile n data ∈ (Internal.CleanAllEntries W Y i h).2 →
   n = "index.yaml" ∧ serialisesOrFresh W Y (λ D, setEntries D ∅) data).
Proof.
  split_and!; apply Forall_writesOnly.
  - apply Main_CleanMultipleChartIndexes_writes.
  - apply Main_CleanAllChartIndex_writes.
  - apply Internal_CleanEntriesVersions_writesOnly.
  - apply Internal_CleanAllEntries_writesOnly.
Qed.

(** ** chart-releaser changes nothing on the remote *)

Lemma quietInternal_localOnly e : quietInternal e → localOnly e.
Proof.
  intros [Hd _]. unfold localOnly. destruct e as [dir [|cmd args]| | | | | | | | | | | | | | |];
    try done. simpl in *. by repeat (apply orb_false_elim in Hd as [Hd ?]).
Qed.

Lemma localOnly_quiet : quietEvents localOnly.
Proof. by repeat split. Qed.

Lemma localOnly_git dir cmd args : cmd ≠ "push" → localOnly (EvGit dir (cmd :: args)).
Proof. intros Hcmd. unfold localOnly. simpl. by apply bool_decide_eq_false_2. Qed.

Lemma branchCommands_not_push cmd : cmd ∈ branchCommands → cmd ≠ "push".
Proof.
  unfold branchCommands. rewrite !elem_of_cons, elem_of_nil.
  intros [->|[->|[->|[->|[->|[]]]]]]; discriminate.
Qed.

Ltac localOnly_side :=
  first [done
        |intros; apply localOnly_git; first [done | by apply branchCommands_not_push]
        |idtac].

Lemma Internal_CleanEntriesVersions_localOnly W Y i charts h :
  spec (Internal.CleanEntriesVersions W Y i charts) h (λ _ t, Forall localOnly t).
Proof.
  pose proof localOnly_quiet as HQ. pose proof HQ as (Hlog & _).
  unfold Internal.CleanEntriesVersions.
  internal_index W Y localOnly ltac:(localOnly_side).
Qed.

Lemma Internal_CleanAllEntries_localOnly W Y i h :
  spec (Internal.CleanAllEntries W Y i) h (λ _ t, Forall localOnly t).
Proof.
  pose proof localOnly_quiet as HQ. pose proof HQ as (Hlog & _).
  unfold Internal.CleanAllEntries.
  internal_index W Y localOnly ltac:(localOnly_side).
Qed.

Lemma Internal_deleteChartRelease_localOnly W m chart h :
  spec (Internal.deleteChartRelease W m chart) h (λ _ t, Forall localOnly t).
Proof.
  unfold Internal.deleteChartRelease, Internal.DeleteReleaseAndTag, Internal.DeleteReleaseByTag,
    Internal.DeleteRelease, Internal.DeleteTag, Internal.logInfo, Internal.log.
  wp; trace_done.
Qed.

Lemma Internal_listAllReleases_localOnly W gh fuel page acc h :
  spec (Internal.listAllReleases W gh fuel page acc) h (λ _ t, Forall localOnly t).
Proof.
  revert page acc h. induction fuel as [|fuel IH]; intros page acc h.
  - by apply spec_ret.
  - cbn [Internal.listAllReleases]. unfold Internal.logInfo, Internal.logError.
    repeat (wp; try lazymatch goal with
                    | |- spec (Internal.listAllReleases _ _ _ _ _) _ _ =>
                        wp_use_P localOnly IH
                    end).
    all: cbv beta in *; trace_done.
Qed.

Lemma Internal_DeleteRelease_localOnly gh releaseID h :
  spec (Internal.DeleteRelease gh releaseID) h (λ _ t, Forall localOnly t).
Proof. unfold Internal.DeleteRelease, Internal.logInfo. wp; trace_done. Qed.

Lemma Internal_deleteEach_localOnly gh releases errors h :
  spec (Internal.deleteEach (Internal.DeleteRelease gh) releases errors) h
       (λ _ t, Forall localOnly t).
Proof.
  revert errors h. induction releases as [|release releases IH]; intros errors h.
  - by apply spec_ret.
  - cbn [Internal.deleteEach]. unfold Internal.log.
    repeat (wp; try lazymatch goal with
                    | |- spec (Internal.deleteEach _ _ _) _ _ => wp_use_P localOnly IH
                    | |- spec (Internal.DeleteRelease _ _) _ _ =>
                        wp_use_P localOnly Internal_DeleteRelease_localOnly
                    end).
    all: cbv beta in *; trace_done.
Qed.

Lemma Internal_GetChangedFiles_localOnly W baseBranch pathFilter h :
  spec (Internal.GetChangedFiles W baseBranch pathFilter) h (λ _ t, Forall localOnly t).
Proof.
  eapply spec_mono; [apply Internal_GetChangedFiles_spec|]. intros ? ? [H _].
  eapply Forall_impl; [exact H|apply quietInternal_localOnly].
Qed.

Lemma Internal_scanCharts_localOnly W Y R m pattern dirs acc h :
  spec (Internal.scanCharts W Y R m pattern dirs acc) h (λ _ t, Forall localOnly t).
Proof.
  eapply Forall_impl; [apply Internal_scanCharts_quiet|apply quietInternal_localOnly].
Qed.

Lemma Internal_DeleteChangedCharts_localOnly W Y R m h :
  spec (Internal.DeleteChangedCharts W Y R m) h (λ _ t, Forall localOnly t).
Proof.
  pose proof localOnly_quiet as (Hlog & _).
  unfold Internal.DeleteChangedCharts, Internal.getChangedCharts.
  repeat (wp; try lazymatch goal with
                  | |- spec (Internal.GetChangedFiles _ _ _) _ _ =>
                      wp_use_P localOnly Internal_GetChangedFiles_localOnly
                  | |- spec (Internal.scanCharts _ _ _ _ _ _ _) _ _ =>
                      wp_use_P localOnly Internal_scanCharts_localOnly
                  | |- spec (forEach _ _) _ _ =>
                      eapply (spec_mono _ _ _ (λ _ t, Forall localOnly t));
                      [apply spec_forEach; intros;
                       apply Internal_deleteChartRelease_localOnly
                      |intros ? ? ?]
                  | |- spec (Internal.CleanEntriesVersions _ _ _ _) _ _ =>
                      wp_use_P localOnly Internal_CleanEntriesVersions_localOnly
                  | |- spec (Internal.logInfo _ _) _ _ => unfold Internal.logInfo at 1
                  end).
  all: cbv beta in *; trace_done.
Qed.

Lemma Internal_DeleteAllReleases_localOnly W Y m fuel h :
  spec (Internal.ReleaseManager_DeleteAllReleases W Y m fuel) h (λ _ t, Forall localOnly t).
Proof.
  pose proof localOnly_quiet as (Hlog & _).
  unfold Internal.ReleaseManager_DeleteAllReleases, Internal.DeleteAllReleases,
    Internal.GetAllReleases, Internal.deleteListed.
  repeat (wp; try lazymatch goal with
                  | |- spec (Internal.listAllReleases _ _ _ _ _) _ _ =>
                      wp_use_P localOnly Internal_listAllReleases_localOnly
                  | |- spec (Internal.deleteEach _ _ _) _ _ =>
                      wp_use_P localOnly Internal_deleteEach_localOnly
                  | |- spec (Internal.CleanAllEntries _ _ _) _ _ =>
                      wp_use_P localOnly Internal_CleanAllEntries_localOnly
                  | |- spec (Internal.logInfo _ _) _ _ => unfold Internal.logInfo at 1
                  | |- spec (Internal.log _) _ _ => unfold Internal.log at 1
                  end).
  all: cbv beta in *; trace_done.
Qed.

(** X17 (release_manager.go, github.go, git.go of chart-releaser): with the
    API calls of [DeleteRelease] and [DeleteTag] and the [git push] of
    [CommitAndPush] commented out, neither workflow of the release manager
    changes anything on the remote: no run of [DeleteChangedCharts] or of
    [DeleteAllReleases] contains a release or tag deletion request or a
    push, whatever the world answers. *)
Theorem chart_releaser_local_only W Y R m fuel h :
  Forall localOnly (Internal.DeleteChangedCharts W Y R m h).2 ∧
  Forall localOnly (Internal.ReleaseManager_DeleteAllReleases W Y m fuel h).2.
Proof.
  split; [apply Internal_DeleteChangedCharts_localOnly|apply Internal_DeleteAllReleases_localOnly].
Qed.

(** ** The log sink *)

Lemma pairsOf_app_even {V} (render : V → string) (kvs1 kvs2 : list V) :
  Nat.Even (length kvs1) →
  Logger.pairsOf render (kvs1 ++ kvs2) = Logger.pairsOf render kvs1 ++ Logger.pairsOf render kvs2.
Proof.
  revert kvs2. induction kvs1 as [kvs1 IH] using (induction_ltof1 _ (@length V)).
  unfold ltof in IH. intros kvs2 Heven.
  destruct kvs1 as [|k [|v rest]]; [done| |].
  - destruct Heven as [[|n] Hn]; simpl in Hn; lia.
  - simpl. rewrite IH; [done|simpl; lia|].
    destruct Heven as [n Hn]. simpl in Hn. exists (n - 1). lia.
Qed.

Lemma pairsOf_dangling {V} (render : V → string) (kvs : list V) (k : V) :
  Nat.Even (length kvs) → Logger.pairsOf render (kvs ++ [k]) = Logger.pairsOf render kvs.
Proof. intros Heven. rewrite pairsOf_app_even by done. simpl. by rewrite app_nil_r. Qed.

(** X19 (logger.go): key-value arguments are read in pairs.  Let the
    argument list [kvs1] have even length.  Then a further single key after
    it is dropped, by [WithValues] and by [formatMessage] alike; attaching
    [kvs1] and then [kvs2] in two calls of [WithValues] is the same as
    attaching [kvs1 ++ kvs2] in one; and when the first call is given one
    more, dangling key, the two calls still attach [kvs1 ++ kvs2], without
    that key.  (For a first call with an odd number of arguments the two
    calls and the single call differ in general.) *)
Theorem LogSink_pairs {V} (render : V → string) (l : Logger.LogSink)
        (kvs1 kvs2 : list V) (k : V) (timestamp level msg : string) (keys : list string) :
  Nat.Even (length kvs1) →
  Logger.WithValues render l (kvs1 ++ [k]) = Logger.WithValues render l kvs1 ∧
  Logger.formatMessage render l timestamp keys level msg (kvs1 ++ [k])
  = Logger.formatMessage render l timestamp keys level msg kvs1 ∧
  Logger.WithValues render l (kvs1 ++ kvs2)
  = Logger.WithValues render (Logger.WithValues render l kvs1) kvs2 ∧
  Logger.WithValues render (Logger.WithValues render l (kvs1 ++ [k])) kvs2
  = Logger.WithValues render l (kvs1 ++ kvs2).
Proof.
  intros Heven. unfold Logger.WithValues, Logger.formatMessage. simpl.
  rewrite pairsOf_dangling, pairsOf_app_even, foldl_app by done. done.
Qed.

Lemma LogSink_pairs_witness :
  Logger.WithValues id (Logger.NewLogSink 2) (["service"; "test-service"] ++ ["version"])
  = Logger.WithValues id (Logger.NewLogSink 2) ["service"; "test-service"] ∧
  Logger.formatMessage id (Logger.NewLogSink 2) "2024-01-01T00:00:00.000Z" [] "INFO" "started"
    (["service"; "test-service"] ++ ["version"])
  = Logger.formatMessage id (Logger.NewLogSink 2) "2024-01-01T00:00:00.000Z" [] "INFO" "started"
      ["service"; "test-service"] ∧
  Logger.WithValues id (Logger.NewLogSink 2) (["service"; "test-service"] ++ ["version"; "1.0.0"])
  = Logger.WithValues id (Logger.WithValues id (Logger.NewLogSink 2) ["service"; "test-service"])
      ["version"; "1.0.0"] ∧
  Logger.WithValues id
    (Logger.WithValues id (Logger.NewLogSink 2) (["service"; "test-service"] ++ ["version"]))
    ["version"; "1.0.0"]
  = Logger.WithValues id (Logger.NewLogSink 2) (["service"; "test-service"] ++ ["version"; "1.0.0"]).
Proof.
  apply (LogSink_pairs id (Logger.NewLogSink 2) ["service"; "test-service"] ["version"; "1.0.0"]
           "version" "2024-01-01T00:00:00.000Z" "INFO" "started" []).
  exists 1. reflexivity.
Defined.

(** The condition on the first call is needed: after an odd number of
    arguments the two calls and the single call differ. *)
Lemma LogSink_pairs_odd_first_call :
  Logger.values (Logger.WithValues id (Logger.NewLogSink 2) (["a"] ++ ["b"; "c"])) !! "a"
  = Some "b" ∧
  Logger.values
    (Logger.WithValues id (Logger.WithValues id (Logger.NewLogSink 2) ["a"]) ["b"; "c"]) !! "a"
  = None.
Proof. by vm_compute. Qed.

Lemma foldl_insert_lookup {V} (ps : list (string * V)) (m : gmap string V) (key : string) :
  foldl (λ m kv, <[kv.1 := kv.2]> m) m ps !! key
  = match last (filter (λ p, p.1 = key) ps) with
    | Some p => Some p.2
    | None => m !! key
    end.
Proof.
  induction ps as [|p ps IH] using rev_ind; [done|].
  rewrite foldl_app, filter_app. simpl.
  destruct (decide (p.1 = key)) as [Heq|Hne].
  - rewrite filter_cons_True by done. rewrite filter_nil, last_snoc. subst key.
    by rewrite lookup_insert_eq.
  - rewrite filter_cons_False by done. rewrite filter_nil, app_nil_r.
    by rewrite lookup_insert_ne.
Qed.

(** X20 (logger.go): what [WithValues] stores.  A key that occurs in no
    pair keeps the value it had; a key that occurs in a pair gets the
    value of its last pair. *)
Theorem LogSink_WithValues_lookup {V} (render : V → string) (l : Logger.LogSink)
        (kvs : list V) (key : string) :
  (key ∉ (Logger.pairsOf render kvs).*1 →
   Logger.values (Logger.WithValues render l kvs) !! key = Logger.values l !! key) ∧
  (∀ pre k v post,
      kvs = pre ++ k :: v :: post → Nat.Even (length pre) → render k = key →
      key ∉ (Logger.pairsOf render post).*1 →
      Logger.values (Logger.WithValues render l kvs) !! key = Some v).
Proof.
  assert (∀ ps : list (string * V), key ∉ ps.*1 → filter (λ p, p.1 = key) ps = []) as Hnone.
  { intros ps Hps. induction ps as [|p ps IH]; [done|].
    rewrite fmap_cons, not_elem_of_cons in Hps. destruct Hps as [Hp Hps].
    rewrite filter_cons_False by (simpl; congruence). by apply IH. }
  split.
  - intros Hkey. simpl. rewrite foldl_insert_lookup. by rewrite Hnone.
  - intros pre k v post -> Heven Hk Hpost. simpl.
    rewrite foldl_insert_lookup, pairsOf_app_even by done. simpl.
    rewrite filter_app, filter_cons_True by done.
    rewrite (Hnone _ Hpost). by rewrite last_snoc.
Qed.

Lemma derivedFrom_verbosity {V} (render : V → string) (l0 l : Logger.LogSink) :
  derivedFrom render l0 l → Logger.verbosity l = Logger.verbosity l0.
Proof. induction 1; done. Qed.

Lemma verbosityOf_range level : (0 ≤ Logger.verbosityOf level ≤ 4)%Z.
Proof. unfold Logger.verbosityOf. repeat case_decide; lia. Qed.

(** X21 (logger.go): the log level never silences [Info].  [InitLogger]
    maps every level, the unknown ones included, to a verbosity between 0
    and 4, and a sink answers [Enabled] for all levels up to its verbosity:
    so the sink of the global logger and every sink derived from it by
    [WithName] and [WithValues] writes a line for each [Info] at level 0,
    also under WARN and ERROR; what these two levels switch off are the
    [V(2)] and higher, respectively the [V(1)] and higher messages. *)
Theorem Info_never_silenced {V} (render : V → string) (level : string) (l : Logger.LogSink)
        (timestamp msg : string) (keys : list string) (kvs : list V) (n : Z) :
  derivedFrom render (Logger.InitLogger level) l →
  Logger.Info render l timestamp keys 0 msg kvs
  = Some (Logger.formatMessage render l timestamp keys "INFO" msg kvs) ∧
  (Logger.Info render l timestamp keys n msg kvs = None ↔ (Logger.verbosityOf level < n)%Z).
Proof.
  intros Hl. apply derivedFrom_verbosity in Hl. simpl in Hl.
  pose proof (verbosityOf_range level) as Hrange.
  unfold Logger.Info, Logger.Enabled. rewrite Hl. split.
  - rewrite bool_decide_eq_true_2 by lia. done.
  - case_bool_decide; simpl; split; try done; lia.
Qed.

Lemma Info_never_silenced_witness :
  let l := Logger.WithValues id (Logger.WithName (Logger.InitLogger "ERROR") "git")
             ["component"; "git-operations"] in
  Logger.Info id l "2024-01-01T00:00:00.000Z" ["component"] 0 "Starting" []
  = Some (Logger.formatMessage id l "2024-01-01T00:00:00.000Z" ["component"] "INFO"
            "Starting" []) ∧
  (Logger.Info id l "2024-01-01T00:00:00.000Z" ["component"] 1 "Starting" [] = None
   ↔ (Logger.verbosityOf "ERROR" < 1)%Z).
Proof.
  intros l.
  apply (Info_never_silenced id "ERROR" l "2024-01-01T00:00:00.000Z" "Starting" ["component"]
           [] 1).
  apply derived_values, derived_name, derived_refl.
Defined.

Lemma string_app_assoc (a b c : string) : (a +:+ b) +:+ c = a +:+ b +:+ c.
Proof.
  induction a as [|x a IH]; [done|].
  change (String x ((a +:+ b) +:+ c) = String x (a +:+ b +:+ c)). by rewrite IH.
Qed.

Lemma string_app_nonempty (a b : string) : a ≠ "" → a +:+ b ≠ "".
Proof. by destruct a. Qed.

(** X22 (logger.go): names and values are independent.  [WithName] and
    [WithValues] commute, neither changes the verbosity, and names nest
    with dots: below a named sink [WithName a] then [WithName b] gives
    [name.a.b]; below an unnamed one [a.b], and only [b] when [a] is
    empty. *)
Theorem LogSink_WithName_WithValues {V} (render : V → string) (l : Logger.LogSink)
        (kvs : list V) (a b : string) :
  Logger.WithName (Logger.WithValues render l kvs) a
  = Logger.WithValues render (Logger.WithName l a) kvs ∧
  Logger.verbosity (Logger.WithName (Logger.WithValues render l kvs) a) = Logger.verbosity l ∧
  Logger.name (Logger.WithName (Logger.WithName l a) b)
  = (if decide (Logger.name l ≠ "") then Logger.name l +:+ "." +:+ a +:+ "." +:+ b
     else if decide (a ≠ "") then a +:+ "." +:+ b else b).
Proof.
  split_and!; [done..|]. simpl.
  destruct (decide (Logger.name l ≠ "")) as [Hn|Hn].
  - rewrite decide_True by by apply string_app_nonempty.
    by rewrite string_app_assoc.
  - done.
Qed.

(** ** The cleanup command of chart-releaser *)

Lemma spec_and {A} (m : M A) h (Q1 Q2 : A → list Event → Prop) :
  spec m h Q1 → spec m h Q2 → spec m h (λ a t, Q1 a t ∧ Q2 a t).
Proof. by split. Qed.

(** X23 (cmd/main.go): the cleanup command needs an owner, a repository
    and a token.  When one of them is empty it returns an error, and nothing
    has happened by then but log lines (none at all when the owner or the
    repository is missing): no git command, no file access, no request. *)
Theorem cleanupChartIndex_requires W Y R (fl : Cmd.Flags) (ghToken : string) h :
  Cmd.owner fl = "" ∨ Cmd.repository fl = "" ∨ ghToken = "" →
  spec (Cmd.cleanupChartIndex W Y R fl ghToken) h
       (λ r t, is_err r = true ∧ Forall (λ e, isLog e = true) t ∧
               (Cmd.owner fl = "" ∨ Cmd.repository fl = "" → t = [])).
Proof.
  intros Hmissing. unfold Cmd.cleanupChartIndex, Internal.logInfo.
  destruct (decide (Cmd.owner fl = "" ∨ Cmd.repository fl = "")) as [Hid|Hid].
  - by apply spec_ret.
  - destruct (decide (ghToken = "")) as [Htoken|Htoken]; [|tauto].
    wp. cbv beta. simpl. split_and!; [done|by repeat constructor|tauto].
Qed.

Lemma cleanupChartIndex_requires_witness :
  let fl := {| Cmd.owner := "zncdatadev"; Cmd.repository := "kubedoop-helm-charts";
               Cmd.chartDir := "charts"; Cmd.baseBranch := "main";
               Cmd.pagesBranch := "gh-pages"; Cmd.versionPattern := "^0\.0\.0-dev$";
               Cmd.cleanAllIndex := false |} in
  let W := sampleWorld gitFeatureBranch releaseFiles [] (Ok tt) "" in
  spec (Cmd.cleanupChartIndex W (sampleYaml sample_index) RE2Fragment.engine fl "") []
       (λ r t, is_err r = true ∧ Forall (λ e, isLog e = true) t ∧
               (Cmd.owner fl = "" ∨ Cmd.repository fl = "" → t = [])).
Proof.
  intros fl W.
  apply (cleanupChartIndex_requires W (sampleYaml sample_index) RE2Fragment.engine fl "" []).
  right. right. reflexivity.
Defined.

Lemma Internal_CleanAllEntries_releases W Y i h :
  spec (Internal.CleanAllEntries W Y i) h (λ _ t, Forall (λ e, touchesReleases e = false) t).
Proof.
  set (P := λ e, touchesReleases e = false).
  assert (quietEvents P) as HQ by by repeat split. pose proof HQ as (Hlog & _).
  unfold Internal.CleanAllEntries.
  internal_index W Y P ltac:(try done).
Qed.

(** X24 (cmd/main.go): with [--all] the cleanup command works on the index
    alone.  It sends no request about releases or tags to the API, and what
    it writes is [index.yaml] with an empty entry map. *)
Theorem cleanupChartIndex_all W Y R (fl : Cmd.Flags) (ghToken : string) h :
  Cmd.cleanAllIndex fl = true →
  spec (Cmd.cleanupChartIndex W Y R fl ghToken) h
       (λ _ t, Forall (λ e, touchesReleases e = false) t ∧
               Forall (writesOnly (serialisesOrFresh W Y (λ D, setEntries D ∅))) t).
Proof.
  intros Hall. apply spec_and.
  - unfold Cmd.cleanupChartIndex, Cmd.NewGHClient, Internal.logInfo. rewrite Hall.
    repeat (wp; try lazymatch goal with
                    | |- spec (Internal.CleanAllEntries _ _ _) _ _ =>
                        eapply spec_mono; [apply Internal_CleanAllEntries_releases|];
                        intros ? ? ?
                    end).
    all: cbv beta in *; trace_done.
  - unfold Cmd.cleanupChartIndex, Cmd.NewGHClient, Internal.logInfo. rewrite Hall.
    repeat (wp; try lazymatch goal with
                    | |- spec (Internal.CleanAllEntries _ _ _) _ _ =>
                        eapply spec_mono; [apply Internal_CleanAllEntries_writesOnly|];
                        intros ? ? ?
                    end).
    all: cbv beta in *; trace_done.
Qed.

Lemma cleanupChartIndex_all_witness :
  let fl := {| Cmd.owner := "zncdatadev"; Cmd.repository := "kubedoop-helm-charts";
               Cmd.chartDir := "charts"; Cmd.baseBranch := "main";
               Cmd.pagesBranch := "gh-pages"; Cmd.versionPattern := "^0\.0\.0-dev$";
               Cmd.cleanAllIndex := true |} in
  let W := sampleWorld gitFeatureBranch releaseFiles [] (Ok tt) "" in
  let Y := sampleYaml sample_index in
  spec (Cmd.cleanupChartIndex W Y RE2Fragment.engine fl "token") []
       (λ _ t, Forall (λ e, touchesReleases e = false) t ∧
               Forall (writesOnly (serialisesOrFresh W Y (λ D, setEntries D ∅))) t).
Proof.
  intros fl W Y.
  apply (cleanupChartIndex_all W Y RE2Fragment.engine fl "token" []). reflexivity.
Defined.

(** X25 (cmd/main.go): whatever its flags, the cleanup command changes
    nothing on the remote: no run contains a release or tag deletion request
    or a [git push]. *)
Theorem cleanupChartIndex_local_only W Y R (fl : Cmd.Flags) (ghToken : string) h :
  Forall localOnly (Cmd.cleanupChartIndex W Y R fl ghToken h).2.
Proof.
  change (spec (Cmd.cleanupChartIndex W Y R fl ghToken) h (λ _ t, Forall localOnly t)).
  unfold Cmd.cleanupChartIndex, Cmd.NewGHClient, Internal.logInfo.
  repeat (wp; try lazymatch goal with
                  | |- spec (Internal.CleanAllEntries _ _ _) _ _ =>
                      wp_use_P localOnly Internal_CleanAllEntries_localOnly
                  | |- spec (Internal.DeleteChangedCharts _ _ _ _) _ _ =>
                      wp_use_P localOnly Internal_DeleteChangedCharts_localOnly
                  end).
  all: cbv beta in *; trace_done.
Qed.

(** X18 (index.go): the commit message of [CleanMultipleChartIndexes].
    Every commit of a run is [git commit -m msg], where [msg] names the one
    chart version that was removed, one of the charts given, or counts the
    removed versions: at least two, at most as many as charts were given. *)
Theorem CleanMultipleChartIndexes_commit_message W Y cim charts h dir args :
  EvGit dir ("commit" :: args) ∈ (Main.CleanMultipleChartIndexes W Y cim charts h).2 →
  ∃ msg, args = ["-m"; msg] ∧ removalMessage charts msg.
Proof.
  intros Hin. pose proof (Main_CleanMultipleChartIndexes_commits W Y cim charts h) as Hall.
  unfold spec in Hall. rewrite Forall_forall in Hall. by apply (Hall _ Hin dir args).
Qed.

Lemma CleanMultipleChartIndexes_commit_message_witness :
  ∃ msg, ["-m"; "Remove foo v0.0.0-dev from index"] = ["-m"; msg] ∧
         removalMessage [chart_foo] msg.
Proof.
  apply (CleanMultipleChartIndexes_commit_message
           (sampleWorld gitReformatted releaseFiles [] (Ok tt) "") (sampleYaml sample_index)
           (Main.NewChartIndexManager (Main.NewGit ".") "gh-pages") [chart_foo] [] ".").
  apply list_elem_of_In. vm_compute. tauto.
Defined.

(** X26 (github.go of chart-releaser): a release that does not exist is no
    obstacle.  [DeleteReleaseAndTag] sends one request, the look-up of the
    release by its tag, and fails exactly when that look-up fails with an
    error whose text does not contain [404]; a missing release, like a found
    one, gives nil. *)
Theorem DeleteReleaseAndTag_not_found W gh tag h :
  let h0 := h ++ [EvLog ("Deleting release and tag: " +:+ tag) [];
                  EvLog "Deleting release by tag" ["tag"; tag]] in
  spec (Internal.DeleteReleaseAndTag W gh tag) h
       (λ r t,
          filter (λ e, isLog e = false) t = [EvGetReleaseByTag tag] ∧
          (is_err r = true ↔
           ∃ e, w_getReleaseByTag W h0 tag = Err e ∧ Internal.isNotFoundError e = false)).
Proof.
  cbv zeta.
  unfold Internal.DeleteReleaseAndTag, Internal.DeleteReleaseByTag, Internal.DeleteRelease,
    Internal.DeleteTag, Internal.logInfo, Internal.log.
  wp; cbv beta; simpl in *; (split; [done|]).
  all: rewrite <- ?app_assoc in *; simpl in *.
  all: first [ split; [done|intros (e' & He' & Hnf); simplify_eq; congruence]
             | split; [eauto|done] ].
Qed.

(** ** More on chart-releaser's release manager *)



(** ** The branches chart-releaser's index manager checks out *)

Lemma Internal_runGitCommand_checkouts W args h :
  spec (Internal.runGitCommand W args) h
       (λ r t, checkouts t = checkouts [EvGit "" args] ∧
               gitCalls t = [args] ∧
               (is_err r = true →
                is_err (w_git W (h ++ [EvLog "Running git command" ["args"; fmt_v args]]) ""
                          args) = true) ∧
               ∀ a, r = Ok a →
                    ∃ raw, w_git W (h ++ [EvLog "Running git command" ["args"; fmt_v args]]) ""
                             args = Ok raw ∧ a = strings_TrimSpace raw).
Proof.
  unfold Internal.runGitCommand, Internal.logInfo.
  wp; cbv beta; simpl; (split; [by rewrite ?app_nil_r|]); (split; [done|]).
  all: split; [by rewrite ?Heqr|]; intros a' Ha'; simplify_eq; eauto.
Qed.

Lemma Internal_restoreOriginalBranch_checkouts W i h :
  spec (Internal.restoreOriginalBranch W i) h
       (λ _ t, checkouts t = restored (Internal.OriginalBranch i) ∧
               (Internal.OriginalBranch i ≠ "" →
                gitCalls t = [["checkout"; Internal.OriginalBranch i]])).
Proof.
  unfold Internal.restoreOriginalBranch, Internal.CheckoutBranch, restored.
  wp.
  - eapply spec_mono; [apply Internal_runGitCommand_checkouts|]. intros ? ? (Hc & Hg & _).
    wp. cbv beta. by rewrite app_nil_r, Hc, Hg.
  - done.
Qed.

Lemma last_gitCalls_end t1 t2 args :
  gitCalls t2 = [args] → last (gitCalls (t1 ++ t2)) = Some args.
Proof. intros H. rewrite gitCalls_app, H. apply last_snoc. Qed.

Lemma Internal_preparePagesBranch_checkouts W i h :
  let h0 := h ++ [EvLog "Running git command"
                        ["args"; fmt_v ["rev-parse"; "--abbrev-ref"; "HEAD"]]] in
  spec (Internal.preparePagesBranch W i) h
       (λ a t,
          match a.2 with
          | Ok _ =>
              ∃ raw, w_git W h0 "" ["rev-parse"; "--abbrev-ref"; "HEAD"] = Ok raw ∧
                     Internal.OriginalBranch a.1 = strings_TrimSpace raw ∧
                     checkouts t = [Internal.PagesBranch i]
          | Err e =>
              (is_err (w_git W h0 "" ["rev-parse"; "--abbrev-ref"; "HEAD"]) = true ∧
               checkouts t = []) ∨
              ∃ raw, w_git W h0 "" ["rev-parse"; "--abbrev-ref"; "HEAD"] = Ok raw ∧
                (checkouts t = [] ∨
                 (∃ e', e = "failed to checkout " +:+ Internal.PagesBranch i +:+ " branch: "
                            +:+ e' ∧ checkouts t = [Internal.PagesBranch i]) ∨
                 (checkouts t = Internal.PagesBranch i :: restored (strings_TrimSpace raw) ∧
                  (strings_TrimSpace raw ≠ "" →
                   last (gitCalls t) = Some ["checkout"; strings_TrimSpace raw])))
          end).
Proof.
  intros h0. subst h0.
  unfold Internal.preparePagesBranch, Internal.BranchExists, Internal.FetchBranch,
    Internal.CheckoutBranch, Internal.PullBranch, Internal.GetCurrentBranch,
    Internal.logInfo, Internal.indexYaml.
  wp. eapply spec_mono; [apply Internal_runGitCommand_checkouts|].
  intros cb t0 (Hc0 & _ & Herr & Hraw).
  destruct cb as [currentBranch|e]; [|wp; cbv beta; simpl; left].
  2: { rewrite app_nil_r. split; [by apply Herr|exact Hc0]. }
  destruct (Hraw _ eq_refl) as (raw & Hgit & ->). clear Hraw Herr.
  repeat (wp; try lazymatch goal with
                  | |- spec (Internal.runGitCommand _ _) _ _ =>
                      eapply spec_mono; [apply Internal_runGitCommand_checkouts|];
                      intros ? ? (? & _ & _ & _)
                  | |- spec (Internal.restoreOriginalBranch _ _) _ _ =>
                      eapply spec_mono; [apply Internal_restoreOriginalBranch_checkouts|];
                      intros ? ? [? ?]
                  end).
  all: cbv beta in *; cbn [fst snd Internal.OriginalBranch] in *.
  all: try match goal with
           | H : strings_TrimSpace _ ≠ "" → gitCalls _ = _ |- _ =>
               right; exists raw; split; [exact Hgit|]; right; right; split;
               [|intros Hne; rewrite ?app_nil_r, ?(assoc_L (++));
                 apply last_gitCalls_end, H, Hne]
           end.
  all: rewrite ?checkouts_app.
  all: repeat match goal with H : checkouts ?t = _ |- _ => rewrite H; clear H end.
  all: simpl; rewrite ?app_nil_r.
  all: first [ done
             | by right; eexists raw; split; [exact Hgit|]; left
             | by right; eexists raw; split; [exact Hgit|]; right; left; eexists
             | by eexists raw ].
Qed.

Ltac internal_index_checkouts W Y P :=
  repeat (wp; try first
                [ lazymatch goal with
                  | |- spec (Internal.restoreOriginalBranch _ _) _ _ =>
                      eapply spec_mono;
                      [apply Internal_restoreOriginalBranch_checkouts|intros ? ? [? ?]]
                  end
                | internal_index_step W Y P; [try done; intros; by apply no_checkout_git..|] ]).

Ltac internal_checkouts_done :=
  cbv beta in *; rewrite ?checkouts_app;
  repeat match goal with
         | H : Forall _ ?t |- _ => apply Forall_no_checkout in H; rewrite H; clear H
         | H : checkouts ?t = _ |- _ => rewrite H; clear H
         | H : Internal.OriginalBranch _ = _ |- _ => rewrite H; clear H
         end;
  simpl; by rewrite ?app_nil_r.

Ltac internal_restore_last :=
  cbv beta in *;
  match goal with
  | Ho : Internal.OriginalBranch _ = _,
    H : Internal.OriginalBranch _ ≠ "" → gitCalls _ = _ |- _ =>
      let Hne := fresh in
      intros Hne; rewrite Ho in H;
      rewrite ?app_nil_r, ?(assoc_L (++)); apply last_gitCalls_end, H, Hne
  end.

(** X28 (github.go of chart-releaser): the branches the index manager of
    chart-releaser checks out.  In a run of [CleanEntriesVersions] or of
    [CleanAllEntries] the first git command asks for the current branch
    with [git rev-parse --abbrev-ref HEAD]; if that fails the run fails and
    nothing is checked out.  If it answers, then either the run fails
    without a checkout, or the checkout of the pages branch failed and is
    the only one, or the pages branch is checked out first and then the
    branch that git named, trimmed, and nothing else (nothing at all after
    the pages branch if that name was empty); in that last case the
    checkout of the named branch is the last git command of the run.  The
    answer of that last checkout is not looked at. *)
Theorem chart_releaser_checkouts W Y (i : Internal.IndexManager)
        (charts : list ChartInfo) (h : History) :
  let revParse := ["rev-parse"; "--abbrev-ref"; "HEAD"] in
  let h0 := h ++ [EvLog "Running git command" ["args"; fmt_v revParse]] in
  let pages := Internal.PagesBranch i in
  let post := λ (r : result unit) t,
    match w_git W h0 "" revParse with
    | Err _ => is_err r = true ∧ checkouts t = []
    | Ok raw =>
        let orig := strings_TrimSpace raw in
        (is_err r = true ∧ checkouts t = []) ∨
        (∃ e, r = Err ("failed to prepare pages branch: failed to checkout "
                       +:+ pages +:+ " branch: " +:+ e) ∧
              checkouts t = [pages]) ∨
        (checkouts t = pages :: restored orig ∧
         (orig ≠ "" → last (gitCalls t) = Some ["checkout"; orig]))
    end in
  spec (Internal.CleanEntriesVersions W Y i charts) h post ∧
  spec (Internal.CleanAllEntries W Y i) h post.
Proof.
  set (P := λ e, checkouts [e] = []).
  pose proof no_checkout_quiet as HQ. fold P in HQ. pose proof HQ as (Hlog & _).
  intros revParse h0 pages post. subst revParse h0 pages post. split.
  - unfold Internal.CleanEntriesVersions. wp.
    eapply spec_mono; [apply Internal_preparePagesBranch_checkouts|].
    intros [i' prepared] t Hprep. wp; simpl in Hprep.
    + destruct Hprep as (raw & Hraw & Horig & Hco).
      internal_index_checkouts W Y P.
      all: cbv beta; rewrite Hraw; right; right;
        (split; [internal_checkouts_done|internal_restore_last]).
    + rewrite app_nil_r.
      destruct Hprep as [[Hraw Hco]|(raw & Hraw & [Hco|[(e' & -> & Hco)|[Hco Hlast]]])].
      * destruct (w_git W _ _ _); [done|]. by split.
      * rewrite Hraw. left. by split.
      * rewrite Hraw. right. left. eexists. by split.
      * rewrite Hraw. right. right. by split.
  - unfold Internal.CleanAllEntries. wp.
    eapply spec_mono; [apply Internal_preparePagesBranch_checkouts|].
    intros [i' prepared] t Hprep. wp; simpl in Hprep.
    + destruct Hprep as (raw & Hraw & Horig & Hco).
      internal_index_checkouts W Y P.
      all: cbv beta; rewrite Hraw; right; right;
        (split; [internal_checkouts_done|internal_restore_last]).
    + rewrite app_nil_r.
      destruct Hprep as [[Hraw Hco]|(raw & Hraw & [Hco|[(e' & -> & Hco)|[Hco Hlast]]])].
      * destruct (w_git W _ _ _); [done|]. by split.
      * rewrite Hraw. left. by split.
      * rewrite Hraw. right. left. eexists. by split.
      * rewrite Hraw. right. right. by split.
Qed.

(** In chart-releaser too the restoring checkout may fail while the run
    returns nil. *)
Lemma CleanAllEntries_restore_unchecked :
  let W := sampleWorld gitRestoreFails releaseFiles [] (Ok tt) "" in
  let run := Internal.CleanAllEntries W (sampleYaml sample_index)
               (Internal.NewIndexManager "gh-pages") [] in
  run.1 = Ok tt ∧
  checkouts run.2 = ["gh-pages"; "feature"] ∧
  last (gitCalls run.2) = Some ["checkout"; "feature"] ∧
  ∀ h, w_git W h "" ["checkout"; "feature"] = Err "exit status 1".
Proof. by vm_compute. Qed.
